(** * nhk-record: boundary detection and filter-graph generation

    A shallow embedding of the ffmpeg helper module of nhk-record
    (the module that defines [findSilences], [findBlackframeGroups],
    [detectPotentialBoundaries], [generateTimeSequence],
    [generateFilterChain], [getFfmpegPostProcessArguments],
    [getVideoDimensions] and [postProcessRecording]) together with the
    properties of its specification.

    Conventions of the embedding.
    - A JavaScript number is a double.  A finite double is the rational
      ([Q]) it denotes, and [NaN] is [None] where a parse can produce it.
      The numbers that the module parses from decimal text and computes
      with ([parseFloat], the subtraction and the multiplication by 1000
      of the times) are rounded to the nearest double, ties to the even
      significand ([Binary64.round]).  A number that went through
      [Math.round], a frame number, a filter id and a width are integers
      ([Z]); the embedding takes them below [2^53], where the arithmetic
      of doubles on integers is exact.  The scaled width divides integers;
      its quotient is taken exactly, which gives the same nearest integer
      for widths below [2^26].  Where a number is printed, the printer is
      given the exact quotient and stands for the text of the double
      nearest to it.  An infinity (a number beyond the range of doubles, a
      division by zero) and the sign of zero are outside the model.
    - A line of engine output is a [string]; an argument vector is a list
      of (possibly nested) arrays of strings, flattened by [flat] as the
      source flattens it.
    - External processes (ffprobe, ffmpeg) and the monotonic clock are
      oracles held by [Env]; logging and process execution are recorded in
      a trace by a small trace/error monad. *)

From Stdlib Require Import ZArith QArith Qround Qpower List String Ascii Bool.
From Stdlib Require Import Lia Lqa.
From Stdlib Require Import DecimalString Permutation.
From Equations Require Import Equations.
Import ListNotations.

Local Open Scope string_scope.
Local Open Scope Z_scope.
Local Open Scope list_scope.

(* ================================================================== *)
(** * Part I: definitions                                              *)
(* ================================================================== *)

(** ** Double-precision numbers

    The rounding of a rational to the nearest double: 53 significant
    bits, exponents down to [-1074] (subnormal numbers), ties to the even
    significand.  The operations of the source on doubles are the exact
    operations followed by this rounding. *)

Module Binary64.

Definition pow2 (e : Z) : Q := (2 ^ e)%Q.

(** The integer nearest to a rational; a tie goes to the even one. *)
Definition nearest_even (x : Q) : Z :=
  let f := Qfloor x in
  match (x - inject_Z f ?= 1 # 2)%Q with
  | Lt => f
  | Gt => f + 1
  | Eq => if Z.even f then f else f + 1
  end.

(** The exponent [e] of a positive rational: [2^e <= x < 2^(e+1)]. *)
Definition exponent (x : Q) : Z :=
  let e := Z.log2 (Qnum x) - Z.log2 (Zpos (Qden x)) in
  if Qle_bool (pow2 e) x then e else e - 1.

(** The exponent of the last bit of the significand of the doubles next
    to a positive rational. *)
Definition quantum (x : Q) : Z := Z.max (exponent x - 52) (-1074).

Definition round_pos (x : Q) : Q :=
  let u := quantum x in
  (inject_Z (nearest_even (x / pow2 u)) * pow2 u)%Q.

Definition round (x : Q) : Q :=
  match (x ?= 0)%Q with
  | Eq => 0%Q
  | Gt => round_pos x
  | Lt => (- round_pos (- x))%Q
  end.

(** [a - b] and [a * b] on doubles. *)
Definition sub (a b : Q) : Q := round (a - b).
Definition mul (a b : Q) : Q := round (a * b).

End Binary64.

(** ** JavaScript runtime pieces used by the module *)

Module JS.

(** Character classes of the patterns: [\d], [\w] and [[\d.]]. *)
Definition is_digit (c : ascii) : bool :=
  let n := nat_of_ascii c in (48 <=? n)%nat && (n <=? 57)%nat.

Definition is_word (c : ascii) : bool :=
  let n := nat_of_ascii c in
  is_digit c
  || ((65 <=? n)%nat && (n <=? 90)%nat)
  || ((97 <=? n)%nat && (n <=? 122)%nat)
  || (n =? 95)%nat.

Definition is_digit_or_dot (c : ascii) : bool :=
  is_digit c || (nat_of_ascii c =? 46)%nat.

Definition digit_value (c : ascii) : Z := Z.of_nat (nat_of_ascii c) - 48.

(** Longest prefix of decimal digits, and what follows it. *)
Fixpoint span_digits (s : string) : string * string :=
  match s with
  | String c r =>
      if is_digit c
      then let (d, rest) := span_digits r in (String c d, rest)
      else (EmptyString, s)
  | EmptyString => (EmptyString, EmptyString)
  end.

(** Value of a string of decimal digits, most significant first. *)
Fixpoint digits_value (acc : Z) (s : string) : Z :=
  match s with
  | String c r => digits_value (10 * acc + digit_value c) r
  | EmptyString => acc
  end.

(** [parseInt] on text without sign or leading blanks: the value of the
    leading digits, [None] ([NaN]) when there is none. *)
Definition parseInt (s : string) : option Z :=
  match span_digits s with
  | (EmptyString, _) => None
  | (d, _) => Some (digits_value 0 d)
  end.

(** The decimal number spelled by the longest prefix of the form [ddd],
    [ddd.], [ddd.ddd] or [.ddd] of a text made of digits and dots (what
    [[\d.]+] can capture); [None] when no digit is found. *)
Definition decimal_prefix (s : string) : option Q :=
  let (ip, r) := span_digits s in
  let integer_only :=
    match ip with
    | EmptyString => None
    | _ => Some (inject_Z (digits_value 0 ip))
    end in
  match r with
  | String c r' =>
      if Ascii.eqb c "."
      then
        let (fp, _) := span_digits r' in
        match fp with
        | EmptyString => integer_only
        | _ =>
            Some (Qmake (digits_value 0 (ip ++ fp)%string)
                        (Z.to_pos (10 ^ Z.of_nat (String.length fp))))
        end
      else integer_only
  | EmptyString => integer_only
  end.

(** [parseFloat] on such a text: the double nearest to the decimal number
    it spells, [None] ([NaN]) when no digit is found.  (A text that spells
    a number beyond the range of doubles gives an infinity in JavaScript.) *)
Definition parseFloat (s : string) : option Q :=
  option_map Binary64.round (decimal_prefix s).

(** [Math.round]: the nearest integer, halves towards plus infinity. *)
Definition Math_round (x : Q) : Z := Qfloor (x + (1 # 2)).

(** An integer-valued number, or [NaN] ([None]). *)
Definition number := option Z.

Definition num_sub (a b : number) : number :=
  match a, b with
  | Some x, Some y => Some (x - y)
  | _, _ => None
  end.

(** [a <= b], [a < b], [a > b] and [a === b] on numbers: false as soon
    as one side is [NaN]. *)
Definition num_leb (a b : number) : bool :=
  match a, b with
  | Some x, Some y => x <=? y
  | _, _ => false
  end.

Definition num_ltb (a b : number) : bool :=
  match a, b with
  | Some x, Some y => x <? y
  | _, _ => false
  end.

Definition num_gtb (a b : number) : bool := num_ltb b a.

Definition num_eqb (a b : number) : bool :=
  match a, b with
  | Some x, Some y => x =? y
  | _, _ => false
  end.

(** The values that reach a truthiness test, a strict equality or a
    relational operator in the module. *)
Inductive value :=
| VUndefined
| VNum (n : number)
| VBool (b : bool).

Definition truthy (v : value) : bool :=
  match v with
  | VUndefined => false
  | VNum (Some z) => negb (z =? 0)
  | VNum None => false
  | VBool b => b
  end.

Definition strict_eq (x y : value) : bool :=
  match x, y with
  | VUndefined, VUndefined => true
  | VNum a, VNum b => num_eqb a b
  | VBool a, VBool b => Bool.eqb a b
  | _, _ => false
  end.

Definition to_number (v : value) : number :=
  match v with
  | VUndefined => None
  | VNum n => n
  | VBool b => Some (if b then 1 else 0)
  end.

(** A numeric field of an object that may be missing. *)
Definition of_field (f : option Z) : value :=
  match f with
  | Some z => VNum (Some z)
  | None => VUndefined
  end.

(** [x < y] (no strings are compared in the module). *)
Definition lt (x y : value) : bool := num_ltb (to_number x) (to_number y).

(** [Array.prototype.includes] for an array of integers. *)
Definition includes (l : list Z) (x : number) : bool :=
  match x with
  | Some z => existsb (Z.eqb z) l
  | None => false
  end.

(** [Array.prototype.sort(cmp)]: the sort is stable; an element moves
    in front of another one only when the comparator asks for it. *)
Fixpoint sort_insert {A} (cmp : A -> A -> Z) (x : A) (l : list A) : list A :=
  match l with
  | [] => [x]
  | y :: r => if cmp x y <=? 0 then x :: y :: r else y :: sort_insert cmp x r
  end.

Definition sort {A} (cmp : A -> A -> Z) (l : list A) : list A :=
  fold_right (sort_insert cmp) [] l.

(** Ramda's [head] and [last] on arrays ([undefined] is [None]), and
    [init]. *)
Definition head {A} (l : list A) : option A :=
  match l with
  | [] => None
  | x :: _ => Some x
  end.

Fixpoint last {A} (l : list A) : option A :=
  match l with
  | [] => None
  | [x] => Some x
  | _ :: r => last r
  end.

Definition init {A} (l : list A) : list A := removelast l.

(** [a ?? b]. *)
Definition nullish {A} (a : option A) (b : A) : A :=
  match a with
  | Some x => x
  | None => b
  end.

(** [Array.prototype.filter(x => x)] on an array of matches-or-null. *)
Fixpoint filter_truthy {A} (l : list (option A)) : list A :=
  match l with
  | [] => []
  | Some x :: r => x :: filter_truthy r
  | None :: r => filter_truthy r
  end.

End JS.

(** ** Regular expressions of the module

    The patterns only use literals, one-character classes and greedy
    [+] repetitions of a class.  A pattern is a backtracking parser that
    returns its possible matches in the priority order of the regular
    expression engine (longest repetition first); [exec] is an unanchored
    search for the leftmost match. *)

Module Regex.

Definition Pattern (A : Type) : Type := string -> list (A * string).

Definition ret {A} (x : A) : Pattern A := fun s => [(x, s)].

Definition bind {A B} (p : Pattern A) (f : A -> Pattern B) : Pattern B :=
  fun s => flat_map (fun '(a, rest) => f a rest) (p s).

Fixpoint strip_prefix (l s : string) : option string :=
  match l, s with
  | EmptyString, _ => Some s
  | String a l', String b s' =>
      if Ascii.eqb a b then strip_prefix l' s' else None
  | String _ _, EmptyString => None
  end.

Definition lit (l : string) : Pattern unit :=
  fun s => match strip_prefix l s with
           | Some rest => [(tt, rest)]
           | None => []
           end.

Definition one (cls : ascii -> bool) : Pattern ascii :=
  fun s => match s with
           | String c r => if cls c then [(c, r)] else []
           | EmptyString => []
           end.

(** [cls+], greedy: longer matches come first. *)
Fixpoint plus (cls : ascii -> bool) (s : string) : list (string * string) :=
  match s with
  | String c r =>
      if cls c
      then map (fun '(m, rest) => (String c m, rest)) (plus cls r)
           ++ [(String c EmptyString, r)]
      else []
  | EmptyString => []
  end.

(** [String.prototype.match] with a non-global pattern: the first match
    at the leftmost position where one exists, [None] for [null]. *)
Fixpoint exec {A} (p : Pattern A) (s : string) : option A :=
  match p s with
  | (a, _) :: _ => Some a
  | [] =>
      match s with
      | String _ r => exec p r
      | EmptyString => None
      end
  end.

End Regex.

Declare Scope pattern_scope.
Delimit Scope pattern_scope with pattern.
Notation "x <- p ;; q" := (Regex.bind p (fun x => q))
  (at level 61, p at next level, right associativity) : pattern_scope.
Notation "p ;; q" := (Regex.bind p (fun _ => q))
  (at level 61, right associativity) : pattern_scope.

(** ** Event log parser: patterns and records *)

Record SilenceGroups := { g_endTime : string; g_duration : string }.

Record BlackframeGroups := {
  g_filterNum : string;
  g_frame : string;
  g_pctBlack : string;
  g_time : string
}.

Section Patterns.
Import JS Regex.
Local Open Scope pattern_scope.

(** The sources of the pattern pieces are joined with one blank. *)
Definition SILENCEDETECT_FILTER_OUTPUT_PATTERN : Pattern SilenceGroups :=
  lit "[silencedetect @ " ;; plus is_word ;; lit "]" ;;
  lit " " ;;
  lit "silence_end: " ;; endTime <- plus is_digit_or_dot ;; lit " |" ;;
  lit " " ;;
  lit "silence_duration: " ;; duration <- plus is_digit_or_dot ;;
  ret {| g_endTime := endTime; g_duration := duration |}.

Definition BLACKFRAME_FILTER_OUTPUT_PATTERN : Pattern BlackframeGroups :=
  lit "[Parsed_blackframe_" ;; filterNum <- plus is_digit ;;
  lit " @ " ;; plus is_word ;; lit "]" ;;
  lit " " ;;
  lit "frame:" ;; frame <- plus is_digit ;;
  lit " " ;;
  lit "pblack:" ;; pctBlack <- plus is_digit ;;
  lit " " ;;
  lit "pts:" ;; plus is_digit ;;
  lit " " ;;
  lit "t:" ;; time <- plus is_digit_or_dot ;;
  lit " " ;;
  lit "type:" ;; one is_word ;;
  lit " " ;;
  lit "last_keyframe:" ;; plus is_digit ;;
  ret {| g_filterNum := filterNum; g_frame := frame;
         g_pctBlack := pctBlack; g_time := time |}.

End Patterns.

(** ** Silences *)

Record Silence := { startTime : JS.number; endTime : JS.number }.

(** [Math.round(x * 1000)], [NaN] when [x] is. *)
Definition seconds_to_millis (x : option Q) : JS.number :=
  option_map (fun q => JS.Math_round (Binary64.mul q 1000)) x.

(** [a - b], [NaN] when one of them is. *)
Definition Qsub_nan (a b : option Q) : option Q :=
  match a, b with
  | Some x, Some y => Some (Binary64.sub x y)
  | _, _ => None
  end.

Definition silence_of_groups (g : SilenceGroups) : Silence :=
  {| startTime :=
       seconds_to_millis
         (Qsub_nan (JS.parseFloat (g_endTime g)) (JS.parseFloat (g_duration g)));
     endTime := seconds_to_millis (JS.parseFloat (g_endTime g)) |}.

Definition findSilences (ffmpegLines : list string) : list Silence :=
  map silence_of_groups
    (JS.filter_truthy
       (map (Regex.exec SILENCEDETECT_FILTER_OUTPUT_PATTERN) ffmpegLines)).


(** ** The interval index (package node-interval-tree)

    The package keeps records [{low, high, data}] in a balanced tree keyed
    by [low], the records with the same [low] in one node in the order of
    their insertion; the embedding keeps the records in insertion order
    and puts them in the order of the tree when it searches.  [insert]
    refuses [low > high] by throwing and ignores a record that is already
    there; [search low high] walks the tree in order and returns the data
    of the records whose closed interval meets [[low, high]], so the
    results come by ascending [low], and by insertion among equal [low].
    A record with a [NaN] bound meets no interval; what such a record
    does to the package's tree is not modelled. *)

Module IntervalTree.
Import JS.

Record Interval := { low : number; high : number; data : number }.

Definition t := list Interval.

Definition empty : t := [].

(** Two records are the same when their fields are strictly equal. *)
Definition same_interval (a b : Interval) : bool :=
  num_eqb (low a) (low b) && num_eqb (high a) (high b)
  && num_eqb (data a) (data b).

Definition insert (tree : t) (lo hi d : number) : option t :=
  let r := {| low := lo; high := hi; data := d |} in
  if num_gtb lo hi then None
  else if existsb (same_interval r) tree then Some tree
  else Some (tree ++ [r]).

Definition overlaps (lo hi : number) (r : Interval) : bool :=
  num_leb (low r) hi && num_leb lo (high r).

(** The order of the tree: ascending [low]. *)
Definition by_low (a b : Interval) : Z :=
  if num_ltb (low a) (low b) then -1
  else if num_ltb (low b) (low a) then 1
  else 0.

Definition in_order (tree : t) : list Interval := sort by_low tree.

Definition search (tree : t) (lo hi : number) : list number :=
  map data (filter (overlaps lo hi) (in_order tree)).

End IntervalTree.

(** ** Frame events, strategies and detected features *)

Record FrameSearchStrategy := {
  name : string;
  filters : list Z;
  maxSkip : option Z;
  minSilenceSeconds : option Q;
  minFrames : Z
}.

Record BlackframeOutput := {
  filterNum : JS.number;
  frameNum : JS.number;
  time : JS.number
}.

(** Modelled from the spec: the declaration of [DetectedFeature] is not
    among the sources; its fields are those of the specification's data
    model, [{start, end, firstFrame, lastFrame}], which are also the fields
    of the object that [findBlackframeGroups] builds. *)
Record DetectedFeature := {
  start : JS.number;
  end_ : JS.number;
  firstFrame : JS.number;
  lastFrame : JS.number
}.

Definition MINIMUM_BOUNDARY_SILENCE_SECONDS : Q := 1 # 10.

Definition strategy (n : string) (f : list Z) (s : Q) (m : Z) :=
  {| name := n; filters := f; maxSkip := None;
     minSilenceSeconds := Some s; minFrames := m |}.

Definition BOUNDARY_STRATEGIES : list FrameSearchStrategy :=
  [ strategy "black-logo" [11] (15 # 10) 5;
    strategy "white-logo" [13] (15 # 10) 5;
    strategy "white-borders-logo" [15] (15 # 10) 5;
    strategy "black-logo-ai-subtitles" [17] (15 # 10) 5;
    strategy "black-no-logo-ai-subtitles" [19] (15 # 10) 5;
    strategy "no-logo" [20] (1 # 10) 3;
    strategy "newsline" [22] 0%Q 1 ].

Definition NEWS_BANNER_STRATEGY : FrameSearchStrategy :=
  {| name := "news-banner-background"; filters := [13];
     maxSkip := Some 120; minSilenceSeconds := None; minFrames := 120 |}.

Definition blackframe_of_groups (g : BlackframeGroups) : BlackframeOutput :=
  {| filterNum := JS.parseInt (g_filterNum g);
     frameNum := JS.parseInt (g_frame g);
     time := seconds_to_millis (JS.parseFloat (g_time g)) |}.

(** Property access by name on a [BlackframeOutput], as the comparator
    built by package compare-func does it (through dot-prop's [get]):
    a name that is not a field of the object gives [undefined]. *)
Definition get_property (o : BlackframeOutput) (prop : string) : JS.value :=
  if String.eqb prop "filterNum" then JS.VNum (filterNum o)
  else if String.eqb prop "frameNum" then JS.VNum (frameNum o)
  else if String.eqb prop "time" then JS.VNum (time o)
  else JS.VUndefined.

(** [compareFunc(props)]: the first property on which the two objects are
    not strictly equal decides, by [x < y ? -1 : 1]; 0 when none does. *)
Fixpoint compareFunc (props : list string) (a b : BlackframeOutput) : Z :=
  match props with
  | [] => 0
  | el :: rest =>
      let x := get_property a el in
      let y := get_property b el in
      if JS.strict_eq x y then compareFunc rest a b
      else if JS.lt x y then -1 else 1
  end.

(** The silence gate of [findBlackframeGroups], with the operator
    precedence of the source: [??] binds weaker than [>=], so the
    predicate is [head(search) ?? (0 >= (minSilenceSeconds ?? 0))]. *)
Definition silence_gate (strategy : FrameSearchStrategy)
    (candidateWindows : IntervalTree.t) (e : BlackframeOutput) : bool :=
  JS.truthy
    (JS.nullish
       (option_map JS.VNum
          (JS.head (IntervalTree.search candidateWindows (time e) (time e))))
       (JS.VBool (Qle_bool (JS.nullish (minSilenceSeconds strategy) 0%Q) 0%Q))).

(** The events that enter run-grouping: parsed, selected by filter id,
    gated by silence and sorted. *)
Definition selected_events (ffmpegLines : list string)
    (strategy : FrameSearchStrategy) (candidateWindows : IntervalTree.t)
  : list BlackframeOutput :=
  JS.sort (compareFunc ["filterNum"; "frame"])
    (filter (silence_gate strategy candidateWindows)
       (filter (fun e => JS.includes (filters strategy) (filterNum e))
          (map blackframe_of_groups
             (JS.filter_truthy
                (map (Regex.exec BLACKFRAME_FILTER_OUTPUT_PATTERN)
                   ffmpegLines))))).

(** Replace the last element of an array (the run that [frameGroup]
    aliases is the last element of [frameGroups]). *)
Definition set_last {A} (l : list A) (x : A) : list A := removelast l ++ [x].

(** The body of the [reduce] callback. *)
Definition group_step (strategy : FrameSearchStrategy)
    (frameGroups : list (list BlackframeOutput)) (frame : BlackframeOutput)
  : list (list BlackframeOutput) :=
  let frameGroup := JS.nullish (JS.last frameGroups) [] in
  let frameGroups :=
    if (List.length frameGroup =? 0)%nat then frameGroups ++ [frameGroup]
    else frameGroups in
  match JS.last frameGroup with
  | None => set_last frameGroups (frameGroup ++ [frame])
  | Some lastFrame =>
      if JS.num_leb (JS.num_sub (frameNum frame) (frameNum lastFrame))
                    (Some (JS.nullish (maxSkip strategy) 1))
         && JS.num_eqb (filterNum frame) (filterNum lastFrame)
      then set_last frameGroups (frameGroup ++ [frame])
      else frameGroups ++ [[frame]]
  end.

Definition group_frames (strategy : FrameSearchStrategy)
    (events : list BlackframeOutput) : list (list BlackframeOutput) :=
  fold_left (group_step strategy) events [].

(** A run as a [DetectedFeature]; [head] and [last] of an empty run would
    be [undefined] (no run is empty, see [group_frames_nonempty]). *)
Definition feature_of_group (frameGroup : list BlackframeOutput)
  : option DetectedFeature :=
  match JS.head frameGroup, JS.last frameGroup with
  | Some h, Some l =>
      Some {| start := time h; end_ := time l;
              firstFrame := frameNum h; lastFrame := frameNum l |}
  | _, _ => None
  end.

Definition qualifying_runs (strategy : FrameSearchStrategy)
    (events : list BlackframeOutput) : list (list BlackframeOutput) :=
  filter (fun frameGroup => Z.of_nat (List.length frameGroup) >=? minFrames strategy)
    (group_frames strategy events).

Definition findBlackframeGroups (ffmpegLines : list string)
    (strategy : FrameSearchStrategy) (candidateWindows : IntervalTree.t)
  : list DetectedFeature :=
  JS.filter_truthy
    (map feature_of_group
       (qualifying_runs strategy
          (selected_events ffmpegLines strategy candidateWindows))).

(** [silences.reduce((tree, silence) => { tree.insert(...); return tree },
    new IntervalTree())]; [None] when an insertion is refused (it throws). *)
Fixpoint index_silences (tree : IntervalTree.t) (silences : list Silence)
  : option IntervalTree.t :=
  match silences with
  | [] => Some tree
  | silence :: rest =>
      match IntervalTree.insert tree (startTime silence) (endTime silence)
              (JS.num_sub (endTime silence) (startTime silence)) with
      | Some tree' => index_silences tree' rest
      | None => None
      end
  end.

(** ** Argument vectors

    The source writes an argument vector as an array literal whose elements
    are strings or arrays, and flattens it with [Array.prototype.flat]. *)

#[warnings="-register-all"]
Inductive arg :=
| Str (s : string)
| Arr (l : list arg).

(** [Array.prototype.flat(depth)]. *)
Fixpoint flat (depth : nat) (l : list arg) : list arg :=
  match depth with
  | O => l
  | S d =>
      flat_map (fun a => match a with
                         | Str s => [Str s]
                         | Arr xs => flat d xs
                         end) l
  end.

(** String conversion of an element (an array converts to its elements
    joined by commas), and [Array.prototype.join]. *)
Fixpoint arg_toString (a : arg) : string :=
  match a with
  | Str s => s
  | Arr l =>
      (fix commas (l : list arg) : string :=
         match l with
         | [] => ""
         | [x] => arg_toString x
         | x :: r => arg_toString x ++ "," ++ commas r
         end)%string l
  end.

Definition strings (l : list arg) : list string := map arg_toString l.

Definition join (sep : string) (l : list arg) : string :=
  String.concat sep (strings l).

(** A pair [[flag, value]]. *)
Definition pair_ (flag value : string) : arg := Arr [Str flag; Str value].

(** ** Processes, logging and failures *)

Inductive level := debug | info | warn.

Inductive event :=
| Logged (l : level) (message : string)
| Executed (command : string) (args : list string).

Inductive outcome (A : Type) :=
| Resolved (a : A)
| Rejected (error : string).
Arguments Resolved {A} a.
Arguments Rejected {A} error.

(** An asynchronous computation: it extends the trace of what was logged
    and executed so far, and resolves or rejects. *)
Definition Async (A : Type) : Type := list event -> outcome A * list event.

Module Async.

Definition ret {A} (a : A) : Async A := fun tr => (Resolved a, tr).

Definition bind {A B} (m : Async A) (f : A -> Async B) : Async B :=
  fun tr =>
    match m tr with
    | (Resolved a, tr') => f a tr'
    | (Rejected e, tr') => (Rejected e, tr')
    end.

Definition throw {A} (e : string) : Async A := fun tr => (Rejected e, tr).

Definition try_catch {A} (m : Async A) (handler : string -> Async A)
  : Async A :=
  fun tr =>
    match m tr with
    | (Resolved a, tr') => (Resolved a, tr')
    | (Rejected e, tr') => handler e tr'
    end.

Definition log (l : level) (message : string) : Async unit :=
  fun tr => (Resolved tt, tr ++ [Logged l message]).

(** [execute(command, args)] against the answer of the process. *)
Definition execute {A} (command : string) (args : list string)
    (answer : outcome A) : Async A :=
  fun tr => (answer, tr ++ [Executed command args]).

(** A reading of a clock whose value is determined by what has been
    logged and executed so far. *)
Definition read (clock : list event -> Z) : Async Z :=
  fun tr => (Resolved (clock tr), tr).

Definition run {A} (m : Async A) : outcome A * list event := m [].

End Async.

Declare Scope async_scope.
Delimit Scope async_scope with async.
Notation "x <- m ;; k" := (Async.bind m (fun x => k))
  (at level 61, m at next level, right associativity) : async_scope.
Notation "m ;; k" := (Async.bind m (fun _ => k))
  (at level 61, right associativity) : async_scope.

(** ** What ffprobe reports (after [JSON.parse]) *)

Module Probe.

Record Stream := {
  width : option Z;
  height : option Z;
  coded_width : option Z;
  coded_height : option Z
}.

(** [{}]. *)
Definition no_fields : Stream :=
  {| width := None; height := None;
     coded_width := None; coded_height := None |}.

Record Format := { duration : option string; nb_streams : option Z }.

Record Output := { format : option Format; streams : option (list Stream) }.

End Probe.

Module Crop.
(** Modelled from the spec: the declaration of [CropParameters] is not
    among the sources; it is the specification's crop observation, a time
    in milliseconds and a width in pixels, read by the module as [time]
    and [width].  [None] is a [NaN] time. *)
Record CropParameters := { time : option Q; width : Z }.
End Crop.

Record Dimensions := { dim_width : Z; dim_height : Z }.

(** ** The surroundings of the module

    The configuration, the application root, [path.join], the printing of
    numbers and the [execute] helper come from outside the module; the
    embedding takes them as a record. *)

Record Env := {
  (** [config.threadLimit] *)
  threadLimit : Z;
  (** [appRootPath.path] and [path.join] *)
  appRootPath : string;
  path_join : string -> string -> string;
  (** Conversion of a number to text in a template literal: the text of
      the double nearest to the given rational *)
  Number_toString : Q -> string;
  (** [execute('ffprobe', args)] followed by [JSON.parse] of its output *)
  ffprobe : list string -> outcome Probe.Output;
  (** The diagnostic lines of [execute('ffmpeg', args)] *)
  ffmpeg : list string -> outcome (list string);
  (** [process.hrtime.bigint()]: the reading of the monotonic clock, in
      nanoseconds, at the point where the given events have been logged
      and executed *)
  hrtime : list event -> Z
}.

(** The text of a BigInt in a template literal: its decimal digits. *)
Definition BigInt_toString (n : Z) : string :=
  NilZero.string_of_int (Z.to_int n).

Definition FULL_CROP_WIDTH : Z := 1920.

Section Ffmpeg.

Variable env : Env.

Local Open Scope async_scope.

Definition show (q : Q) : string := Number_toString env q.
Definition showZ (z : Z) : string := Number_toString env (inject_Z z).

Definition threads : arg :=
  if threadLimit env >? 0
  then Arr [Str "-threads"; Str (showZ (threadLimit env))]
  else Arr [].

Definition getFfprobeArguments (path : string) : list arg :=
  flat 1 [pair_ "-v" "quiet"; pair_ "-print_format" "json";
          Str "-show_format"; Str path].

Definition getStreamCount (path : string) : Async JS.number :=
  let args := getFfprobeArguments path in
  Async.log debug ("Invoking ffprobe with args: " ++ join " " args) ;;
  out <- Async.execute "ffprobe" (strings args) (ffprobe env (strings args)) ;;
  match Probe.format out with
  | None => Async.throw "TypeError"
  | Some f => Async.ret (Probe.nb_streams f)
  end.

(** The [args] of [getVideoDimensions]. *)
Definition getVideoDimensions_args (path : string) : list arg :=
  flat 1 [pair_ "-v" "error"; pair_ "-print_format" "json";
          pair_ "-select_streams" "v:0";
          pair_ "-show_entries" "stream=width,height";
          Arr [Str "-show_streams"]; Str path].

Definition getVideoDimensions (path : string) : Async Dimensions :=
  let args := getVideoDimensions_args path in
  Async.log debug ("Invoking ffprobe with args: " ++ join " " args) ;;
  result <- Async.execute "ffprobe" (strings args) (ffprobe env (strings args)) ;;
  let stream :=
    JS.nullish (JS.head (JS.nullish (Probe.streams result) []))
               Probe.no_fields in
  let width :=
    match Probe.width stream with
    | Some w => Some w
    | None => Probe.coded_width stream
    end in
  let height :=
    match Probe.height stream with
    | Some h => Some h
    | None => Probe.coded_height stream
    end in
  if negb (JS.truthy (JS.of_field width)) || negb (JS.truthy (JS.of_field height))
  then Async.throw "Unable to read video dimensions"
  else
    match width, height with
    | Some w, Some h => Async.ret {| dim_width := w; dim_height := h |}
    | _, _ => Async.throw "Unable to read video dimensions"
    end.

Definition getFfmpegBoundaryDetectionArguments
    (path : string) (from : Q) (limit : option Q) : list arg :=
  let data := path_join env (appRootPath env) in
  flat 1
    [ Str "-copyts";
      threads;
      pair_ "-ss" (show (from / 1000));
      match limit with
      | Some l => if Qeq_bool l 0 then Arr []
                  else pair_ "-t" (show (l / 1000))
      | None => Arr []
      end;
      pair_ "-i" path;
      pair_ "-i" (data "data/black_cropped.jpg");
      pair_ "-i" (data "data/white_cropped.jpg");
      pair_ "-i" (data "data/white_borders_cropped.jpg");
      pair_ "-i" (data "data/black_cropped_aisubs.jpg");
      pair_ "-i" (data "data/black_cropped_nologo_aisubs.jpg");
      pair_ "-i" (data "data/newsline_intro.jpg");
      pair_ "-filter_complex"
        (join ";"
           [ Str "[0:0]extractplanes=y[vy]";
             Str "[1]extractplanes=y[by]";
             Str "[2]extractplanes=y[wy]";
             Str "[3]extractplanes=y[wby]";
             Str "[4]extractplanes=y[bay]";
             Str "[5]extractplanes=y[bnlay]";
             Str "[6]extractplanes=y[nly]";
             Str "[vy]split=outputs=2[vy0][vy1]";
             Str "[vy0]crop=w=960:h=540:x=0:y=0[cvy]";
             Str "[cvy]split=outputs=6[cvy0][cvy1][cvy2][cvy3][cvy4][cvy5]";
             Str "[cvy0][by]blend=difference,blackframe=99";
             Str "[cvy1][wy]blend=difference,blackframe=99:50";
             Str "[cvy2][wby]blend=difference,blackframe=99:50";
             Str "[cvy3][bay]blend=difference,blackframe=99";
             Str "[cvy4][bnlay]blend=difference,blackframe=99";
             Str "[cvy5]blackframe=99";
             Str "[vy1][nly]blend=difference,blackframe=99";
             Str ("[0:1]silencedetect=n=-50dB:d="
                  ++ show MINIMUM_BOUNDARY_SILENCE_SECONDS) ]);
      pair_ "-f" "null";
      Str "-" ].

(** The [for ... of BOUNDARY_STRATEGIES] loop with its early return. *)
Fixpoint search_strategies (outputLines : list string)
    (candidateWindows : IntervalTree.t)
    (strategies : list FrameSearchStrategy) : Async (list DetectedFeature) :=
  match strategies with
  | [] => Async.ret []
  | strategy :: rest =>
      Async.log debug
        ("Searching for candidates using " ++ name strategy ++ " strategy") ;;
      let candidates :=
        findBlackframeGroups outputLines strategy candidateWindows in
      Async.log debug
        ("Found " ++ showZ (Z.of_nat (List.length candidates))
         ++ " boundary candidates") ;;
      if (0 <? List.length candidates)%nat
      then Async.ret candidates
      else search_strategies outputLines candidateWindows rest
  end.

Definition detectPotentialBoundaries
    (path : string) (from : Q) (limit : option Q)
  : Async (list DetectedFeature) :=
  let args := getFfmpegBoundaryDetectionArguments path from limit in
  Async.log debug ("Invoking ffmpeg with args: " ++ join " " args) ;;
  ffmpegStartTime <- Async.read (hrtime env) ;;
  outputLines <- Async.execute "ffmpeg" (strings args) (ffmpeg env (strings args)) ;;
  ffmpegEndTime <- Async.read (hrtime env) ;;
  let ffmpegDuration := ffmpegEndTime - ffmpegStartTime in
  Async.log info
    ("Done in " ++ BigInt_toString (Z.quot ffmpegDuration 1000000) ++ " ms") ;;
  let silences := findSilences outputLines in
  Async.log debug ("Found " ++ showZ (Z.of_nat (List.length silences)) ++ " silences") ;;
  if (List.length silences =? 0)%nat
  then
    Async.log info "No silences of sufficient length, terminating boundary search" ;;
    Async.ret []
  else
    match index_silences IntervalTree.empty silences with
    | None => Async.throw "`low` value must be lower or equal to `high` value"
    | Some candidateWindows =>
        search_strategies outputLines candidateWindows BOUNDARY_STRATEGIES
    end.

(** The time of a crop observation when it passes the test [!time]:
    a number other than 0 and [NaN]. *)
Definition truthy_time (t : option Q) : option Q :=
  match t with
  | Some q => if Qeq_bool q 0 then None else Some q
  | None => None
  end.

Definition inspect {A} (a : A) : {b : A | a = b} := exist _ a eq_refl.

Equations generateTimeSequence (calcValue : Z -> Z)
    (cropParameters : list Crop.CropParameters) (defaultWidth : Z) : string
  by wf (List.length cropParameters) lt :=
  generateTimeSequence calcValue cropParameters defaultWidth
    with inspect (JS.last cropParameters) => {
    | exist _ None _ := showZ (calcValue defaultWidth);
    | exist _ (Some p) eq with truthy_time (Crop.time p) => {
      | None := showZ (calcValue (Crop.width p));
      | Some time :=
          ("if(gte(t," ++ show (time / 1000) ++ "),"
           ++ showZ (calcValue (Crop.width p)) ++ ","
           ++ generateTimeSequence calcValue (JS.init cropParameters)
                defaultWidth
           ++ ")")%string } }.
Next Obligation.
  destruct cropParameters as [|a l]; [discriminate|].
  unfold JS.init. clear. revert a.
  induction l as [|b l IH]; intros a; [simpl; lia|].
  specialize (IH b). simpl in *. lia.
Qed.

Definition makeCalculateScaleWidth (outputWidth cropWidth : Z) : Z :=
  JS.Math_round
    (inject_Z (outputWidth * outputWidth) / inject_Z cropWidth / 2) * 2.

Definition makeCalculateOverlayPosition (outputWidth cropWidth : Z) : Z :=
  JS.Math_round (inject_Z (cropWidth - outputWidth) / 2).

Definition generateFilterChain (start : Q)
    (cropParameters : list Crop.CropParameters) (hasThumbnail : bool)
    (targetWidth targetHeight : Z) : list arg :=
  let calcPos := makeCalculateOverlayPosition targetWidth in
  let calcScale := makeCalculateScaleWidth targetWidth in
  let filters :=
    join ";"
      (flat 1
         [ if (0 <? List.length cropParameters)%nat
           then
             Arr [ Str ("nullsrc=size=" ++ showZ targetWidth ++ "x"
                        ++ showZ targetHeight ++ ":r=29.97[base]");
                   Str ("[base][0:0]overlay='"
                        ++ generateTimeSequence calcPos cropParameters targetWidth
                        ++ "':0:shortest=1[o]");
                   Str ("[o]scale='"
                        ++ generateTimeSequence calcScale cropParameters targetWidth
                        ++ "':-1:eval=frame:flags=bicubic[s]");
                   Str ("[s]crop=" ++ showZ targetWidth ++ ":"
                        ++ showZ targetHeight ++ ":0:0[c]") ]
           else Arr [];
           if hasThumbnail
           then Str ("[1:2]setpts=PTS+" ++ show (start / 1000) ++ "/TB[tn]")
           else Arr [] ]) in
  if String.eqb filters "" then []
  else [Str "-filter_complex"; Str filters].

Definition getFfmpegPostProcessArguments (inputPath outputPath : string)
    (start end_ : Q) (cropParameters : list Crop.CropParameters)
    (hasThumbnail : bool) (targetWidth targetHeight : Z) : list arg :=
  flat 2
    [ Str "-y";
      threads;
      pair_ "-i" inputPath;
      if hasThumbnail then pair_ "-i" inputPath else Arr [];
      pair_ "-ss" (show (start / 1000));
      if Qeq_bool end_ 0 then Arr [] else pair_ "-to" (show (end_ / 1000));
      pair_ "-codec" "copy";
      Arr (generateFilterChain start cropParameters hasThumbnail
             targetWidth targetHeight);
      if (0 <? List.length cropParameters)%nat
      then Arr [ pair_ "-map" "[c]";
                 pair_ "-crf" "19";
                 pair_ "-preset" "veryfast";
                 pair_ "-codec:v:0" "libx264" ]
      else pair_ "-map" "0:0";
      pair_ "-map" "0:1";
      if hasThumbnail
      then Arr [ pair_ "-map" "[tn]";
                 pair_ "-codec:v:1" "mjpeg";
                 pair_ "-disposition:v:1" "attached_pic" ]
      else Arr [];
      pair_ "-map_metadata" "0";
      pair_ "-f" "mp4";
      Str outputPath ].

Definition postProcessRecording (inputPath outputPath : string)
    (start end_ : Q) (cropParameters : list Crop.CropParameters)
  : Async unit :=
  streamCount <- getStreamCount inputPath ;;
  let hasThumbnail := JS.num_gtb streamCount (Some 2) in
  dims <-
    Async.try_catch
      (dims <- getVideoDimensions inputPath ;;
       Async.ret (dim_width dims, dim_height dims))
      (fun err =>
         Async.log warn
           ("Unable to determine video dimensions; falling back to "
            ++ showZ FULL_CROP_WIDTH ++ "x" ++ showZ 1080) ;;
         Async.ret (FULL_CROP_WIDTH, 1080)) ;;
  let '(targetWidth, targetHeight) := dims in
  let args :=
    getFfmpegPostProcessArguments inputPath outputPath start end_
      cropParameters hasThumbnail targetWidth targetHeight in
  Async.log debug ("Invoking ffmpeg with args: " ++ join " " args) ;;
  ffmpegStartTime <- Async.read (hrtime env) ;;
  Async.execute "ffmpeg" (strings args) (ffmpeg env (strings args)) ;;
  ffmpegEndTime <- Async.read (hrtime env) ;;
  let ffmpegDuration := ffmpegEndTime - ffmpegStartTime in
  Async.log info
    ("Done in " ++ BigInt_toString (Z.quot ffmpegDuration 1000000) ++ " ms").

End Ffmpeg.

(** What one turn of the strategy loop logs. *)
Definition search_log (env : Env) (outputLines : list string)
    (candidateWindows : IntervalTree.t) (strategy : FrameSearchStrategy)
  : list event :=
  [ Logged debug
      ("Searching for candidates using " ++ name strategy ++ " strategy");
    Logged debug
      ("Found "
       ++ showZ env
            (Z.of_nat
               (List.length
                  (findBlackframeGroups outputLines strategy candidateWindows)))
       ++ " boundary candidates") ].

(** The line that reports how long an ffmpeg run took: the run was
    started when the events [before] had happened and its execution
    extended them to [after]; the BigInt division truncates. *)
Definition done_in (env : Env) (before after : list event) : event :=
  Logged info
    ("Done in "
     ++ BigInt_toString (Z.quot (hrtime env after - hrtime env before) 1000000)
     ++ " ms").

(** What a successful ffmpeg run with the given arguments adds to the
    events [before]: the invocation line, the execution and the line that
    reports its duration. *)
Definition ffmpeg_run (env : Env) (before : list event) (args : list arg)
  : list event :=
  let invoked :=
    before ++ [Logged debug ("Invoking ffmpeg with args: " ++ join " " args)] in
  [ Logged debug ("Invoking ffmpeg with args: " ++ join " " args);
    Executed "ffmpeg" (strings args);
    done_in env invoked (invoked ++ [Executed "ffmpeg" (strings args)]) ].

(** What [detectPotentialBoundaries] logs and executes before it looks at
    the silences. *)
Definition detection_prelude (env : Env) (path : string) (from : Q)
    (limit : option Q) (outputLines : list string) : list event :=
  let args := getFfmpegBoundaryDetectionArguments env path from limit in
  ffmpeg_run env [] args
  ++ [ Logged debug
         ("Found "
          ++ showZ env (Z.of_nat (List.length (findSilences outputLines)))
          ++ " silences") ].

(** ** The pieces of the post-processing argument vector *)

Definition input_arguments (env : Env) (inputPath : string) (start : Q)
    (hasThumbnail : bool) : list arg :=
  [Str "-y"]
  ++ (if threadLimit env >? 0
      then [Str "-threads"; Str (showZ env (threadLimit env))]
      else [])
  ++ [Str "-i"; Str inputPath]
  ++ (if hasThumbnail then [Str "-i"; Str inputPath] else [])
  ++ [Str "-ss"; Str (show env (start / 1000))].

Definition end_trim (env : Env) (end_ : Q) : list arg :=
  if Qeq_bool end_ 0 then [] else [Str "-to"; Str (show env (end_ / 1000))].

Definition reencoded_video : list arg :=
  [ Str "-map"; Str "[c]"; Str "-crf"; Str "19";
    Str "-preset"; Str "veryfast"; Str "-codec:v:0"; Str "libx264" ].

Definition copied_video : list arg := [Str "-map"; Str "0:0"].

Definition output_arguments (outputPath : string) (hasThumbnail : bool)
  : list arg :=
  [Str "-map"; Str "0:1"]
  ++ (if hasThumbnail
      then [ Str "-map"; Str "[tn]"; Str "-codec:v:1"; Str "mjpeg";
             Str "-disposition:v:1"; Str "attached_pic" ]
      else [])
  ++ [Str "-map_metadata"; Str "0"; Str "-f"; Str "mp4"; Str outputPath].

(** The filters that correct the crop, and the filter that re-times the
    thumbnail stream. *)
Definition correction_filters (env : Env)
    (cropParameters : list Crop.CropParameters) (targetWidth targetHeight : Z)
  : list string :=
  [ "nullsrc=size=" ++ showZ env targetWidth ++ "x"
    ++ showZ env targetHeight ++ ":r=29.97[base]";
    "[base][0:0]overlay='"
    ++ generateTimeSequence env (makeCalculateOverlayPosition targetWidth)
         cropParameters targetWidth
    ++ "':0:shortest=1[o]";
    "[o]scale='"
    ++ generateTimeSequence env (makeCalculateScaleWidth targetWidth)
         cropParameters targetWidth
    ++ "':-1:eval=frame:flags=bicubic[s]";
    "[s]crop=" ++ showZ env targetWidth ++ ":"
    ++ showZ env targetHeight ++ ":0:0[c]" ]%string.

Definition thumbnail_filter (env : Env) (start : Q) : string :=
  ("[1:2]setpts=PTS+" ++ show env (start / 1000) ++ "/TB[tn]")%string.

(** ** Definitions that follow the words of the specification *)

Module Spec.

(** "the duration of the silence window overlapping its time, taken as 0
    when no window overlaps it". *)
Definition silence_overlap (candidateWindows : IntervalTree.t)
    (e : BlackframeOutput) : JS.number :=
  JS.nullish
    (JS.head (IntervalTree.search candidateWindows (time e) (time e)))
    (Some 0).

(** "is at least the strategy's minSilenceSeconds converted to
    milliseconds". *)
Definition silence_gate (strategy : FrameSearchStrategy)
    (candidateWindows : IntervalTree.t) (e : BlackframeOutput) : bool :=
  match silence_overlap candidateWindows e with
  | Some d =>
      Qle_bool (JS.nullish (minSilenceSeconds strategy) 0%Q * 1000) (inject_Z d)
  | None => false
  end.

(** "ordered first by filter id and, within equal filter ids, by frame
    number ascending". *)
Definition in_order (a b : BlackframeOutput) : bool :=
  match filterNum a, filterNum b, frameNum a, frameNum b with
  | Some fa, Some fb, Some na, Some nb =>
      (fa <? fb) || ((fa =? fb) && (na <=? nb))
  | _, _, _, _ => false
  end.

Fixpoint ordered (l : list BlackframeOutput) : bool :=
  match l with
  | a :: (b :: _) as rest => in_order a b && ordered rest
  | _ => true
  end.

(** "each event extends the current run if and only if it shares
    filterId with the run's last event and its frame-number gap is at
    most maxSkip, otherwise it starts a new run". *)
Definition extends_run (maxSkip : Z) (lastFrame frame : BlackframeOutput)
  : bool :=
  JS.num_eqb (filterNum frame) (filterNum lastFrame)
  && JS.num_leb (JS.num_sub (frameNum frame) (frameNum lastFrame))
                (Some maxSkip).

Fixpoint runs_from (maxSkip : Z) (run : list BlackframeOutput)
    (lastFrame : BlackframeOutput) (events : list BlackframeOutput)
  : list (list BlackframeOutput) :=
  match events with
  | [] => [run]
  | e :: rest =>
      if extends_run maxSkip lastFrame e
      then runs_from maxSkip (run ++ [e]) e rest
      else run :: runs_from maxSkip [e] e rest
  end.

Definition greedy_runs (maxSkip : Z) (events : list BlackframeOutput)
  : list (list BlackframeOutput) :=
  match events with
  | [] => []
  | e :: rest => runs_from maxSkip [e] e rest
  end.

(** "the run list of the first strategy whose run list is non-empty"
    and the strategies evaluated on the way. *)
Fixpoint first_non_empty {A B} (run : A -> list B) (strategies : list A)
  : list B :=
  match strategies with
  | [] => []
  | s :: rest =>
      match run s with
      | [] => first_non_empty run rest
      | found => found
      end
  end.

Fixpoint evaluated {A B} (run : A -> list B) (strategies : list A) : list A :=
  match strategies with
  | [] => []
  | s :: rest =>
      match run s with
      | [] => s :: evaluated run rest
      | _ => [s]
      end
  end.

(** "if(t >= obs.time, f(obs.width), <recurse on earlier observations>)":
    the nest over observations listed from the most recent one backward,
    around a given innermost else branch. *)
Fixpoint nested (env : Env) (calcValue : Z -> Z)
    (observations : list Crop.CropParameters) (innermost : string) : string :=
  match observations with
  | [] => innermost
  | p :: earlier =>
      ("if(gte(t," ++ show env (JS.nullish (Crop.time p) 0%Q / 1000) ++ "),"
       ++ showZ env (calcValue (Crop.width p)) ++ ","
       ++ nested env calcValue earlier innermost ++ ")")%string
  end.

(** "terminating at the earliest observation's value when no further
    predecessor exists": the earliest observation is the innermost else
    branch of the nest over the later ones. *)
Definition time_sequence (env : Env) (calcValue : Z -> Z)
    (cropParameters : list Crop.CropParameters) : string :=
  match cropParameters with
  | [] => ""
  | earliest :: later =>
      nested env calcValue (rev later)
        (showZ env (calcValue (Crop.width earliest)))
  end.

End Spec.

(** ** A concrete environment for the examples *)

Fixpoint fraction_digits (fuel : nat) (num den : Z) : string :=
  match fuel with
  | O => ""
  | S f =>
      if num =? 0 then ""
      else String (ascii_of_nat (48 + Z.to_nat (10 * num / den)))
                  (fraction_digits f (10 * num mod den) den)
  end.

(** Decimal text of a rational with a short decimal expansion: what a
    template literal prints for an integer and for a number of
    milliseconds divided by 1000. *)
Definition decimal (q : Q) : string :=
  let n := Qnum q in
  let d := Zpos (Qden q) in
  let a := Z.abs n in
  let sign := if n <? 0 then "-" else "" in
  let whole := NilZero.string_of_uint (N.to_uint (Z.to_N (a / d))) in
  let fraction := fraction_digits 20 (a mod d) d in
  (sign ++ whole ++ (if String.eqb fraction "" then "" else "." ++ fraction))%string.

Definition example_env (probe : outcome Probe.Output)
    (lines : outcome (list string)) : Env :=
  {| threadLimit := 0;
     appRootPath := "/app";
     path_join := fun a b => (a ++ "/" ++ b)%string;
     Number_toString := decimal;
     ffprobe := fun _ => probe;
     ffmpeg := fun _ => lines;
     hrtime := fun events => 250000000 * Z.of_nat (List.length events) |}.

(** Engine output with one silence of half a second and five consecutive
    frames of filter 11 inside it. *)
Definition short_silence_lines : list string :=
  ["[silencedetect @ 0x55d0c8] silence_end: 10.5 | silence_duration: 0.5";
   "[Parsed_blackframe_11 @ 0x55d0] frame:100 pblack:99 pts:1 t:10.1 type:P last_keyframe:90";
   "[Parsed_blackframe_11 @ 0x55d0] frame:101 pblack:99 pts:1 t:10.15 type:P last_keyframe:90";
   "[Parsed_blackframe_11 @ 0x55d0] frame:102 pblack:99 pts:1 t:10.2 type:P last_keyframe:90";
   "[Parsed_blackframe_11 @ 0x55d0] frame:103 pblack:99 pts:1 t:10.25 type:P last_keyframe:90";
   "[Parsed_blackframe_11 @ 0x55d0] frame:104 pblack:99 pts:1 t:10.3 type:P last_keyframe:90"].

(** Two frames of filter 13 reported in descending frame order. *)
Definition descending_lines : list string :=
  ["[Parsed_blackframe_13 @ 0x55d0] frame:20 pblack:99 pts:1 t:2.0 type:P last_keyframe:0";
   "[Parsed_blackframe_13 @ 0x55d0] frame:10 pblack:99 pts:1 t:1.0 type:P last_keyframe:0"].

(** One silence, and two frames of filter 22 (strategy "newsline")
    reported in descending frame order. *)
Definition descending_newsline_lines : list string :=
  ["[silencedetect @ 0x55d0c8] silence_end: 10.5 | silence_duration: 0.5";
   "[Parsed_blackframe_22 @ 0x55d0] frame:11 pblack:99 pts:1 t:2.0 type:P last_keyframe:0";
   "[Parsed_blackframe_22 @ 0x55d0] frame:10 pblack:99 pts:1 t:1.0 type:P last_keyframe:0"].

(** The frames 10, 11 and 30 of filter 1. *)
Definition filter_one_lines : list string :=
  ["[Parsed_blackframe_1 @ 0x55d0] frame:10 pblack:99 pts:1 t:1.0 type:P last_keyframe:0";
   "[Parsed_blackframe_1 @ 0x55d0] frame:11 pblack:99 pts:1 t:1.1 type:P last_keyframe:0";
   "[Parsed_blackframe_1 @ 0x55d0] frame:30 pblack:99 pts:1 t:2.0 type:P last_keyframe:0"].

Definition frame_event (f n t : Z) : BlackframeOutput :=
  {| filterNum := Some f; frameNum := Some n; time := Some t |}.

Definition quiet_env : Env := example_env (Rejected "unused") (Rejected "unused").

(** One crop observation, one second into the recording. *)
Definition late_observation : list Crop.CropParameters :=
  [ {| Crop.time := Some 1000%Q; Crop.width := 1800 |} ].

(** A probe answer for a file with three streams whose video stream
    reports the given dimension fields. *)
Definition probe_answer (stream : Probe.Stream) : Probe.Output :=
  {| Probe.format :=
       Some {| Probe.duration := Some "1800.5"; Probe.nb_streams := Some 3 |};
     Probe.streams := Some [stream] |}.

Definition probe_env (stream : Probe.Stream) : Env :=
  example_env (Resolved (probe_answer stream)) (Resolved []).

(** Primary width reported as 0, coded dimensions present. *)
Definition zero_width_stream : Probe.Stream :=
  {| Probe.width := Some 0; Probe.height := Some 1080;
     Probe.coded_width := Some 1920; Probe.coded_height := Some 1088 |}.

Definition full_hd_stream : Probe.Stream :=
  {| Probe.width := Some 1920; Probe.height := Some 1080;
     Probe.coded_width := Some 1920; Probe.coded_height := Some 1088 |}.

Definition coded_only_stream : Probe.Stream :=
  {| Probe.width := None; Probe.height := None;
     Probe.coded_width := Some 1280; Probe.coded_height := Some 720 |}.

(** Primary width present, primary height absent, coded height present. *)
Definition coded_height_stream : Probe.Stream :=
  {| Probe.width := Some 1920; Probe.height := None;
     Probe.coded_width := None; Probe.coded_height := Some 1088 |}.

(* ================================================================== *)
(** * Part I, continued: the rest of the module and its callers       *)
(* ================================================================== *)

From Stdlib Require Import Sorting.Sorted.

(** ** Crop candidates *)

Record CropdetectGroups := {
  c_filterNum : string;
  c_x1 : string;
  c_x2 : string;
  c_y1 : string;
  c_y2 : string;
  c_width : string;
  c_height : string;
  c_x : string;
  c_y : string;
  c_time : string
}.

Section CropPattern.
Import JS Regex.
Local Open Scope pattern_scope.

Definition CROPDETECT_FILTER_OUTPUT_PATTERN : Pattern CropdetectGroups :=
  lit "[Parsed_cropdetect_" ;; filterNum <- plus is_digit ;;
  lit " @ " ;; plus is_word ;; lit "]" ;;
  lit " " ;;
  lit "x1:" ;; x1 <- plus is_digit ;;
  lit " " ;;
  lit "x2:" ;; x2 <- plus is_digit ;;
  lit " " ;;
  lit "y1:" ;; y1 <- plus is_digit ;;
  lit " " ;;
  lit "y2:" ;; y2 <- plus is_digit ;;
  lit " " ;;
  lit "w:" ;; width <- plus is_digit ;;
  lit " " ;;
  lit "h:" ;; height <- plus is_digit ;;
  lit " " ;;
  lit "x:" ;; x <- plus is_digit ;;
  lit " " ;;
  lit "y:" ;; y <- plus is_digit ;;
  lit " " ;;
  lit "pts:" ;; plus is_digit ;;
  lit " " ;;
  lit "t:" ;; time <- plus is_digit_or_dot ;;
  lit " " ;;
  lit "crop=" ;; plus is_digit ;; lit ":" ;; plus is_digit ;; lit ":" ;;
  plus is_digit ;; lit ":" ;; plus is_digit ;;
  ret {| c_filterNum := filterNum; c_x1 := x1; c_x2 := x2; c_y1 := y1;
         c_y2 := y2; c_width := width; c_height := height; c_x := x;
         c_y := y; c_time := time |}.

End CropPattern.

(** What [detectCropArea] returns for one line: [parseFloat(time) * 1000]
    (a double, not rounded to an integer) and [parseInt(width)]. *)
Module CropArea.
Record t := { time : option Q; width : JS.number }.
End CropArea.

Definition crop_of_groups (g : CropdetectGroups) : CropArea.t :=
  {| CropArea.time :=
       option_map (fun q => Binary64.mul q 1000) (JS.parseFloat (c_time g));
     CropArea.width := JS.parseInt (c_width g) |}.

Definition findCropAreas (outputLines : list string) : list CropArea.t :=
  map crop_of_groups
    (JS.filter_truthy
       (map (Regex.exec CROPDETECT_FILTER_OUTPUT_PATTERN) outputLines)).

(** A crop observation as the filter-graph builder reads it; [None] when
    the width is not a number. *)
Definition to_CropParameters (c : CropArea.t) : option Crop.CropParameters :=
  match CropArea.width c with
  | Some w => Some {| Crop.time := CropArea.time c; Crop.width := w |}
  | None => None
  end.

(** The frame events of a line list, before any selection. *)
Definition parsed_events (ffmpegLines : list string) : list BlackframeOutput :=
  map blackframe_of_groups
    (JS.filter_truthy
       (map (Regex.exec BLACKFRAME_FILTER_OUTPUT_PATTERN) ffmpegLines)).

(** The events that pass the selection by filter id and the silence gate,
    in the order of the lines (what the sort receives). *)
Definition gated_events (ffmpegLines : list string)
    (strategy : FrameSearchStrategy) (candidateWindows : IntervalTree.t)
  : list BlackframeOutput :=
  filter (silence_gate strategy candidateWindows)
    (filter (fun e => JS.includes (filters strategy) (filterNum e))
       (parsed_events ffmpegLines)).

(** The filter id of the first event is a number not above that of the
    second. *)
Definition filter_le (a b : BlackframeOutput) : Prop :=
  match filterNum a, filterNum b with
  | Some x, Some y => x <= y
  | _, _ => False
  end.

(** The event has the given filter id. *)
Definition has_filter (f : Z) (e : BlackframeOutput) : bool :=
  JS.num_eqb (filterNum e) (Some f).

(** The test of the [reduce] callback of [findBlackframeGroups]: the
    frame extends the run that ends with [lastFrame]. *)
Definition extends (maxSkip : Z) (lastFrame frame : BlackframeOutput) : bool :=
  JS.num_leb (JS.num_sub (frameNum frame) (frameNum lastFrame)) (Some maxSkip)
  && JS.num_eqb (filterNum frame) (filterNum lastFrame).

(** Each event of a run extends the run that ends with its predecessor. *)
Fixpoint chained (maxSkip : Z) (run : list BlackframeOutput) : bool :=
  match run with
  | a :: (b :: _) as rest => extends maxSkip a b && chained maxSkip rest
  | _ => true
  end.

(** The first event of each run but the first does not extend the run
    before it. *)
Fixpoint breaks_between (maxSkip : Z) (runs : list (list BlackframeOutput))
  : bool :=
  match runs with
  | r1 :: (r2 :: _) as rest =>
      match JS.last r1, JS.head r2 with
      | Some a, Some b => negb (extends maxSkip a b)
      | _, _ => false
      end
      && breaks_between maxSkip rest
  | _ => true
  end.

(** The record that [detectPotentialBoundaries] inserts for a silence. *)
Definition silence_record (s : Silence) : IntervalTree.Interval :=
  {| IntervalTree.low := startTime s; IntervalTree.high := endTime s;
     IntervalTree.data := JS.num_sub (endTime s) (startTime s) |}.

(** The arrays inside an element are nested at most [depth] deep. *)
Fixpoint depth_le (depth : nat) (a : arg) : bool :=
  match a with
  | Str _ => true
  | Arr l =>
      match depth with
      | O => false
      | S d => forallb (depth_le d) l
      end
  end.

(** Every character of a text is in a class. *)
Fixpoint all_chars (cls : ascii -> bool) (s : string) : bool :=
  match s with
  | EmptyString => true
  | String c r => cls c && all_chars cls r
  end.

(** The text starts with a character of the class. *)
Definition starts_in (cls : ascii -> bool) (s : string) : bool :=
  match s with
  | String c _ => cls c
  | EmptyString => false
  end.

(** The character occurs in the text. *)
Fixpoint occurs (c : ascii) (s : string) : bool :=
  match s with
  | String d r => Ascii.eqb c d || occurs c r
  | EmptyString => false
  end.

(** A diagnostic line of the silence detector, as the engine prints it:
    the address of the filter, the end and the duration of the silence. *)
Definition silence_line (address silence_end silence_duration : string)
  : string :=
  "[silencedetect @ " ++ address ++ "] silence_end: " ++ silence_end
  ++ " | silence_duration: " ++ silence_duration.

(** Engine output of a crop detection: two candidates and a line that is
    none. *)
Definition crop_lines : list string :=
  ["[Parsed_cropdetect_6 @ 0x55d0] x1:0 x2:1919 y1:0 y2:927 w:1920 h:928 x:0 y:0 pts:45045 t:1.5 crop=1920:928:0:0";
   "frame=  900 fps=0.0 q=-0.0 size=N/A time=00:00:30.03 bitrate=N/A speed=60x";
   "[Parsed_cropdetect_6 @ 0x55d0] x1:40 x2:1879 y1:0 y2:927 w:1840 h:928 x:40 y:0 pts:930930 t:31.031 crop=1840:928:40:0"].

(** ** Programmes *)

(** A date object: its time value in milliseconds, [None] for an invalid
    date. *)
Definition Date := JS.number.

(** A programme as [getSchedule] builds it and as the module reads it
    (the declaration of [Programme] is not among the sources): text
    fields and two dates, each of which may be missing. *)
Record Programme := {
  title : option string;
  subtitle : option string;
  seriesId : option string;
  airingId : option string;
  description : option string;
  thumbnail : option string;
  content : option string;
  startDate : option Date;
  endDate : option Date
}.

(** Truthiness of a text that may be missing. *)
Definition truthy_text (s : option string) : bool :=
  match s with
  | Some t => negb (String.eqb t "")
  | None => false
  end.

(** ** Banner detection, crop detection and capture *)

Section Detectors.

Variable env : Env.
(** [config.streamUrl] and [Date.prototype.toISOString] on a valid date. *)
Variable streamUrl : string.
Variable toISOString : Z -> string.

Local Open Scope async_scope.

Definition getFfmpegNewsBannerDetectionArguments (path : string) : list arg :=
  flat 1
    [ threads env;
      pair_ "-i" path;
      pair_ "-i" (path_join env (appRootPath env) "data/news_background.jpg");
      pair_ "-filter_complex"
        (join ";"
           [ Str "nullsrc=size=184x800:r=29.97[base]";
             Str "[0:0]extractplanes=y[vy]";
             Str "[1]extractplanes=y[iy]";
             Str "[vy]split=2[vy0][vy1]";
             Str "[iy]split=2[iy0][iy1]";
             Str "[vy0]crop=92:800:0:174[vyl]";
             Str "[vy1]crop=92:800:1828:174[vyr]";
             Str "[iy0]crop=92:800:0:174[iyl]";
             Str "[iy1]crop=92:800:1828:174[iyr]";
             Str "[vyl][iyl]blend=difference[dl]";
             Str "[vyr][iyr]blend=difference[dr]";
             Str "[base][dl]overlay=0:0:shortest=1[ol]";
             Str "[ol][dr]overlay=92:0,blackframe=99:16" ]);
      pair_ "-f" "null";
      Str "-" ].

Definition detectNewsBanners (path : string) : Async (list DetectedFeature) :=
  let args := getFfmpegNewsBannerDetectionArguments path in
  Async.log debug ("Invoking ffmpeg with args: " ++ join " " args) ;;
  ffmpegStartTime <- Async.read (hrtime env) ;;
  outputLines <- Async.execute "ffmpeg" (strings args) (ffmpeg env (strings args)) ;;
  ffmpegEndTime <- Async.read (hrtime env) ;;
  let ffmpegDuration := ffmpegEndTime - ffmpegStartTime in
  Async.log info
    ("Done in " ++ BigInt_toString (Z.quot ffmpegDuration 1000000) ++ " ms") ;;
  let newsBanners :=
    findBlackframeGroups outputLines NEWS_BANNER_STRATEGY IntervalTree.empty in
  Async.ret newsBanners.

Definition getFfmpegCropDetectionArguments (path : string) (from limit : Q)
  : list arg :=
  flat 1
    [ Str "-copyts";
      threads env;
      pair_ "-ss" (show env (from / 1000));
      pair_ "-t" (show env (limit / 1000));
      pair_ "-i" path;
      pair_ "-i" (path_join env (appRootPath env) "data/news_background.jpg");
      pair_ "-filter_complex"
        (join ";"
           [ Str "[0:0]extractplanes=y[vy]";
             Str "[1]extractplanes=y[iy]";
             Str "[vy][iy]blend=difference,crop=iw:floor(ih*928/1080):0:floor(ih*60/1080),split=2[vc0][vc1]";
             Str "[vc0]hflip[vf]";
             Str "[vf][vc1]blend=addition,cropdetect=24:2:1" ]);
      pair_ "-f" "null";
      Str "-" ].

Definition detectCropArea (path : string) (from limit : Q)
  : Async (list CropArea.t) :=
  let args := getFfmpegCropDetectionArguments path from limit in
  Async.log debug ("Invoking ffmpeg with args: " ++ join " " args) ;;
  ffmpegStartTime <- Async.read (hrtime env) ;;
  outputLines <- Async.execute "ffmpeg" (strings args) (ffmpeg env (strings args)) ;;
  ffmpegEndTime <- Async.read (hrtime env) ;;
  let ffmpegDuration := ffmpegEndTime - ffmpegStartTime in
  Async.log info
    ("Done in " ++ BigInt_toString (Z.quot ffmpegDuration 1000000) ++ " ms") ;;
  Async.ret (findCropAreas outputLines).

(** [programme.field ? ['-metadata', `key=${programme.field}`] : []]. *)
Definition metadata (key : string) (field : option string) : arg :=
  if truthy_text field
  then Arr [Str "-metadata"; Str (key ++ "=" ++ JS.nullish field "")]
  else Arr [].

(** [programme.startDate ? ['-metadata', `date=${...toISOString()}`] : []]:
    a date object is truthy, and [toISOString] throws a [RangeError] on an
    invalid date. *)
Definition date_metadata (d : option Date) : outcome arg :=
  match d with
  | None => Resolved (Arr [])
  | Some None => Rejected "RangeError: Invalid time value"
  | Some (Some t) =>
      Resolved (Arr [Str "-metadata"; Str ("date=" ++ toISOString t)])
  end.

Definition getFfmpegCaptureArguments (path : string) (programme : Programme)
    (thumbnail : bool) (durationSeconds : Q) : outcome (list arg) :=
  match date_metadata (startDate programme) with
  | Rejected e => Rejected e
  | Resolved date =>
      Resolved
        (flat 2
           [ Str "-y";
             threads env;
             pair_ "-i" streamUrl;
             if thumbnail
             then Arr [ pair_ "-i" "-";
                        pair_ "-map" "0";
                        pair_ "-map" "1";
                        pair_ "-disposition:v:1" "attached_pic" ]
             else Arr [];
             pair_ "-t" (show env durationSeconds);
             pair_ "-codec" "copy";
             pair_ "-f" "mp4";
             metadata "show" (title programme);
             metadata "title" (subtitle programme);
             metadata "description" (description programme);
             metadata "synopsis" (content programme);
             date;
             metadata "episode_id" (airingId programme);
             pair_ "-metadata" "network=NHK World";
             Str path ])
  end.

(** [captureStream]; what is written to the standard input of the
    process (the thumbnail) is not part of the trace. *)
Definition captureStream (path : string) (targetSeconds : Q)
    (programme : Programme) (thumbnailData : option string)
  : Async (list string) :=
  match getFfmpegCaptureArguments path programme
          (match thumbnailData with Some _ => true | None => false end)
          targetSeconds with
  | Rejected e => Async.throw e
  | Resolved args =>
      Async.log debug ("Invoking ffmpeg with args: " ++ join " " args) ;;
      ffmpegStartTime <- Async.read (hrtime env) ;;
      outputLines <- Async.execute "ffmpeg" (strings args) (ffmpeg env (strings args)) ;;
      ffmpegEndTime <- Async.read (hrtime env) ;;
      let ffmpegDuration := ffmpegEndTime - ffmpegStartTime in
      Async.log info
        ("Done in " ++ BigInt_toString (Z.quot ffmpegDuration 1000000) ++ " ms") ;;
      Async.ret outputLines
  end.

End Detectors.

(** ** The network, the clock and the schedule cache

    The schedule module and the thumbnail module talk to the network and
    read the clock.  Their surroundings are a record of oracles: the n-th
    reading of [now()], the answer to the n-th [fetch], the [parseDate]
    helper and the printing of a number.  The state that a computation
    threads holds the two module variables of the schedule module, the
    number of clock readings and of requests made so far, and what was
    logged and requested. *)

Inductive loglevel := Debug | Info | Error.

Inductive note :=
| Note (l : loglevel) (message : string)
| Fetched (url : string)
| Recording (title : option string).

Module Raw.

(** One item of the schedule feed, as far as the module reads it. *)
Record Item := {
  title : option string;
  subtitle : option string;
  seriesId : option string;
  airingId : option string;
  description : option string;
  thumbnail : option string;
  content_clean : option string;
  pubDate : option string;
  endDate : option string
}.

Record Channel := { item : option (list Item) }.

Record Schedule := { channel : option Channel }.

End Raw.

(** What a [fetch] resolves with: the status and the readers of the
    body. *)
Record Response := {
  ok : bool;
  status : Z;
  statusText : string;
  text : outcome string;
  json : outcome (option Raw.Schedule);
  arrayBuffer : outcome string
}.

Record Host := {
  assetsUrl : string;
  scheduleUrl : string;
  safetyBuffer : Z;
  clock : nat -> Z;
  fetch : nat -> string -> outcome Response;
  parseDate : option string -> Date;
  (** Conversion of a number to text in a template literal: the text of
      the double nearest to the given rational *)
  print : Q -> string
}.

Record State := {
  scheduleData : option (list Programme);
  scheduleDataTimestamp : Z;
  readings : nat;
  requests : nat;
  notes : list note
}.

Definition initial_state : State :=
  {| scheduleData := None; scheduleDataTimestamp := 0;
     readings := 0; requests := 0; notes := [] |}.

Definition Task (A : Type) : Type := State -> outcome A * State.

Module Task.

Definition ret {A} (a : A) : Task A := fun st => (Resolved a, st).

Definition bind {A B} (m : Task A) (f : A -> Task B) : Task B :=
  fun st =>
    match m st with
    | (Resolved a, st') => f a st'
    | (Rejected e, st') => (Rejected e, st')
    end.

Definition throw {A} (e : string) : Task A := fun st => (Rejected e, st).

Definition try_catch {A} (m : Task A) (handler : string -> Task A) : Task A :=
  fun st =>
    match m st with
    | (Resolved a, st') => (Resolved a, st')
    | (Rejected e, st') => handler e st'
    end.

Definition lift {A} (o : outcome A) : Task A := fun st => (o, st).

Definition log (l : loglevel) (message : string) : Task unit :=
  fun st =>
    (Resolved tt,
     {| scheduleData := scheduleData st;
        scheduleDataTimestamp := scheduleDataTimestamp st;
        readings := readings st; requests := requests st;
        notes := notes st ++ [Note l message] |}).

Definition get : Task State := fun st => (Resolved st, st).

Definition set_cache (data : option (list Programme)) : Task unit :=
  fun st =>
    (Resolved tt,
     {| scheduleData := data;
        scheduleDataTimestamp := scheduleDataTimestamp st;
        readings := readings st; requests := requests st;
        notes := notes st |}).

Definition set_timestamp (t : Z) : Task unit :=
  fun st =>
    (Resolved tt,
     {| scheduleData := scheduleData st;
        scheduleDataTimestamp := t;
        readings := readings st; requests := requests st;
        notes := notes st |}).

End Task.

Declare Scope task_scope.
Delimit Scope task_scope with task.
Notation "x <- m ;; k" := (Task.bind m (fun x => k))
  (at level 61, m at next level, right associativity) : task_scope.
Notation "m ;; k" := (Task.bind m (fun _ => k))
  (at level 61, right associativity) : task_scope.

Definition SCHEDULE_BEGIN_OFFSET : Z := -2 * 60 * 60 * 1000.
Definition SCHEDULE_END_OFFSET : Z := 7 * 24 * 60 * 60 * 1000.
Definition MAX_CACHE_AGE : Z := 60 * 60 * 1000.

Definition quote : string := String (ascii_of_nat 34) EmptyString.

Definition not_quote (c : ascii) : bool := negb (nat_of_ascii c =? 34)%nat.

Definition API_KEY_PATTERN : Regex.Pattern string :=
  (Regex.lit ("window.nw_api_key=window.nw_api_key||" ++ quote) ;;
   apiKey <- Regex.plus not_quote ;;
   Regex.lit quote ;;
   Regex.ret apiKey)%pattern.

Definition FALLBACK_API_KEY : string := "EJfK8jdS57GqlupFgAfAAwr573q01y6k".

Section Network.

Variable host : Host.

Local Open Scope task_scope.

(** [now()]: the next reading of the clock. *)
Definition now : Task Z :=
  fun st =>
    (Resolved (clock host (readings st)),
     {| scheduleData := scheduleData st;
        scheduleDataTimestamp := scheduleDataTimestamp st;
        readings := S (readings st); requests := requests st;
        notes := notes st |}).

(** [fetch(url, ...)]: the answer to the next request. *)
Definition fetch_url (url : string) : Task Response :=
  fun st =>
    (fetch host (requests st) url,
     {| scheduleData := scheduleData st;
        scheduleDataTimestamp := scheduleDataTimestamp st;
        readings := readings st; requests := S (requests st);
        notes := notes st ++ [Fetched url] |}).

Definition getApiKey : Task string :=
  found <-
    Task.try_catch
      (res <- fetch_url (assetsUrl host ++ "/nhkworld/common/js/common.js") ;;
       text <- Task.lift (text res) ;;
       let apiKey := Regex.exec API_KEY_PATTERN text in
       if truthy_text apiKey
       then
         Task.log Debug ("Retrieved API key: " ++ JS.nullish apiKey "") ;;
         Task.ret apiKey
       else Task.ret None)
      (fun err =>
         Task.log Error "Failed to retrieve API" ;;
         Task.log Error err ;;
         Task.ret None) ;;
  match found with
  | Some apiKey => Task.ret apiKey
  | None =>
      Task.log Debug "Falling back to hardcoded API key" ;;
      Task.ret FALLBACK_API_KEY
  end.

Definition getScheduleForPeriod (apiKey : string) (startMillis endMillis : Z)
  : Task (option Raw.Schedule) :=
  res <-
    fetch_url
      (scheduleUrl host ++ "/nhkworld/epg/v7b/world/s"
       ++ print host (inject_Z startMillis)
       ++ "-e" ++ print host (inject_Z endMillis)
       ++ ".json?apikey=" ++ apiKey) ;;
  Task.lift (json res).

Definition programme_of_item (item : Raw.Item) : Programme :=
  {| title := Raw.title item;
     subtitle := Raw.subtitle item;
     seriesId := Raw.seriesId item;
     airingId := Raw.airingId item;
     description := Raw.description item;
     thumbnail := Raw.thumbnail item;
     content := Raw.content_clean item;
     startDate := Some (parseDate host (Raw.pubDate item));
     endDate := Some (parseDate host (Raw.endDate item)) |}.

Definition getSchedule : Task (list Programme) :=
  apiKey <- getApiKey ;;
  if String.eqb apiKey ""
  then Task.throw "Unable to retrieve API key"
  else
    t1 <- now ;;
    let start := t1 + SCHEDULE_BEGIN_OFFSET in
    t2 <- now ;;
    let end_ := t2 + SCHEDULE_END_OFFSET in
    rawSchedule <- getScheduleForPeriod apiKey start end_ ;;
    let items :=
      match rawSchedule with
      | Some raw =>
          match Raw.channel raw with
          | Some ch => Raw.item ch
          | None => None
          end
      | None => None
      end in
    match items with
    | Some items => Task.ret (map programme_of_item items)
    | None => Task.throw "Failed to retrieve schedule $(items)"
    end.

Definition getScheduleMemoized : Task (option (list Programme)) :=
  t <- now ;;
  st <- Task.get ;;
  let cacheAge := t - scheduleDataTimestamp st in
  if cacheAge <? MAX_CACHE_AGE
  then
    Task.log Debug
      ("Using cached schedule (" ++ print host (inject_Z cacheAge / 1000)
       ++ " seconds old)") ;;
    st <- Task.get ;;
    Task.ret (scheduleData st)
  else
    Task.try_catch
      (Task.log Debug "Retrieving schedule" ;;
       fresh <- getSchedule ;;
       Task.set_cache (Some fresh) ;;
       t' <- now ;;
       Task.set_timestamp t' ;;
       st <- Task.get ;;
       Task.ret (scheduleData st))
      (fun err =>
         Task.log Error "Failed to get schedule data" ;;
         Task.log Error err ;;
         st <- Task.get ;;
         match scheduleData st with
         | Some old =>
             Task.log Info
               ("Falling back to old cached version ("
                ++ print host (inject_Z cacheAge / 1000) ++ " seconds old)") ;;
             st <- Task.get ;;
             Task.ret (scheduleData st)
         | None => Task.throw err
         end).

(** The callback of [find] in [getCurrentProgramme]; reading the time of
    a missing date is a [TypeError]. *)
Definition is_current (currTime : Z) (p : Programme) : outcome bool :=
  match startDate p with
  | None => Rejected "TypeError"
  | Some s =>
      if JS.num_gtb (Some currTime) s
      then
        match endDate p with
        | None => Rejected "TypeError"
        | Some e => Resolved (JS.num_ltb (Some currTime) e)
        end
      else Resolved false
  end.

(** [Array.prototype.find] with that callback. *)
Fixpoint find_current (currTime : Z) (programmes : list Programme)
  : outcome (option Programme) :=
  match programmes with
  | [] => Resolved None
  | p :: rest =>
      match is_current currTime p with
      | Rejected e => Rejected e
      | Resolved true => Resolved (Some p)
      | Resolved false => find_current currTime rest
      end
  end.

Definition getCurrentProgramme : Task (option Programme) :=
  programmes <- getScheduleMemoized ;;
  t <- now ;;
  let currTime := t + safetyBuffer host in
  match programmes with
  | None => Task.throw "TypeError"
  | Some programmes => Task.lift (find_current currTime programmes)
  end.

(** [getThumbnail] of the thumbnail module (global [fetch]). *)
Definition getThumbnail (thumbnailUri : string) : Task (option string) :=
  let url := (assetsUrl host ++ thumbnailUri)%string in
  Task.log Info ("Retrieving thumbnail: " ++ url) ;;
  Task.try_catch
    (res <- fetch_url url ;;
     if negb (ok res)
     then
       Task.throw
         ("Failed to fetch thumbnail (status " ++ print host (inject_Z (status res))
          ++ " " ++ statusText res ++ ")")
     else
       arrayBuffer <- Task.lift (arrayBuffer res) ;;
       Task.ret (Some arrayBuffer))
    (fun err =>
       Task.log Error "Failed to get thumbnail" ;;
       Task.log Error err ;;
       Task.ret None).

(** [getThumbnail] of the other version of the thumbnail module
    (package node-fetch, [res.buffer()]). *)
Definition getThumbnail_buffer (thumbnailUri : string) : Task (option string) :=
  let url := (assetsUrl host ++ thumbnailUri)%string in
  Task.log Info ("Retrieving thumbnail: " ++ url) ;;
  Task.try_catch
    (res <- fetch_url url ;;
     buffer <- Task.lift (arrayBuffer res) ;;
     Task.ret (Some buffer))
    (fun err =>
       Task.log Error "Failed to get thumbnail" ;;
       Task.log Error err ;;
       Task.ret None).

End Network.

(** The test of the search: the time lies strictly between the start and
    the end of a programme; a comparison with an invalid date is false. *)
Definition encloses (currTime : Z) (p : Programme) : bool :=
  match startDate p, endDate p with
  | Some (Some s), Some (Some e) => (s <? currTime) && (currTime <? e)
  | _, _ => false
  end.

(** ** The entry module: recording what is desired *)

Record Recorder := {
  (** [config.minimumDuration] *)
  minimumDuration : Z;
  (** [micromatch.isMatch(title, config.matchPattern, { nocase: true })] *)
  isMatch : option string -> outcome bool;
  (** [recordingExists] and [record] of the storage and record modules *)
  recordingExists : Programme -> outcome bool;
  record : Programme -> outcome unit
}.

Definition time_of (d : option Date) : outcome JS.number :=
  match d with
  | Some t => Resolved t
  | None => Rejected "TypeError"
  end.

Section Entry.

Variable recorder : Recorder.

Local Open Scope task_scope.

Definition isDesiredProgramme (programme : Programme) : outcome bool :=
  match time_of (endDate programme) with
  | Rejected e => Rejected e
  | Resolved e =>
      match time_of (startDate programme) with
      | Rejected err => Rejected err
      | Resolved s =>
          let duration := JS.num_sub e s in
          match isMatch recorder (title programme) with
          | Rejected err => Rejected err
          | Resolved desiredTitle =>
              Resolved
                (desiredTitle
                 && JS.num_gtb duration (Some (minimumDuration recorder)))
          end
      end
  end.

Definition recordIfDesired (programme : Programme) : Task unit :=
  desired <- Task.lift (isDesiredProgramme programme) ;;
  Task.log Info
    (JS.nullish (title programme) "undefined" ++ " is "
     ++ (if desired then "" else "not ") ++ "desired") ;;
  if negb desired then Task.ret tt
  else
    existing <- Task.lift (recordingExists recorder programme) ;;
    if existing
    then
      Task.log Info
        ("Recording already exists for "
         ++ JS.nullish (title programme) "undefined")
    else
      (fun st =>
         (record recorder programme,
          {| scheduleData := scheduleData st;
             scheduleDataTimestamp := scheduleDataTimestamp st;
             readings := readings st; requests := requests st;
             notes := notes st ++ [Recording (title programme)] |})).

End Entry.


(** ** States and hosts used to state and to instantiate the properties *)

(** The state in which [getScheduleMemoized] calls [getSchedule]: the
    clock was read once and the retrieval was announced. *)
Definition refreshing (st : State) : State :=
  {| scheduleData := scheduleData st;
     scheduleDataTimestamp := scheduleDataTimestamp st;
     readings := S (readings st); requests := requests st;
     notes := notes st ++ [Note Debug "Retrieving schedule"] |}.

(** The items of a schedule answer: [rawSchedule?.channel?.item]. *)
Definition items_of (rawSchedule : option Raw.Schedule)
  : option (list Raw.Item) :=
  match rawSchedule with
  | Some raw =>
      match Raw.channel raw with
      | Some ch => Raw.item ch
      | None => None
      end
  | None => None
  end.

(** The address that [getSchedule] requests for a key and two clock
    readings. *)
Definition schedule_address (host : Host) (apiKey : string) (t1 t2 : Z)
  : string :=
  scheduleUrl host ++ "/nhkworld/epg/v7b/world/s"
  ++ print host (inject_Z (t1 + SCHEDULE_BEGIN_OFFSET))
  ++ "-e" ++ print host (inject_Z (t2 + SCHEDULE_END_OFFSET))
  ++ ".json?apikey=" ++ apiKey.

Definition failed_response : Response :=
  {| ok := false; status := 404; statusText := "Not Found";
     text := Resolved "not found"; json := Rejected "SyntaxError";
     arrayBuffer := Resolved "not found" |}.

Definition example_item : Raw.Item :=
  {| Raw.title := Some "Newsline"; Raw.subtitle := None;
     Raw.seriesId := Some "1001"; Raw.airingId := Some "000";
     Raw.description := Some "News"; Raw.thumbnail := Some "/thumb.jpg";
     Raw.content_clean := None;
     Raw.pubDate := Some "1700000000000"; Raw.endDate := Some "1700001800000" |}.

Definition schedule_response : Response :=
  {| ok := true; status := 200; statusText := "OK";
     text := Resolved "{}";
     json := Resolved
               (Some {| Raw.channel :=
                          Some {| Raw.item := Some [example_item] |} |});
     arrayBuffer := Resolved "bytes" |}.

(** A host whose first request fails, whose second request delivers a
    schedule of one item, and whose clock advances by one second per
    reading from a given start. *)
Definition example_host (t0 : Z) : Host :=
  {| assetsUrl := "https://assets";
     scheduleUrl := "https://schedule";
     safetyBuffer := 40000;
     clock := fun n => t0 + 1000 * Z.of_nat n;
     fetch := fun n _ =>
                match n with
                | O => Rejected "network down"
                | 1%nat => Resolved schedule_response
                | _ => Resolved failed_response
                end;
     parseDate := fun s => match s with
                           | Some t => JS.parseInt t
                           | None => None
                           end;
     print := decimal |}.

Definition example_programme (s e : Date) : Programme :=
  {| title := Some "Newsline"; subtitle := None; seriesId := None;
     airingId := None; description := None; thumbnail := None;
     content := None; startDate := Some s; endDate := Some e |}.

Definition example_recorder : Recorder :=
  {| minimumDuration := 600000;
     isMatch := fun _ => Resolved true;
     recordingExists := fun _ => Resolved false;
     record := fun _ => Resolved tt |}.

(** A state with a schedule in the cache, taken long ago, and one request
    already made. *)
Definition stale_state : State :=
  {| scheduleData := Some [example_programme (Some 0) (Some 1800000)];
     scheduleDataTimestamp := 0;
     readings := 0; requests := 1; notes := [] |}.


(* ================================================================== *)
(** * Part II: properties                                              *)
(* ================================================================== *)

(** ** Rounding to the nearest double *)

Section Binary64_facts.
Import Binary64.
Local Open Scope Q_scope.

Lemma pow2_pos (e : Z) : 0 < pow2 e.
Proof. apply Qpower_0_lt. reflexivity. Qed.

Lemma pow2_plus (a b : Z) : pow2 (a + b) == pow2 a * pow2 b.
Proof. apply Qpower_plus. discriminate. Qed.

Lemma pow2_le (a b : Z) : (a <= b)%Z -> pow2 a <= pow2 b.
Proof. intros H. apply Qpower_le_compat_l; [exact H|discriminate]. Qed.

Lemma pow2_lt_inv (a b : Z) : pow2 a < pow2 b -> (a < b)%Z.
Proof. intros H. apply (Qpower_lt_compat_l_inv 2); [exact H|reflexivity]. Qed.

Lemma pow2_Z (n : Z) : (0 <= n)%Z -> pow2 n == inject_Z (2 ^ n).
Proof. intros H. symmetry. apply (Zpower_Qpower 2 n H). Qed.

Lemma exponent_spec (x : Q) :
  0 < x -> pow2 (exponent x) <= x /\ x < pow2 (exponent x + 1).
Proof.
  intros Hx. destruct x as [n d].
  assert (Hn : (0 < n)%Z) by (unfold Qlt in Hx; simpl in Hx; lia).
  unfold exponent. cbn [Qnum Qden].
  pose proof (Z.log2_nonneg n) as Hln.
  pose proof (Z.log2_nonneg (Z.pos d)) as Hld.
  destruct (Z.log2_spec n Hn) as [Hn1 Hn2].
  destruct (Z.log2_spec (Z.pos d) (Pos2Z.is_pos d)) as [Hd1 Hd2].
  set (ln := Z.log2 n) in *. set (ld := Z.log2 (Z.pos d)) in *.
  assert (HN1 : pow2 ln <= inject_Z n)
    by (rewrite pow2_Z by exact Hln; rewrite <- Zle_Qle; exact Hn1).
  assert (HN2 : inject_Z n < pow2 (ln + 1))
    by (rewrite pow2_Z by lia; rewrite <- Zlt_Qlt; exact Hn2).
  assert (HD1 : pow2 ld <= inject_Z (Z.pos d))
    by (rewrite pow2_Z by exact Hld; rewrite <- Zle_Qle; exact Hd1).
  assert (HD2 : inject_Z (Z.pos d) < pow2 (ld + 1))
    by (rewrite pow2_Z by lia; rewrite <- Zlt_Qlt; exact Hd2).
  assert (Hxd : (n # d) * inject_Z (Z.pos d) == inject_Z n)
    by (unfold Qeq, Qmult, inject_Z; simpl; rewrite Pos.mul_1_r; ring).
  assert (Hup : pow2 (ln - ld + 1) * pow2 ld == pow2 (ln + 1))
    by (rewrite <- pow2_plus; replace (ln - ld + 1 + ld)%Z with (ln + 1)%Z by lia;
        reflexivity).
  assert (Hlo : pow2 (ln - ld - 1) * pow2 (ld + 1) == pow2 ln)
    by (rewrite <- pow2_plus; replace (ln - ld - 1 + (ld + 1))%Z with ln by lia;
        reflexivity).
  pose proof (pow2_pos (ln - ld + 1)) as P1.
  pose proof (pow2_pos (ln - ld - 1)) as P2.
  pose proof (pow2_pos ld) as P3.
  pose proof (pow2_pos (ld + 1)) as P4.
  generalize dependent (n # d). intros x Hx E0.
  revert E0.
  generalize dependent (inject_Z (Z.pos d)). intros D HD1 HD2.
  generalize dependent (inject_Z n). intros N HN1 HN2 Hxd.
  destruct (Qle_bool (pow2 (ln - ld)) x) eqn:E.
  - apply Qle_bool_iff in E. split; [exact E|].
    revert Hup P1 P3 HN2 HD1 Hxd.
    generalize (pow2 (ln - ld + 1)) (pow2 ld) (pow2 (ln + 1)).
    intros a b c; intros. nra.
  - assert (E' : x < pow2 (ln - ld)).
    { apply Qnot_le_lt. intros Hc. apply Qle_bool_iff in Hc. congruence. }
    replace (ln - ld - 1 + 1)%Z with (ln - ld)%Z by lia.
    split; [|exact E'].
    revert Hlo P2 P4 HN1 HD2 Hxd.
    generalize (pow2 (ln - ld - 1)) (pow2 (ld + 1)) (pow2 ln).
    intros a b c; intros. nra.
Qed.

Lemma exponent_unique (x : Q) (k : Z) :
  0 < x -> pow2 k <= x -> x < pow2 (k + 1) -> exponent x = k.
Proof.
  intros Hx Hlo Hhi. destruct (exponent_spec x Hx) as [Elo Ehi].
  assert (H1 : (k < exponent x + 1)%Z)
    by (apply pow2_lt_inv; eapply Qle_lt_trans; eassumption).
  assert (H2 : (exponent x < k + 1)%Z)
    by (apply pow2_lt_inv; eapply Qle_lt_trans; eassumption).
  lia.
Qed.

Lemma exponent_monotone (x y : Q) :
  0 < x -> x <= y -> (exponent x <= exponent y)%Z.
Proof.
  intros Hx Hxy.
  assert (Hy : 0 < y) by (eapply Qlt_le_trans; eassumption).
  destruct (exponent_spec x Hx) as [Xlo _].
  destruct (exponent_spec y Hy) as [_ Yhi].
  assert (H : (exponent x < exponent y + 1)%Z).
  { apply pow2_lt_inv. eapply Qle_lt_trans; [exact Xlo|].
    eapply Qle_lt_trans; eassumption. }
  lia.
Qed.

Lemma nearest_even_cases (x : Q) :
  let f := Qfloor x in
  (x - inject_Z f < 1 # 2 /\ nearest_even x = f)
  \/ (1 # 2 < x - inject_Z f /\ nearest_even x = (f + 1)%Z)
  \/ (x - inject_Z f == 1 # 2
      /\ nearest_even x = if Z.even f then f else (f + 1)%Z).
Proof.
  cbv zeta. unfold nearest_even.
  destruct (x - inject_Z (Qfloor x) ?= 1 # 2) eqn:E.
  - right. right. split; [apply Qeq_alt; exact E|reflexivity].
  - left. split; [apply Qlt_alt; exact E|reflexivity].
  - right. left. split; [apply Qgt_alt in E; exact E|reflexivity].
Qed.

Lemma Qfloor_bounds (x : Q) :
  inject_Z (Qfloor x) <= x /\ x < inject_Z (Qfloor x) + 1.
Proof.
  split; [apply Qfloor_le|].
  pose proof (Qlt_floor x) as H. rewrite inject_Z_plus in H. exact H.
Qed.

Lemma nearest_even_monotone (x y : Q) :
  x <= y -> (nearest_even x <= nearest_even y)%Z.
Proof.
  intros Hxy.
  pose proof (Qfloor_resp_le x y Hxy) as Hf.
  destruct (Qfloor_bounds x) as [X1 X2]. destruct (Qfloor_bounds y) as [Y1 Y2].
  destruct (Z.eq_dec (Qfloor x) (Qfloor y)) as [E|N].
  - destruct (nearest_even_cases x) as [[Hx ->]|[[Hx ->]|[Hx ->]]];
      destruct (nearest_even_cases y) as [[Hy ->]|[[Hy ->]|[Hy ->]]];
      rewrite <- ?E in *; try lia;
      try (destruct (Z.even (Qfloor x)); lia);
      exfalso; lra.
  - assert (Hlt : (Qfloor x + 1 <= Qfloor y)%Z) by lia.
    destruct (nearest_even_cases x) as [[_ ->]|[[_ ->]|[_ ->]]];
      destruct (nearest_even_cases y) as [[_ ->]|[[_ ->]|[_ ->]]];
      try destruct (Z.even (Qfloor x)); try destruct (Z.even (Qfloor y)); lia.
Qed.

Lemma nearest_even_Z (x : Q) (n : Z) : x == inject_Z n -> nearest_even x = n.
Proof.
  intros H.
  assert (Hf : Qfloor x = n) by (rewrite H; apply Qfloor_Z).
  destruct (nearest_even_cases x) as [[_ ->]|[[Hx _]|[Hx _]]];
    [exact Hf| |]; rewrite Hf, H in Hx; exfalso; lra.
Qed.

Lemma nearest_even_ge (x : Q) (n : Z) :
  inject_Z n <= x -> (n <= nearest_even x)%Z.
Proof.
  intros H. rewrite <- (nearest_even_Z (inject_Z n) n) at 1 by reflexivity.
  apply nearest_even_monotone. exact H.
Qed.

Lemma nearest_even_le (x : Q) (n : Z) :
  x <= inject_Z n -> (nearest_even x <= n)%Z.
Proof.
  intros H. rewrite <- (nearest_even_Z (inject_Z n) n) at 1 by reflexivity.
  apply nearest_even_monotone. exact H.
Qed.

Lemma quantum_bounds (x : Q) :
  (exponent x - 52 <= quantum x)%Z /\ (-1074 <= quantum x)%Z
  /\ (quantum x = -1074 \/ quantum x = exponent x - 52)%Z.
Proof. unfold quantum. lia. Qed.

(** The significand of a positive number is at most [2^53], and at least
    [2^52] unless the number is subnormal. *)
Lemma significand_bounds (x : Q) :
  0 < x ->
  let m := nearest_even (x / pow2 (quantum x)) in
  (0 <= m <= 2 ^ 53)%Z
  /\ (quantum x = -1074 \/ 2 ^ 52 <= m)%Z.
Proof.
  intros Hx. cbv zeta.
  destruct (exponent_spec x Hx) as [Elo Ehi].
  destruct (quantum_bounds x) as [Hu1 [Hu2 Hu3]].
  pose proof (pow2_pos (quantum x)) as Hp.
  split; [split|].
  - apply nearest_even_ge. change (inject_Z 0) with 0.
    apply Qle_shift_div_l; [exact Hp|]. lra.
  - apply nearest_even_le. apply Qle_shift_div_r; [exact Hp|].
    rewrite <- (pow2_Z 53) by lia. rewrite <- pow2_plus.
    apply Qlt_le_weak. eapply Qlt_le_trans; [exact Ehi|].
    apply pow2_le. lia.
  - destruct Hu3 as [Hu3|Hu3]; [left; exact Hu3|right].
    apply nearest_even_ge. apply Qle_shift_div_l; [exact Hp|].
    rewrite <- (pow2_Z 52) by lia. rewrite <- pow2_plus.
    eapply Qle_trans; [|exact Elo]. apply pow2_le. lia.
Qed.

Lemma round_pos_nonneg (x : Q) : 0 < x -> 0 <= round_pos x.
Proof.
  intros Hx. unfold round_pos.
  destruct (significand_bounds x Hx) as [[Hm _] _].
  pose proof (pow2_pos (quantum x)) as Hp.
  apply Qmult_le_0_compat; [|lra].
  change 0 with (inject_Z 0). rewrite <- Zle_Qle. exact Hm.
Qed.

Lemma round_pos_monotone (x y : Q) :
  0 < x -> x <= y -> round_pos x <= round_pos y.
Proof.
  intros Hx Hxy.
  assert (Hy : 0 < y) by (eapply Qlt_le_trans; eassumption).
  pose proof (exponent_monotone x y Hx Hxy) as He.
  destruct (quantum_bounds x) as [Hx1 [Hx2 Hx3]].
  destruct (quantum_bounds y) as [Hy1 [Hy2 Hy3]].
  destruct (significand_bounds x Hx) as [[_ Hmx] _].
  destruct (significand_bounds y Hy) as [_ Hmy].
  unfold round_pos.
  pose proof (pow2_pos (quantum x)) as Hpx.
  pose proof (pow2_pos (quantum y)) as Hpy.
  destruct (Z.eq_dec (quantum x) (quantum y)) as [E|N].
  - rewrite <- E in *.
    apply Qmult_le_compat_r; [|lra].
    rewrite <- Zle_Qle. apply nearest_even_monotone.
    apply Qmult_le_compat_r; [exact Hxy|].
    apply Qlt_le_weak, Qinv_lt_0_compat. exact Hpx.
  - assert (Hlt : (quantum x + 1 <= quantum y)%Z) by (unfold quantum in *; lia).
    destruct Hmy as [Hmy|Hmy]; [lia|].
    apply Qle_trans with (pow2 (quantum y + 52)).
    + apply Qle_trans with (inject_Z (2 ^ 53) * pow2 (quantum x)).
      * apply Qmult_le_compat_r; [|lra]. rewrite <- Zle_Qle. exact Hmx.
      * rewrite <- (pow2_Z 53) by lia. rewrite <- pow2_plus.
        apply pow2_le. lia.
    + rewrite Z.add_comm, pow2_plus, (pow2_Z 52) by lia.
      apply Qmult_le_compat_r; [|lra]. rewrite <- Zle_Qle. exact Hmy.
Qed.

Lemma round_monotone (x y : Q) : x <= y -> round x <= round y.
Proof.
  intros Hxy. unfold round.
  destruct (Qcompare_spec x 0) as [Ex|Ex|Ex];
    destruct (Qcompare_spec y 0) as [Ey|Ey|Ey];
    try (exfalso; lra).
  - apply Qle_refl.
  - apply round_pos_nonneg. exact Ey.
  - assert (H : 0 <= round_pos (- x)) by (apply round_pos_nonneg; lra). lra.
  - assert (H : round_pos (- y) <= round_pos (- x))
      by (apply round_pos_monotone; lra).
    lra.
  - assert (H1 : 0 <= round_pos (- x)) by (apply round_pos_nonneg; lra).
    assert (H2 : 0 <= round_pos y) by (apply round_pos_nonneg; lra).
    lra.
  - apply round_pos_monotone; [exact Ex|exact Hxy].
Qed.

Lemma round_nonneg (x : Q) : 0 <= x -> 0 <= round x.
Proof.
  intros H. change 0 with (round 0) at 1. apply round_monotone. exact H.
Qed.

Lemma round_pos_comp (x y : Q) : 0 < x -> x == y -> round_pos x == round_pos y.
Proof.
  intros Hx Hxy. apply Qle_antisym; apply round_pos_monotone; lra.
Qed.

Lemma round_pos_exact (m u : Z) :
  (0 < m <= 2 ^ 53)%Z -> (-1074 <= u)%Z -> (u = -1074 \/ 2 ^ 52 <= m)%Z ->
  round_pos (inject_Z m * pow2 u) == inject_Z m * pow2 u.
Proof.
  intros [Hm0 Hm] Hu Hnorm.
  pose proof (pow2_pos u) as Hp.
  assert (HmQ : 0 < inject_Z m)
    by (change 0 with (inject_Z 0); rewrite <- Zlt_Qlt; exact Hm0).
  assert (Ha : 0 < inject_Z m * pow2 u) by (apply Qmult_lt_0_compat; assumption).
  destruct (Z.eq_dec m (2 ^ 53)) as [E|N].
  - assert (Hq : quantum (inject_Z m * pow2 u) = (u + 1)%Z).
    { unfold quantum.
      rewrite (exponent_unique _ (u + 53)); [lia|exact Ha| |].
      - rewrite E, Z.add_comm, pow2_plus, (pow2_Z 53) by lia. apply Qle_refl.
      - rewrite E. replace (u + 53 + 1)%Z with (54 + u)%Z by lia.
        rewrite pow2_plus, (pow2_Z 54) by lia.
        apply Qmult_lt_compat_r; [exact Hp|reflexivity]. }
    unfold round_pos. rewrite Hq.
    assert (Hs : pow2 (u + 1) == pow2 u * 2)
      by (rewrite pow2_plus; reflexivity).
    rewrite (nearest_even_Z _ (2 ^ 52)).
    + rewrite Hs, E. change (inject_Z (2 ^ 53)) with (inject_Z (2 ^ 52) * 2).
      ring.
    + rewrite Hs, E. change (inject_Z (2 ^ 53)) with (inject_Z (2 ^ 52) * 2).
      field. lra.
  - assert (Hlt : (m < 2 ^ 53)%Z) by lia.
    pose proof (Z.log2_nonneg m) as Hk0.
    destruct (Z.log2_spec m Hm0) as [Hk1 Hk2].
    assert (Hk : (Z.log2 m <= 52)%Z).
    { apply Z.lt_succ_r. apply Z.log2_lt_pow2; [exact Hm0|exact Hlt]. }
    assert (Hq : quantum (inject_Z m * pow2 u) = u).
    { unfold quantum.
      rewrite (exponent_unique _ (Z.log2 m + u)); [|exact Ha| |].
      - destruct Hnorm as [->|Hnorm]; [lia|].
        assert (52 <= Z.log2 m)%Z by (apply Z.log2_le_pow2; lia). lia.
      - rewrite pow2_plus, (pow2_Z (Z.log2 m)) by exact Hk0.
        apply Qmult_le_compat_r; [|lra]. rewrite <- Zle_Qle. exact Hk1.
      - replace (Z.log2 m + u + 1)%Z with (Z.succ (Z.log2 m) + u)%Z by lia.
        rewrite pow2_plus, (pow2_Z (Z.succ (Z.log2 m))) by lia.
        apply Qmult_lt_compat_r; [exact Hp|]. rewrite <- Zlt_Qlt. exact Hk2. }
    unfold round_pos. rewrite Hq.
    rewrite (nearest_even_Z _ m); [reflexivity|].
    field. lra.
Qed.

Lemma round_pos_idempotent (x : Q) :
  0 < x -> 0 < round_pos x -> round_pos (round_pos x) == round_pos x.
Proof.
  intros Hx Hr.
  destruct (significand_bounds x Hx) as [[Hm0 Hm] Hnorm].
  destruct (quantum_bounds x) as [_ [Hu _]].
  unfold round_pos at 2 3. unfold round_pos in Hr.
  apply round_pos_exact; [split; [|exact Hm]|exact Hu|exact Hnorm].
  pose proof (pow2_pos (quantum x)) as Hp.
  destruct (Z.eq_dec (nearest_even (x / pow2 (quantum x))) 0) as [E|N]; [|lia].
  rewrite E in Hr. change (inject_Z 0) with 0 in Hr.
  rewrite Qmult_0_l in Hr. exfalso. lra.
Qed.

Lemma round_idempotent (x : Q) : round (round x) == round x.
Proof.
  unfold round at 2 3.
  destruct (Qcompare_spec x 0) as [Ex|Ex|Ex].
  - reflexivity.
  - assert (Hx : 0 < - x) by lra.
    pose proof (round_pos_nonneg _ Hx) as Hr.
    unfold round.
    destruct (Qcompare_spec (- round_pos (- x)) 0) as [E|E|E].
    + lra.
    + assert (Hpos : 0 < round_pos (- x)) by lra.
      rewrite <- (round_pos_idempotent _ Hx Hpos) at 2.
      apply Qopp_comp. apply round_pos_comp; [lra|ring].
    + exfalso. lra.
  - pose proof (round_pos_nonneg _ Ex) as Hr.
    unfold round.
    destruct (Qcompare_spec (round_pos x) 0) as [E|E|E].
    + lra.
    + exfalso. lra.
    + apply round_pos_idempotent; assumption.
Qed.

End Binary64_facts.

(** ** Parsing of silences *)

Lemma findSilences_cons (line : string) (lines : list string) :
  findSilences (line :: lines) =
  match Regex.exec SILENCEDETECT_FILTER_OUTPUT_PATTERN line with
  | Some g => silence_of_groups g :: findSilences lines
  | None => findSilences lines
  end.
Proof.
  unfold findSilences. simpl.
  destruct (Regex.exec SILENCEDETECT_FILTER_OUTPUT_PATTERN line); reflexivity.
Qed.

Lemma Math_round_monotone (x y : Q) :
  (x <= y)%Q -> JS.Math_round x <= JS.Math_round y.
Proof.
  intros H. unfold JS.Math_round. apply Qfloor_resp_le. lra.
Qed.

Lemma span_digits_all (s : string) :
  forall acc, 0 <= acc -> 0 <= JS.digits_value acc (fst (JS.span_digits s)).
Proof.
  induction s as [|c s IH]; intros acc Hacc; [exact Hacc|].
  cbn [JS.span_digits].
  destruct (JS.is_digit c) eqn:Hc; [|exact Hacc].
  destruct (JS.span_digits s) as [d rest].
  cbn [fst JS.digits_value] in *.
  apply IH. unfold JS.is_digit in Hc. unfold JS.digit_value.
  apply andb_true_iff in Hc. destruct Hc as [Hc _].
  apply Nat.leb_le in Hc. lia.
Qed.

Lemma digits_value_app (a b : string) :
  forall acc, JS.digits_value acc (a ++ b)%string
              = JS.digits_value (JS.digits_value acc a) b.
Proof.
  induction a as [|c a IH]; intros acc; simpl; [reflexivity|apply IH].
Qed.

Lemma decimal_prefix_nonneg (s : string) (q : Q) :
  JS.decimal_prefix s = Some q -> (0 <= q)%Q.
Proof.
  unfold JS.decimal_prefix.
  pose proof (span_digits_all s 0 (Z.le_refl 0)) as Hip.
  destruct (JS.span_digits s) as [ip r]. simpl in Hip.
  assert (Hint : forall q',
             match ip with
             | EmptyString => None
             | String _ _ => Some (inject_Z (JS.digits_value 0 ip))
             end = Some q' -> (0 <= q')%Q).
  { intros q' H. destruct ip; [discriminate|]. injection H as <-.
    unfold Qle, inject_Z. cbn [Qnum Qden]. rewrite !Z.mul_1_r. exact Hip. }
  destruct r as [|c r']; [apply Hint|].
  destruct (Ascii.eqb c "."); [|apply Hint].
  pose proof (span_digits_all r' (JS.digits_value 0 ip) Hip) as Hfp.
  destruct (JS.span_digits r') as [fp rest]. simpl in Hfp.
  destruct fp as [|c' fp']; [apply Hint|].
  intros H. injection H as <-.
  rewrite digits_value_app. unfold Qle. cbn [Qnum Qden]. lia.
Qed.

Lemma parseFloat_nonneg (s : string) (q : Q) :
  JS.parseFloat s = Some q -> (0 <= q)%Q.
Proof.
  unfold JS.parseFloat.
  destruct (JS.decimal_prefix s) as [x|] eqn:E; [|discriminate].
  intros H. injection H as <-.
  apply round_nonneg. exact (decimal_prefix_nonneg s x E).
Qed.

(** What [parseFloat] returns is a double. *)
Lemma parseFloat_double (s : string) (q : Q) :
  JS.parseFloat s = Some q -> (Binary64.round q == q)%Q.
Proof.
  unfold JS.parseFloat.
  destruct (JS.decimal_prefix s) as [x|]; [|discriminate].
  intros H. injection H as <-. apply round_idempotent.
Qed.

Lemma millis_ordered (e d : Q) :
  (Binary64.round e == e)%Q -> (0 <= d)%Q ->
  JS.Math_round (Binary64.mul (Binary64.sub e d) 1000)
  <= JS.Math_round (Binary64.mul e 1000).
Proof.
  intros He Hd.
  assert (Hsub : (Binary64.sub e d <= e)%Q).
  { unfold Binary64.sub. apply Qle_trans with (Binary64.round e).
    - apply round_monotone. lra.
    - rewrite He. apply Qle_refl. }
  apply Math_round_monotone. unfold Binary64.mul. apply round_monotone. lra.
Qed.

Lemma silence_of_groups_ordered (g : SilenceGroups) (s e : Z) :
  startTime (silence_of_groups g) = Some s ->
  endTime (silence_of_groups g) = Some e ->
  s <= e.
Proof.
  unfold silence_of_groups, seconds_to_millis. simpl.
  destruct (JS.parseFloat (g_endTime g)) as [qe|] eqn:He; [|discriminate].
  destruct (JS.parseFloat (g_duration g)) as [qd|] eqn:Hd; [|discriminate].
  simpl. intros Hs Ht. injection Hs as <-. injection Ht as <-.
  apply millis_ordered;
    [exact (parseFloat_double _ _ He)|exact (parseFloat_nonneg _ _ Hd)].
Qed.

(** What the pattern matcher does on a text built from its pieces. *)

Lemma string_app_assoc (a b c : string) :
  ((a ++ b) ++ c = a ++ (b ++ c))%string.
Proof.
  induction a as [|x a IH]; [reflexivity|].
  cbn [String.append]. rewrite IH. reflexivity.
Qed.

Lemma lit_first (l s rest : string) :
  Regex.strip_prefix l s = Some rest -> hd_error (Regex.lit l s) = Some (tt, rest).
Proof. intros H. unfold Regex.lit. rewrite H. reflexivity. Qed.

Lemma plus_stops (cls : ascii -> bool) (s : string) :
  starts_in cls s = false -> Regex.plus cls s = [].
Proof.
  destruct s as [|c r]; [reflexivity|].
  cbn [starts_in Regex.plus]. intros ->. reflexivity.
Qed.

Lemma plus_first (cls : ascii -> bool) (m s : string) :
  m <> EmptyString -> all_chars cls m = true -> starts_in cls s = false ->
  hd_error (Regex.plus cls (m ++ s)) = Some (m, s).
Proof.
  induction m as [|c m IH]; intros Hne Hall Hs; [contradiction|].
  cbn [all_chars] in Hall. apply andb_true_iff in Hall.
  destruct Hall as [Hc Hall].
  cbn [String.append Regex.plus]. rewrite Hc.
  destruct m as [|c' m'].
  - cbn [String.append]. rewrite (plus_stops cls s Hs). reflexivity.
  - specialize (IH ltac:(discriminate) Hall Hs).
    destruct (Regex.plus cls (String c' m' ++ s)) as [|[m1 r1] tl];
      [discriminate|].
    injection IH as -> ->. reflexivity.
Qed.

Lemma bind_first {A B} (p : Regex.Pattern A) (f : A -> Regex.Pattern B)
    (s : string) (a : A) (r : string) (x : B * string) :
  hd_error (p s) = Some (a, r) -> hd_error (f a r) = Some x ->
  hd_error (Regex.bind p f s) = Some x.
Proof.
  unfold Regex.bind. destruct (p s) as [|[a' r'] tl]; [discriminate|].
  intros H. injection H as -> ->. cbn [flat_map].
  destruct (f a r) as [|y tl']; [discriminate|].
  intros H. exact H.
Qed.

Lemma exec_first {A} (p : Regex.Pattern A) (s : string) (a : A) (r : string) :
  hd_error (p s) = Some (a, r) -> Regex.exec p s = Some a.
Proof.
  intros H.
  destruct s as [|c s']; cbn [Regex.exec];
    (destruct (p _) as [|[a' r'] tl]; [discriminate|]);
    injection H as -> _; reflexivity.
Qed.

Lemma silence_line_groups (address silence_end silence_duration rest : string) :
  address <> EmptyString -> all_chars JS.is_word address = true ->
  silence_end <> EmptyString ->
  all_chars JS.is_digit_or_dot silence_end = true ->
  silence_duration <> EmptyString ->
  all_chars JS.is_digit_or_dot silence_duration = true ->
  starts_in JS.is_digit_or_dot rest = false ->
  Regex.exec SILENCEDETECT_FILTER_OUTPUT_PATTERN
    (silence_line address silence_end silence_duration ++ rest)%string
  = Some {| g_endTime := silence_end; g_duration := silence_duration |}.
Proof.
  intros Ha1 Ha2 He1 He2 Hd1 Hd2 Hrest.
  unfold silence_line. rewrite !string_app_assoc.
  eapply exec_first. unfold SILENCEDETECT_FILTER_OUTPUT_PATTERN.
  eapply bind_first; [apply lit_first; reflexivity|].
  eapply bind_first;
    [apply (plus_first JS.is_word address); [exact Ha1|exact Ha2|reflexivity]|].
  eapply bind_first; [apply lit_first; reflexivity|].
  eapply bind_first; [apply lit_first; reflexivity|].
  eapply bind_first; [apply lit_first; reflexivity|].
  eapply bind_first;
    [apply (plus_first JS.is_digit_or_dot silence_end);
       [exact He1|exact He2|reflexivity]|].
  eapply bind_first; [apply lit_first; reflexivity|].
  eapply bind_first; [apply lit_first; reflexivity|].
  eapply bind_first; [apply lit_first; reflexivity|].
  eapply bind_first;
    [apply (plus_first JS.is_digit_or_dot silence_duration);
       [exact Hd1|exact Hd2|exact Hrest]|].
  reflexivity.
Qed.

Lemma no_bracket_no_silence (line : string) :
  occurs "[" line = false ->
  Regex.exec SILENCEDETECT_FILTER_OUTPUT_PATTERN line = None.
Proof.
  induction line as [|c line IH]; intros H.
  - reflexivity.
  - cbn [occurs] in H. apply orb_false_iff in H. destruct H as [Hc Hline].
    cbn [Regex.exec].
    assert (E : SILENCEDETECT_FILTER_OUTPUT_PATTERN (String c line) = []).
    { unfold SILENCEDETECT_FILTER_OUTPUT_PATTERN, Regex.bind at 1, Regex.lit.
      cbn [Regex.strip_prefix]. rewrite Hc. reflexivity. }
    rewrite E. exact (IH Hline).
Qed.

(** C7.  [findSilences] maps each line that matches the silencedetect
    pattern to the silence with [endTime = round(silence_end * 1000)] and
    [startTime = round((silence_end - silence_duration) * 1000)] and skips
    the other lines, where the two numbers are the doubles that
    [parseFloat] returns for the two captured texts and the subtraction
    and the multiplication are those of doubles.  A line that the engine
    prints for a silence matches, with its two numbers as the captured
    texts; a line without an opening bracket does not.  The line with
    [silence_end: 10.500] and [silence_duration: 2.000] gives
    [{startTime: 8500, endTime: 10500}]; and whenever the parsed duration
    is non-negative (it always is), [startTime <= endTime].  The rounding
    of the doubles shows in the result: [silence_end: 64.5645] gives the
    end time 64564, the product being the double just below 64564.5. *)
Theorem findSilences_spec :
  findSilences [] = []
  /\ (forall line lines,
        findSilences (line :: lines) =
        match Regex.exec SILENCEDETECT_FILTER_OUTPUT_PATTERN line with
        | Some g =>
            {| startTime :=
                 match JS.parseFloat (g_endTime g), JS.parseFloat (g_duration g) with
                 | Some e, Some d =>
                     Some (JS.Math_round
                             (Binary64.mul (Binary64.sub e d) 1000))
                 | _, _ => None
                 end;
               endTime :=
                 match JS.parseFloat (g_endTime g) with
                 | Some e => Some (JS.Math_round (Binary64.mul e 1000))
                 | None => None
                 end |} :: findSilences lines
        | None => findSilences lines
        end)
  /\ (forall address silence_end silence_duration rest lines,
        address <> EmptyString -> all_chars JS.is_word address = true ->
        silence_end <> EmptyString ->
        all_chars JS.is_digit_or_dot silence_end = true ->
        silence_duration <> EmptyString ->
        all_chars JS.is_digit_or_dot silence_duration = true ->
        starts_in JS.is_digit_or_dot rest = false ->
        findSilences
          ((silence_line address silence_end silence_duration ++ rest)%string
           :: lines)
        = {| startTime :=
               match JS.parseFloat silence_end, JS.parseFloat silence_duration with
               | Some e, Some d =>
                   Some (JS.Math_round (Binary64.mul (Binary64.sub e d) 1000))
               | _, _ => None
               end;
             endTime :=
               match JS.parseFloat silence_end with
               | Some e => Some (JS.Math_round (Binary64.mul e 1000))
               | None => None
               end |} :: findSilences lines)
  /\ (forall line lines,
        occurs "[" line = false ->
        findSilences (line :: lines) = findSilences lines)
  /\ findSilences
       ["[silencedetect @ 0x55d0c8] silence_end: 10.500 | silence_duration: 2.000"]
     = [{| startTime := Some 8500; endTime := Some 10500 |}]
  /\ findSilences
       ["[silencedetect @ 0x55d0c8] silence_end: 64.5645 | silence_duration: 2.5"]
     = [{| startTime := Some 62064; endTime := Some 64564 |}]
  /\ (forall g e d,
        JS.parseFloat (g_endTime g) = Some e ->
        JS.parseFloat (g_duration g) = Some d ->
        (0 <= d)%Q ->
        exists s t,
          startTime (silence_of_groups g) = Some s
          /\ endTime (silence_of_groups g) = Some t
          /\ s <= t)
  /\ (forall g d, JS.parseFloat (g_duration g) = Some d -> (0 <= d)%Q).
Proof.
  assert (Hline : forall g,
    silence_of_groups g =
    {| startTime :=
         match JS.parseFloat (g_endTime g), JS.parseFloat (g_duration g) with
         | Some e, Some d =>
             Some (JS.Math_round (Binary64.mul (Binary64.sub e d) 1000))
         | _, _ => None
         end;
       endTime :=
         match JS.parseFloat (g_endTime g) with
         | Some e => Some (JS.Math_round (Binary64.mul e 1000))
         | None => None
         end |}).
  { intros g. unfold silence_of_groups, seconds_to_millis, Qsub_nan.
    destruct (JS.parseFloat (g_endTime g)), (JS.parseFloat (g_duration g));
      reflexivity. }
  split; [reflexivity|].
  split; [|split; [|split; [|split; [|split; [|split]]]]].
  - intros line lines. rewrite findSilences_cons.
    destruct (Regex.exec SILENCEDETECT_FILTER_OUTPUT_PATTERN line) as [g|];
      [|reflexivity].
    rewrite Hline. reflexivity.
  - intros address e d rest lines Ha1 Ha2 He1 He2 Hd1 Hd2 Hrest.
    rewrite findSilences_cons,
      (silence_line_groups address e d rest Ha1 Ha2 He1 He2 Hd1 Hd2 Hrest).
    rewrite Hline. reflexivity.
  - intros line lines H.
    rewrite findSilences_cons, (no_bracket_no_silence line H). reflexivity.
  - vm_compute. reflexivity.
  - vm_compute. reflexivity.
  - intros g e d He Hd Hpos.
    unfold silence_of_groups, seconds_to_millis. simpl.
    rewrite He, Hd. simpl. do 2 eexists. split; [reflexivity|].
    split; [reflexivity|].
    apply millis_ordered; [exact (parseFloat_double _ _ He)|exact Hpos].
  - intros g d Hd. exact (parseFloat_nonneg _ _ Hd).
Qed.

Lemma findSilences_spec_witness :
  (exists s t,
      startTime (silence_of_groups {| g_endTime := "10.500"; g_duration := "2.000" |})
        = Some s
      /\ endTime (silence_of_groups {| g_endTime := "10.500"; g_duration := "2.000" |})
        = Some t
      /\ s <= t)
  /\ findSilences
       [ "frame=  900 fps=0.0 q=-0.0 size=N/A time=00:00:30.03 bitrate=N/A";
         (silence_line "0x55d0c8" "10.500" "2.000" ++ "")%string ]
     = [{| startTime := Some 8500; endTime := Some 10500 |}].
Proof.
  split.
  - apply (proj1 (proj2 (proj2 (proj2 (proj2 (proj2 (proj2 findSilences_spec))))))
             {| g_endTime := "10.500"; g_duration := "2.000" |}
             (Binary64.round (10500 # 1000)) (Binary64.round (2000 # 1000))).
    + reflexivity.
    + reflexivity.
    + vm_compute. discriminate.
  - rewrite (proj1 (proj2 (proj2 (proj2 findSilences_spec)))
               "frame=  900 fps=0.0 q=-0.0 size=N/A time=00:00:30.03 bitrate=N/A"
               _ eq_refl).
    rewrite (proj1 (proj2 (proj2 findSilences_spec))
               "0x55d0c8" "10.500" "2.000" "" []
               ltac:(discriminate) eq_refl ltac:(discriminate) eq_refl
               ltac:(discriminate) eq_refl eq_refl).
    vm_compute. reflexivity.
Defined.

(** ** The silence gate *)

Lemma silence_gate_unfold (strategy : FrameSearchStrategy)
    (candidateWindows : IntervalTree.t) (e : BlackframeOutput) :
  silence_gate strategy candidateWindows e =
  match JS.head (IntervalTree.search candidateWindows (time e) (time e)) with
  | Some (Some d) => negb (d =? 0)
  | Some None => false
  | None => Qle_bool (JS.nullish (minSilenceSeconds strategy) 0%Q) 0%Q
  end.
Proof.
  unfold silence_gate.
  destruct (JS.head _) as [[d|]|]; reflexivity.
Qed.

(** C1.  The code at an input where the claim fails: a frame of filter 11
    lies inside a silence of 500 ms, the strategy "black-logo" asks for
    1.5 s (1500 ms), so the claim drops the frame; the gate of the source
    keeps it (the test it evaluates is the truthiness of the window's
    duration), the five frames enter run-grouping and the boundary search
    reports a feature. *)
Theorem silence_gate_keeps_short_silence :
  let black_logo := strategy "black-logo" [11] (15 # 10) 5 in
  let windows :=
    [ {| IntervalTree.low := Some 10000; IntervalTree.high := Some 10500;
         IntervalTree.data := Some 500 |} ] in
  let e := frame_event 11 100 10100 in
  JS.head BOUNDARY_STRATEGIES = Some black_logo
  /\ index_silences IntervalTree.empty (findSilences short_silence_lines)
     = Some windows
  /\ Spec.silence_overlap windows e = Some 500
  /\ Spec.silence_gate black_logo windows e = false
  /\ silence_gate black_logo windows e = true
  /\ selected_events short_silence_lines black_logo windows
     = [ frame_event 11 100 10100; frame_event 11 101 10150;
         frame_event 11 102 10200; frame_event 11 103 10250;
         frame_event 11 104 10300 ]
  /\ fst (Async.run
            (detectPotentialBoundaries
               (example_env (Rejected "unused") (Resolved short_silence_lines))
               "in.mp4" 0 None))
     = Resolved [ {| start := Some 10100; end_ := Some 10300;
                     firstFrame := Some 100; lastFrame := Some 104 |} ].
Proof.
  repeat split; vm_compute; reflexivity.
Qed.

(** ** The sort before run-grouping *)

Lemma get_property_frame (o : BlackframeOutput) :
  get_property o "frame" = JS.VUndefined.
Proof. reflexivity. Qed.

Lemma compareFunc_frame_key (a b : BlackframeOutput) :
  compareFunc ["filterNum"; "frame"] a b = compareFunc ["filterNum"] a b.
Proof. reflexivity. Qed.

Lemma sort_insert_permutation {A} (cmp : A -> A -> Z) (x : A) (l : list A) :
  Permutation (x :: l) (JS.sort_insert cmp x l).
Proof.
  induction l as [|y l IH]; simpl; [reflexivity|].
  destruct (cmp x y <=? 0); [reflexivity|].
  rewrite perm_swap. apply perm_skip. exact IH.
Qed.

Lemma sort_permutation {A} (cmp : A -> A -> Z) (l : list A) :
  Permutation l (JS.sort cmp l).
Proof.
  induction l as [|x l IH]; simpl; [reflexivity|].
  rewrite <- sort_insert_permutation. apply perm_skip. exact IH.
Qed.

(** Events of one filter are left as they are by the sort. *)
Lemma sort_same_filter (f : Z) (events : list BlackframeOutput) :
  Forall (fun e => filterNum e = Some f) events ->
  JS.sort (compareFunc ["filterNum"; "frame"]) events = events.
Proof.
  induction 1 as [|e events He Hall IH]; [reflexivity|].
  unfold JS.sort in *. cbn [fold_right]. rewrite IH.
  destruct Hall as [|e' events' He' _]; [reflexivity|].
  cbn [JS.sort_insert compareFunc].
  unfold get_property at 1 2. cbn [String.eqb Ascii.eqb Bool.eqb].
  rewrite He, He'. cbn [JS.strict_eq JS.num_eqb]. rewrite Z.eqb_refl.
  reflexivity.
Qed.

(** C3.  The code at an input where the claim fails: the comparator is
    built from the keys "filterNum" and "frame", and a frame event has no
    property "frame" (its frame number is "frameNum"), so the second key
    never decides and the stable sort leaves events of one filter in input
    order; two lines of filter 13 with frames 20 and 10 enter run-grouping
    as 20, 10 (the key "frameNum" would have put them in order).  Through
    [detectPotentialBoundaries]: two frames of filter 22 reported as 11,
    10 come back as one feature that runs from frame 11 to frame 10. *)
Theorem sort_leaves_frame_numbers_unordered :
  (forall a b,
      compareFunc ["filterNum"; "frame"] a b = compareFunc ["filterNum"] a b)
  /\ selected_events descending_lines NEWS_BANNER_STRATEGY IntervalTree.empty
     = [frame_event 13 20 2000; frame_event 13 10 1000]
  /\ Spec.ordered
       (selected_events descending_lines NEWS_BANNER_STRATEGY IntervalTree.empty)
     = false
  /\ JS.sort (compareFunc ["filterNum"; "frameNum"])
       [frame_event 13 20 2000; frame_event 13 10 1000]
     = [frame_event 13 10 1000; frame_event 13 20 2000]
  /\ fst (Async.run
            (detectPotentialBoundaries
               (example_env (Rejected "unused")
                  (Resolved descending_newsline_lines))
               "in.mp4" 0 None))
     = Resolved [ {| start := Some 2000; end_ := Some 1000;
                     firstFrame := Some 11; lastFrame := Some 10 |} ].
Proof.
  split; [reflexivity|]. repeat split; vm_compute; reflexivity.
Qed.

(** ** Run-grouping *)

Lemma last_snoc {A} (l : list A) (x : A) : JS.last (l ++ [x]) = Some x.
Proof.
  induction l as [|a l IH]; [reflexivity|].
  simpl. destruct (l ++ [x]) eqn:E; [destruct l; discriminate|exact IH].
Qed.

Lemma set_last_snoc {A} (l : list A) (x y : A) :
  set_last (l ++ [x]) y = l ++ [y].
Proof. unfold set_last. rewrite removelast_last. reflexivity. Qed.

Lemma group_step_snoc (strategy : FrameSearchStrategy)
    (groups : list (list BlackframeOutput)) (run : list BlackframeOutput)
    (lastFrame frame : BlackframeOutput) :
  JS.last run = Some lastFrame ->
  group_step strategy (groups ++ [run]) frame =
  if Spec.extends_run (JS.nullish (maxSkip strategy) 1) lastFrame frame
  then groups ++ [run ++ [frame]]
  else groups ++ [run; [frame]].
Proof.
  intros Hlast. unfold group_step.
  rewrite last_snoc. cbn [JS.nullish].
  assert (Hlen : (List.length run =? 0)%nat = false).
  { destruct run; [discriminate|reflexivity]. }
  rewrite Hlen, Hlast. unfold Spec.extends_run.
  rewrite (andb_comm (JS.num_eqb _ _)).
  destruct (_ && _).
  - apply set_last_snoc.
  - rewrite <- app_assoc. reflexivity.
Qed.

Lemma group_step_first (strategy : FrameSearchStrategy)
    (frame : BlackframeOutput) :
  group_step strategy [] frame = [[frame]].
Proof. reflexivity. Qed.

Lemma fold_group_step (strategy : FrameSearchStrategy)
    (events : list BlackframeOutput) :
  forall groups run lastFrame,
    JS.last run = Some lastFrame ->
    fold_left (group_step strategy) events (groups ++ [run]) =
    groups ++ Spec.runs_from (JS.nullish (maxSkip strategy) 1) run lastFrame events.
Proof.
  induction events as [|e events IH]; intros groups run lastFrame Hlast;
    [reflexivity|].
  cbn [fold_left Spec.runs_from].
  rewrite (group_step_snoc _ _ _ _ _ Hlast).
  destruct (Spec.extends_run _ lastFrame e).
  - apply IH. apply last_snoc.
  - change (groups ++ [run; [e]]) with (groups ++ [run] ++ [[e]]).
    rewrite app_assoc, (IH (groups ++ [run]) [e] e eq_refl).
    rewrite <- app_assoc. reflexivity.
Qed.

Lemma group_frames_greedy (strategy : FrameSearchStrategy)
    (events : list BlackframeOutput) :
  group_frames strategy events =
  Spec.greedy_runs (JS.nullish (maxSkip strategy) 1) events.
Proof.
  unfold group_frames. destruct events as [|e events]; [reflexivity|].
  cbn [fold_left Spec.greedy_runs]. rewrite group_step_first.
  exact (fold_group_step strategy events [] [e] e eq_refl).
Qed.

Lemma runs_from_nonempty (maxSkip : Z) (events : list BlackframeOutput) :
  forall run lastFrame,
    run <> [] ->
    Forall (fun r => r <> []) (Spec.runs_from maxSkip run lastFrame events).
Proof.
  induction events as [|e events IH]; intros run lastFrame Hrun; simpl.
  - constructor; [exact Hrun|constructor].
  - destruct (Spec.extends_run maxSkip lastFrame e).
    + apply IH. destruct run; discriminate.
    + constructor; [exact Hrun|]. apply IH. discriminate.
Qed.

Lemma group_frames_nonempty (strategy : FrameSearchStrategy)
    (events : list BlackframeOutput) :
  Forall (fun r => r <> []) (group_frames strategy events).
Proof.
  rewrite group_frames_greedy. destruct events as [|e events]; simpl.
  - constructor.
  - apply runs_from_nonempty. discriminate.
Qed.

(** No qualifying run is lost when the runs become features. *)
Lemma findBlackframeGroups_features (lines : list string)
    (strategy : FrameSearchStrategy) (windows : IntervalTree.t) :
  map Some (findBlackframeGroups lines strategy windows) =
  map feature_of_group
    (qualifying_runs strategy (selected_events lines strategy windows)).
Proof.
  unfold findBlackframeGroups, qualifying_runs.
  pose proof (group_frames_nonempty strategy
                (selected_events lines strategy windows)) as Hne.
  induction Hne as [|run runs Hrun _ IH]; [reflexivity|].
  cbn [filter]. destruct (_ >=? _); [|exact IH].
  cbn [map]. destruct run as [|e run]; [contradiction|].
  unfold feature_of_group at 1 3. cbn [JS.head].
  destruct (JS.last (e :: run)) eqn:El.
  - cbn [JS.filter_truthy map]. rewrite IH. reflexivity.
  - exfalso. clear -El. revert e El.
    induction run as [|b run IHr]; intros e El; [discriminate|].
    exact (IHr b El).
Qed.

(** C4.  Run-grouping is the greedy partition: the first event opens a run
    and each later event extends the current run exactly when it has the
    filter id of the run's last event and its frame number exceeds that
    event's by at most [maxSkip] (1 when the strategy gives none), and
    opens a new run otherwise; the runs shorter than [minFrames] are then
    dropped.  The frames 10, 11 and 30 of filter 1 with [maxSkip] 1 form
    the two runs [10, 11] and [30]. *)
Theorem group_frames_spec :
  (forall strategy events,
      group_frames strategy events =
      Spec.greedy_runs (JS.nullish (maxSkip strategy) 1) events)
  /\ (forall strategy events,
        qualifying_runs strategy events =
        filter (fun run => minFrames strategy <=? Z.of_nat (List.length run))
          (Spec.greedy_runs (JS.nullish (maxSkip strategy) 1) events))
  /\ (forall strategy lines windows,
        findBlackframeGroups lines strategy windows =
        JS.filter_truthy
          (map feature_of_group
             (filter (fun run => minFrames strategy <=? Z.of_nat (List.length run))
                (Spec.greedy_runs (JS.nullish (maxSkip strategy) 1)
                   (selected_events lines strategy windows)))))
  /\ (let s := {| name := "example"; filters := [1]; maxSkip := Some 1;
                  minSilenceSeconds := None; minFrames := 1 |} in
      group_frames s
        [frame_event 1 10 1000; frame_event 1 11 1100; frame_event 1 30 2000]
      = [ [frame_event 1 10 1000; frame_event 1 11 1100];
          [frame_event 1 30 2000] ]
      /\ findBlackframeGroups filter_one_lines s IntervalTree.empty
         = [ {| start := Some 1000; end_ := Some 1100;
                firstFrame := Some 10; lastFrame := Some 11 |};
             {| start := Some 2000; end_ := Some 2000;
                firstFrame := Some 30; lastFrame := Some 30 |} ]).
Proof.
  assert (Hq : forall strategy events,
             qualifying_runs strategy events =
             filter (fun run => minFrames strategy <=? Z.of_nat (List.length run))
               (Spec.greedy_runs (JS.nullish (maxSkip strategy) 1) events)).
  { intros strategy events. unfold qualifying_runs.
    rewrite group_frames_greedy. apply filter_ext.
    intros run. apply Z.geb_leb. }
  split; [exact group_frames_greedy|]. split; [exact Hq|]. split.
  - intros strategy lines windows. unfold findBlackframeGroups.
    rewrite Hq. reflexivity.
  - split; vm_compute; reflexivity.
Qed.

(** ** The strategy cascade *)

Lemma findSilences_ordered (lines : list string) :
  Forall (fun s => JS.num_gtb (startTime s) (endTime s) = false)
    (findSilences lines).
Proof.
  induction lines as [|line lines IH]; [constructor|].
  rewrite findSilences_cons.
  destruct (Regex.exec SILENCEDETECT_FILTER_OUTPUT_PATTERN line) as [g|];
    [|exact IH].
  constructor; [|exact IH].
  pose proof (silence_of_groups_ordered g) as H.
  destruct (startTime (silence_of_groups g)) as [a|],
           (endTime (silence_of_groups g)) as [b|]; try reflexivity.
  specialize (H a b eq_refl eq_refl).
  unfold JS.num_gtb, JS.num_ltb. apply Z.ltb_ge. exact H.
Qed.

Lemma index_silences_total (silences : list Silence) :
  Forall (fun s => JS.num_gtb (startTime s) (endTime s) = false) silences ->
  forall tree, exists tree', index_silences tree silences = Some tree'.
Proof.
  induction 1 as [|s silences Hs _ IH]; intros tree; simpl.
  - exists tree. reflexivity.
  - unfold IntervalTree.insert. rewrite Hs.
    destruct (existsb _ tree); apply IH.
Qed.

Lemma search_strategies_run (env : Env) (lines : list string)
    (windows : IntervalTree.t) (strategies : list FrameSearchStrategy) :
  forall trace,
    search_strategies env lines windows strategies trace =
    ( Resolved
        (Spec.first_non_empty
           (fun s => findBlackframeGroups lines s windows) strategies),
      trace
      ++ flat_map (search_log env lines windows)
           (Spec.evaluated
              (fun s => findBlackframeGroups lines s windows) strategies) ).
Proof.
  induction strategies as [|s strategies IH]; intros trace.
  - simpl. unfold Async.ret. rewrite app_nil_r. reflexivity.
  - cbn [search_strategies Spec.first_non_empty Spec.evaluated].
    unfold Async.bind, Async.log.
    destruct (findBlackframeGroups lines s windows) as [|f fs] eqn:E.
    + cbn [List.length Nat.ltb Nat.leb]. rewrite IH.
      cbn [flat_map]. unfold search_log at 2. rewrite E.
      rewrite <- !app_assoc. reflexivity.
    + cbn [List.length Nat.ltb Nat.leb]. unfold Async.ret.
      cbn [flat_map]. unfold search_log. rewrite E.
      rewrite app_nil_r, <- !app_assoc. reflexivity.
Qed.

(** C2.  When the engine's output has no silence, [detectPotentialBoundaries]
    returns the empty list right after logging that fact, and no strategy
    is searched.  Otherwise it indexes the silences and goes through the
    seven strategies in declared order: the result is the run list of the
    first strategy that has one, the strategies searched are exactly those
    up to and including it, and the result is empty when no strategy has a
    run. *)
Theorem detectPotentialBoundaries_cascade (env : Env) (path : string)
    (from : Q) (limit : option Q) (lines : list string) :
  ffmpeg env (strings (getFfmpegBoundaryDetectionArguments env path from limit))
  = Resolved lines ->
  map name BOUNDARY_STRATEGIES
  = [ "black-logo"; "white-logo"; "white-borders-logo";
      "black-logo-ai-subtitles"; "black-no-logo-ai-subtitles";
      "no-logo"; "newsline" ]
  /\ match findSilences lines with
     | [] =>
         Async.run (detectPotentialBoundaries env path from limit) =
         ( Resolved [],
           detection_prelude env path from limit lines
           ++ [ Logged info
                  "No silences of sufficient length, terminating boundary search" ] )
     | silences =>
         exists windows,
           index_silences IntervalTree.empty silences = Some windows
           /\ Async.run (detectPotentialBoundaries env path from limit) =
              ( Resolved
                  (Spec.first_non_empty
                     (fun s => findBlackframeGroups lines s windows)
                     BOUNDARY_STRATEGIES),
                detection_prelude env path from limit lines
                ++ flat_map (search_log env lines windows)
                     (Spec.evaluated
                        (fun s => findBlackframeGroups lines s windows)
                        BOUNDARY_STRATEGIES) )
     end.
Proof.
  intros Hrun. split; [reflexivity|].
  unfold Async.run, detectPotentialBoundaries, detection_prelude, ffmpeg_run,
    done_in.
  unfold Async.bind, Async.log, Async.execute, Async.read.
  cbn [app]. rewrite Hrun. cbn [app].
  pose proof (findSilences_ordered lines) as Hord.
  destruct (findSilences lines) as [|s silences] eqn:E.
  - reflexivity.
  - destruct (index_silences_total _ Hord IntervalTree.empty) as [windows Hw].
    exists windows. split; [exact Hw|].
    cbn [List.length Nat.eqb]. rewrite Hw.
    rewrite search_strategies_run. reflexivity.
Qed.

Lemma detectPotentialBoundaries_cascade_witness :
  fst (Async.run
         (detectPotentialBoundaries
            (example_env (Rejected "unused") (Resolved short_silence_lines))
            "in.mp4" 0 None))
  = Resolved [ {| start := Some 10100; end_ := Some 10300;
                  firstFrame := Some 100; lastFrame := Some 104 |} ].
Proof.
  pose proof
    (detectPotentialBoundaries_cascade
       (example_env (Rejected "unused") (Resolved short_silence_lines))
       "in.mp4" 0 None short_silence_lines eq_refl) as [_ H].
  assert (E : findSilences short_silence_lines
              = [{| startTime := Some 10000; endTime := Some 10500 |}])
    by (vm_compute; reflexivity).
  rewrite E in H. destruct H as [windows [Hw Hrun]].
  vm_compute in Hw. injection Hw as <-.
  rewrite Hrun. cbn [fst]. vm_compute. reflexivity.
Defined.

(** ** Time-varying expressions *)

Lemma generateTimeSequence_unfold_last (env : Env) (calcValue : Z -> Z)
    (cropParameters : list Crop.CropParameters) (defaultWidth : Z) :
  generateTimeSequence env calcValue cropParameters defaultWidth =
  match JS.last cropParameters with
  | None => showZ env (calcValue defaultWidth)
  | Some p =>
      match truthy_time (Crop.time p) with
      | None => showZ env (calcValue (Crop.width p))
      | Some time =>
          ("if(gte(t," ++ show env (time / 1000) ++ "),"
           ++ showZ env (calcValue (Crop.width p)) ++ ","
           ++ generateTimeSequence env calcValue (JS.init cropParameters)
                defaultWidth
           ++ ")")%string
      end
  end.
Proof.
  funelim (generateTimeSequence env calcValue cropParameters defaultWidth).
  - rewrite e. reflexivity.
  - rewrite eq, Heq. reflexivity.
  - rewrite eq, Heq. reflexivity.
Qed.

Lemma generateTimeSequence_snoc (env : Env) (calcValue : Z -> Z)
    (earlier : list Crop.CropParameters) (p : Crop.CropParameters)
    (defaultWidth : Z) :
  generateTimeSequence env calcValue (earlier ++ [p]) defaultWidth =
  match truthy_time (Crop.time p) with
  | None => showZ env (calcValue (Crop.width p))
  | Some time =>
      ("if(gte(t," ++ show env (time / 1000) ++ "),"
       ++ showZ env (calcValue (Crop.width p)) ++ ","
       ++ generateTimeSequence env calcValue earlier defaultWidth
       ++ ")")%string
  end.
Proof.
  rewrite generateTimeSequence_unfold_last, last_snoc.
  unfold JS.init. rewrite removelast_last. reflexivity.
Qed.

Lemma generateTimeSequence_nil (env : Env) (calcValue : Z -> Z)
    (defaultWidth : Z) :
  generateTimeSequence env calcValue [] defaultWidth
  = showZ env (calcValue defaultWidth).
Proof. rewrite generateTimeSequence_unfold_last. reflexivity. Qed.

Lemma truthy_time_value (p : Crop.CropParameters) (t : Q) :
  truthy_time (Crop.time p) = Some t -> JS.nullish (Crop.time p) 0%Q = t.
Proof.
  unfold truthy_time. destruct (Crop.time p) as [q|]; [|discriminate].
  destruct (Qeq_bool q 0); [discriminate|].
  intros H. injection H as <-. reflexivity.
Qed.

Lemma generateTimeSequence_nested (env : Env) (calcValue : Z -> Z)
    (defaultWidth : Z) (first : list Crop.CropParameters) :
  forall later,
    Forall (fun p => truthy_time (Crop.time p) <> None) later ->
    generateTimeSequence env calcValue (first ++ later) defaultWidth =
    Spec.nested env calcValue (rev later)
      (generateTimeSequence env calcValue first defaultWidth).
Proof.
  induction later as [|p later IH] using rev_ind; intros Hall.
  - rewrite app_nil_r. reflexivity.
  - apply Forall_app in Hall. destruct Hall as [Hlater Hp].
    inversion Hp as [|? ? Hp' _]; subst.
    rewrite app_assoc, generateTimeSequence_snoc, rev_app_distr.
    cbn [rev app Spec.nested].
    destruct (truthy_time (Crop.time p)) as [t|] eqn:Ht; [|contradiction].
    rewrite (truthy_time_value p t Ht), (IH Hlater). reflexivity.
Qed.

Lemma last_falsy_time (cropParameters : list Crop.CropParameters) :
  Forall (fun p => truthy_time (Crop.time p) <> None) cropParameters
  \/ exists before stop later,
       cropParameters = before ++ stop :: later
       /\ truthy_time (Crop.time stop) = None
       /\ Forall (fun p => truthy_time (Crop.time p) <> None) later.
Proof.
  induction cropParameters as [|p l IH]; [left; constructor|].
  destruct IH as [Hall|(before & stop & later & -> & Hstop & Hlater)].
  - destruct (truthy_time (Crop.time p)) as [t|] eqn:Hp.
    + left. constructor; [rewrite Hp; discriminate|exact Hall].
    + right. exists [], p, l. auto.
  - right. exists (p :: before), stop, later. auto.
Qed.

(** C5 (as amended).  [generateTimeSequence] nests one
    [if(gte(t, time/1000), f(width), ...)] per observation, from the most
    recent one backward, as long as the observation's time is a number
    other than 0, and stops at the first observation (going backward)
    whose time is 0 or not a number, wherever it stands: the innermost
    else branch is then [f] of that observation's width, and the
    observations before it do not appear.  When every observation's time
    is a number other than 0 the innermost else branch is
    [f(defaultWidth)]; when the observation at which it stops is the
    earliest one, the expression is the one the specification words.
    Every sequence is of one of these two kinds. *)
Theorem generateTimeSequence_spec (env : Env) (calcValue : Z -> Z)
    (defaultWidth : Z) :
  (forall cropParameters,
      Forall (fun p => truthy_time (Crop.time p) <> None) cropParameters ->
      generateTimeSequence env calcValue cropParameters defaultWidth =
      Spec.nested env calcValue (rev cropParameters)
        (showZ env (calcValue defaultWidth)))
  /\ (forall before stop later,
        truthy_time (Crop.time stop) = None ->
        Forall (fun p => truthy_time (Crop.time p) <> None) later ->
        generateTimeSequence env calcValue (before ++ stop :: later)
          defaultWidth =
        Spec.nested env calcValue (rev later)
          (showZ env (calcValue (Crop.width stop))))
  /\ (forall earliest later,
        truthy_time (Crop.time earliest) = None ->
        Forall (fun p => truthy_time (Crop.time p) <> None) later ->
        generateTimeSequence env calcValue (earliest :: later) defaultWidth =
        Spec.time_sequence env calcValue (earliest :: later))
  /\ (forall cropParameters,
        Forall (fun p => truthy_time (Crop.time p) <> None) cropParameters
        \/ exists before stop later,
             cropParameters = before ++ stop :: later
             /\ truthy_time (Crop.time stop) = None
             /\ Forall (fun p => truthy_time (Crop.time p) <> None) later).
Proof.
  assert (Hstop : forall before stop later,
    truthy_time (Crop.time stop) = None ->
    Forall (fun p => truthy_time (Crop.time p) <> None) later ->
    generateTimeSequence env calcValue (before ++ stop :: later) defaultWidth =
    Spec.nested env calcValue (rev later)
      (showZ env (calcValue (Crop.width stop)))).
  { intros before stop later Hzero Hall.
    replace (before ++ stop :: later) with ((before ++ [stop]) ++ later)
      by (rewrite <- app_assoc; reflexivity).
    rewrite (generateTimeSequence_nested env calcValue defaultWidth _ _ Hall).
    f_equal.
    rewrite (generateTimeSequence_snoc env calcValue before stop), Hzero.
    reflexivity. }
  split; [|split; [exact Hstop|split; [|exact last_falsy_time]]].
  - intros crop Hall.
    rewrite <- (generateTimeSequence_nil env calcValue defaultWidth).
    exact (generateTimeSequence_nested env calcValue defaultWidth [] crop Hall).
  - intros earliest later Hzero Hall.
    exact (Hstop [] earliest later Hzero Hall).
Qed.

Lemma generateTimeSequence_spec_witness :
  generateTimeSequence quiet_env (makeCalculateScaleWidth 1920)
    late_observation 1920
  = Spec.nested quiet_env (makeCalculateScaleWidth 1920) (rev late_observation)
      (showZ quiet_env (makeCalculateScaleWidth 1920 1920))
  /\ generateTimeSequence quiet_env (makeCalculateScaleWidth 1920)
       ([ {| Crop.time := Some 500%Q; Crop.width := 1700 |} ]
        ++ {| Crop.time := Some 0%Q; Crop.width := 1920 |} :: late_observation)
       1280
     = Spec.nested quiet_env (makeCalculateScaleWidth 1920)
         (rev late_observation)
         (showZ quiet_env (makeCalculateScaleWidth 1920 1920))
  /\ generateTimeSequence quiet_env (makeCalculateScaleWidth 1920)
       ({| Crop.time := Some 0%Q; Crop.width := 1920 |} :: late_observation) 1920
     = Spec.time_sequence quiet_env (makeCalculateScaleWidth 1920)
         ({| Crop.time := Some 0%Q; Crop.width := 1920 |} :: late_observation).
Proof.
  split; [|split].
  - apply (proj1 (generateTimeSequence_spec quiet_env
                    (makeCalculateScaleWidth 1920) 1920)).
    repeat constructor; discriminate.
  - apply (proj1 (proj2 (generateTimeSequence_spec quiet_env
                           (makeCalculateScaleWidth 1920) 1280))
             [ {| Crop.time := Some 500%Q; Crop.width := 1700 |} ]
             {| Crop.time := Some 0%Q; Crop.width := 1920 |}
             late_observation).
    + reflexivity.
    + repeat constructor; discriminate.
  - apply (proj1 (proj2 (proj2 (generateTimeSequence_spec quiet_env
                                  (makeCalculateScaleWidth 1920) 1920)))).
    + reflexivity.
    + repeat constructor; discriminate.
Defined.

(** C5, the claim as stated fails: for the single observation
    [{time: 1000, width: 1800}] and default width 1920 the expression is
    [if(gte(t,1),2048,1920)]; its innermost else branch is the scaled
    width of the default width (1920), not of the earliest observation's
    width (2048). *)
Lemma generateTimeSequence_innermost_is_default :
  generateTimeSequence quiet_env (makeCalculateScaleWidth 1920)
    late_observation 1920
  = "if(gte(t,1),2048,1920)"
  /\ showZ quiet_env (makeCalculateScaleWidth 1920 1800) = "2048"
  /\ generateTimeSequence quiet_env (makeCalculateScaleWidth 1920)
       late_observation 1920
     <> Spec.time_sequence quiet_env (makeCalculateScaleWidth 1920)
          late_observation
  /\ generateTimeSequence quiet_env (makeCalculateScaleWidth 1920)
       late_observation 1920
     <> Spec.nested quiet_env (makeCalculateScaleWidth 1920)
          (rev late_observation)
          (showZ quiet_env (makeCalculateScaleWidth 1920 1800)).
Proof.
  repeat split; try (vm_compute; reflexivity);
    vm_compute; intros H; discriminate H.
Qed.

Lemma Math_round_nonneg (x : Q) : (0 <= x)%Q -> 0 <= JS.Math_round x.
Proof.
  intros H. change 0 with (Qfloor 0). unfold JS.Math_round.
  apply Qfloor_resp_le. lra.
Qed.

(** C9.  For positive integer widths the scaled width
    [round(targetWidth^2 / cropWidth / 2) * 2] is an even integer (and is
    not negative) and the overlay offset is
    [round((cropWidth - targetWidth) / 2)]; for the single observation
    [{time: 0, width: 1920}] and target width 1920 the offset expression
    is 0 and the scaled-width expression is 1920.  (Positive widths are
    also where the exact quotient of the embedding is the quotient of the
    source: no division by zero.) *)
Theorem scale_width_even (cropWidth targetWidth : Z) :
  0 < cropWidth ->
  0 < targetWidth ->
  Z.even (makeCalculateScaleWidth targetWidth cropWidth) = true
  /\ 0 <= makeCalculateScaleWidth targetWidth cropWidth
  /\ makeCalculateScaleWidth targetWidth cropWidth
     = 2 * JS.Math_round
             (inject_Z (targetWidth * targetWidth) / inject_Z cropWidth / 2)
  /\ makeCalculateOverlayPosition targetWidth cropWidth
     = JS.Math_round (inject_Z (cropWidth - targetWidth) / 2)
  /\ makeCalculateOverlayPosition 1920 1920 = 0
  /\ makeCalculateScaleWidth 1920 1920 = 1920
  /\ (forall env,
        generateTimeSequence env (makeCalculateOverlayPosition 1920)
          [ {| Crop.time := Some 0%Q; Crop.width := 1920 |} ] 1920
        = showZ env 0
        /\ generateTimeSequence env (makeCalculateScaleWidth 1920)
             [ {| Crop.time := Some 0%Q; Crop.width := 1920 |} ] 1920
           = showZ env 1920).
Proof.
  intros Hcrop Htarget. unfold makeCalculateScaleWidth at 1 2 3.
  split; [rewrite Z.mul_comm; apply Z.even_even|].
  split.
  { apply Z.mul_nonneg_nonneg; [|lia].
    apply Math_round_nonneg.
    assert (Hc : (0 < inject_Z cropWidth)%Q)
      by (unfold Qlt, inject_Z; cbn [Qnum Qden]; lia).
    assert (Ht : (0 <= inject_Z (targetWidth * targetWidth))%Q)
      by (unfold Qle, inject_Z; cbn [Qnum Qden]; nia).
    apply Qle_shift_div_l; [reflexivity|].
    apply Qle_shift_div_l; [exact Hc|].
    lra. }
  split; [apply Z.mul_comm|].
  split; [reflexivity|].
  split; [reflexivity|].
  split; [reflexivity|].
  intros env.
  split.
  - exact (generateTimeSequence_snoc env (makeCalculateOverlayPosition 1920) []
             {| Crop.time := Some 0%Q; Crop.width := 1920 |} 1920).
  - exact (generateTimeSequence_snoc env (makeCalculateScaleWidth 1920) []
             {| Crop.time := Some 0%Q; Crop.width := 1920 |} 1920).
Qed.

Lemma scale_width_even_witness :
  Z.even (makeCalculateScaleWidth 1920 1800) = true
  /\ makeCalculateScaleWidth 1920 1800 = 2048.
Proof.
  split.
  - apply (scale_width_even 1800 1920); lia.
  - reflexivity.
Defined.

(** ** The post-processing argument vector *)

Lemma generateFilterChain_cases (env : Env) (start : Q)
    (cropParameters : list Crop.CropParameters) (hasThumbnail : bool)
    (targetWidth targetHeight : Z) :
  generateFilterChain env start cropParameters hasThumbnail
    targetWidth targetHeight =
  match cropParameters, hasThumbnail with
  | [], false => []
  | [], true => [Str "-filter_complex"; Str (thumbnail_filter env start)]
  | _ :: _, false =>
      [ Str "-filter_complex";
        Str (String.concat ";"
               (correction_filters env cropParameters targetWidth targetHeight)) ]
  | _ :: _, true =>
      [ Str "-filter_complex";
        Str (String.concat ";"
               (correction_filters env cropParameters targetWidth targetHeight
                ++ [thumbnail_filter env start])) ]
  end.
Proof.
  unfold generateFilterChain.
  destruct cropParameters as [|p crop], hasThumbnail;
    cbn [List.length Nat.ltb Nat.leb flat flat_map app join strings map
         arg_toString];
    reflexivity.
Qed.

Lemma generateFilterChain_flat (env : Env) (start : Q)
    (cropParameters : list Crop.CropParameters) (hasThumbnail : bool)
    (targetWidth targetHeight : Z) :
  flat 1 (generateFilterChain env start cropParameters hasThumbnail
            targetWidth targetHeight)
  = generateFilterChain env start cropParameters hasThumbnail
      targetWidth targetHeight.
Proof.
  rewrite generateFilterChain_cases.
  destruct cropParameters, hasThumbnail; reflexivity.
Qed.

Lemma getFfmpegPostProcessArguments_flat (env : Env)
    (inputPath outputPath : string) (start end_ : Q)
    (cropParameters : list Crop.CropParameters) (hasThumbnail : bool)
    (targetWidth targetHeight : Z) :
  getFfmpegPostProcessArguments env inputPath outputPath start end_
    cropParameters hasThumbnail targetWidth targetHeight =
  input_arguments env inputPath start hasThumbnail
  ++ end_trim env end_
  ++ [Str "-codec"; Str "copy"]
  ++ generateFilterChain env start cropParameters hasThumbnail
       targetWidth targetHeight
  ++ (match cropParameters with
      | [] => copied_video
      | _ :: _ => reencoded_video
      end)
  ++ output_arguments outputPath hasThumbnail.
Proof.
  unfold getFfmpegPostProcessArguments, input_arguments, end_trim,
    output_arguments, threads.
  cbn [flat flat_map app].
  change (flat_map _ ?l) with (flat 1 l).
  rewrite generateFilterChain_flat.
  destruct (threadLimit env >? 0), hasThumbnail, (Qeq_bool end_ 0),
    cropParameters;
    cbn [List.length Nat.ltb Nat.leb flat flat_map app pair_];
    rewrite ?app_nil_r; reflexivity.
Qed.

(** C6 (as amended).  The crop-correcting filters are emitted exactly when
    the crop-observation sequence is non-empty; with an empty sequence the
    filter graph is absent when there is no thumbnail and consists of the
    thumbnail's [setpts] filter alone when there is one.  The video is
    mapped for copy ([-map 0:0]) when the sequence is empty and re-encoded
    with libx264 from the graph's output [[c]] otherwise; [-codec copy],
    the audio mapping [-map 0:1] and [-map_metadata 0] are there in every
    case. *)
Theorem post_process_video_path (env : Env) (inputPath outputPath : string)
    (start end_ : Q) (cropParameters : list Crop.CropParameters)
    (hasThumbnail : bool) (targetWidth targetHeight : Z) :
  getFfmpegPostProcessArguments env inputPath outputPath start end_
    cropParameters hasThumbnail targetWidth targetHeight =
  input_arguments env inputPath start hasThumbnail
  ++ end_trim env end_
  ++ [Str "-codec"; Str "copy"]
  ++ match cropParameters, hasThumbnail with
     | [], false => copied_video
     | [], true =>
         [Str "-filter_complex"; Str (thumbnail_filter env start)]
         ++ copied_video
     | _ :: _, false =>
         [ Str "-filter_complex";
           Str (String.concat ";"
                  (correction_filters env cropParameters
                     targetWidth targetHeight)) ]
         ++ reencoded_video
     | _ :: _, true =>
         [ Str "-filter_complex";
           Str (String.concat ";"
                  (correction_filters env cropParameters
                     targetWidth targetHeight
                   ++ [thumbnail_filter env start])) ]
         ++ reencoded_video
     end
  ++ [Str "-map"; Str "0:1"]
  ++ (if hasThumbnail
      then [ Str "-map"; Str "[tn]"; Str "-codec:v:1"; Str "mjpeg";
             Str "-disposition:v:1"; Str "attached_pic" ]
      else [])
  ++ [Str "-map_metadata"; Str "0"; Str "-f"; Str "mp4"; Str outputPath].
Proof.
  rewrite getFfmpegPostProcessArguments_flat, generateFilterChain_cases.
  unfold output_arguments.
  destruct cropParameters, hasThumbnail; reflexivity.
Qed.

(** C6, the claim as stated fails: with an empty crop-observation sequence
    and a thumbnail stream, the argument vector does carry a filter graph
    (the thumbnail's [setpts] filter). *)
Lemma empty_crop_still_emits_filter_graph :
  generateFilterChain quiet_env 0 [] true 1920 1080
  = [Str "-filter_complex"; Str "[1:2]setpts=PTS+0/TB[tn]"]
  /\ getFfmpegPostProcessArguments quiet_env "in.mp4" "out.mp4" 0 0 []
       true 1920 1080
     = [ Str "-y"; Str "-i"; Str "in.mp4"; Str "-i"; Str "in.mp4";
         Str "-ss"; Str "0"; Str "-codec"; Str "copy";
         Str "-filter_complex"; Str "[1:2]setpts=PTS+0/TB[tn]";
         Str "-map"; Str "0:0"; Str "-map"; Str "0:1";
         Str "-map"; Str "[tn]"; Str "-codec:v:1"; Str "mjpeg";
         Str "-disposition:v:1"; Str "attached_pic";
         Str "-map_metadata"; Str "0"; Str "-f"; Str "mp4"; Str "out.mp4" ].
Proof.
  split; vm_compute; reflexivity.
Qed.

Ltac split_membership H :=
  repeat match type of H with
         | In _ (_ ++ _) => apply in_app_or in H; destruct H as [H|H]
         | In _ (if ?b then _ else _) => destruct b
         | In _ (match ?c with [] => _ | _ :: _ => _ end) => destruct c
         | In _ (_ :: _) => destruct H as [H|H]
         | In _ [] => destruct H
         | Str _ = Str _ => injection H as H
         end.

Lemma no_end_trim_flag (env : Env) (inputPath outputPath : string)
    (start : Q) (cropParameters : list Crop.CropParameters)
    (hasThumbnail : bool) (targetWidth targetHeight : Z) :
  inputPath <> "-to" ->
  outputPath <> "-to" ->
  show env (start / 1000) <> "-to" ->
  showZ env (threadLimit env) <> "-to" ->
  ~ In (Str "-to")
      (getFfmpegPostProcessArguments env inputPath outputPath start 0
         cropParameters hasThumbnail targetWidth targetHeight).
Proof.
  intros Hin Hout Hstart Hthreads H.
  rewrite getFfmpegPostProcessArguments_flat, generateFilterChain_cases in H.
  unfold input_arguments, end_trim, output_arguments, copied_video,
    reencoded_video, thumbnail_filter, correction_filters in H.
  change (Qeq_bool 0 0) with true in H.
  split_membership H;
    try discriminate H;
    try contradiction;
    cbn [String.concat app append] in H; discriminate H.
Qed.

(** C10.  With [end = 0] the argument vector has no end trim: the pair
    [-ss start] is followed at once by [-codec copy], where any other end
    time puts the pair [-to end/1000]; and no argument is the flag [-to]
    (unless a caller passes that text as a path, or the printing of a
    number produced it). *)
Theorem end_zero_means_no_end_trim (env : Env) (inputPath outputPath : string)
    (start : Q) (cropParameters : list Crop.CropParameters)
    (hasThumbnail : bool) (targetWidth targetHeight : Z) :
  let rest :=
    [Str "-codec"; Str "copy"]
    ++ generateFilterChain env start cropParameters hasThumbnail
         targetWidth targetHeight
    ++ (match cropParameters with
        | [] => copied_video
        | _ :: _ => reencoded_video
        end)
    ++ output_arguments outputPath hasThumbnail in
  getFfmpegPostProcessArguments env inputPath outputPath start 0
    cropParameters hasThumbnail targetWidth targetHeight
  = input_arguments env inputPath start hasThumbnail ++ rest
  /\ (forall end_,
        Qeq_bool end_ 0 = false ->
        getFfmpegPostProcessArguments env inputPath outputPath start end_
          cropParameters hasThumbnail targetWidth targetHeight
        = input_arguments env inputPath start hasThumbnail
          ++ [Str "-to"; Str (show env (end_ / 1000))] ++ rest)
  /\ (inputPath <> "-to" ->
      outputPath <> "-to" ->
      show env (start / 1000) <> "-to" ->
      showZ env (threadLimit env) <> "-to" ->
      ~ In (Str "-to")
          (getFfmpegPostProcessArguments env inputPath outputPath start 0
             cropParameters hasThumbnail targetWidth targetHeight)).
Proof.
  cbv zeta. split; [|split].
  - rewrite getFfmpegPostProcessArguments_flat. reflexivity.
  - intros end_ Hend. rewrite getFfmpegPostProcessArguments_flat.
    unfold end_trim. rewrite Hend. reflexivity.
  - apply no_end_trim_flag.
Qed.

Lemma end_zero_means_no_end_trim_witness :
  getFfmpegPostProcessArguments quiet_env "in.mp4" "out.mp4" 1500 60000
    late_observation false 1920 1080
  = input_arguments quiet_env "in.mp4" 1500 false
    ++ [Str "-to"; Str "60"]
    ++ [Str "-codec"; Str "copy"]
    ++ generateFilterChain quiet_env 1500 late_observation false 1920 1080
    ++ reencoded_video
    ++ output_arguments "out.mp4" false
  /\ ~ In (Str "-to")
         (getFfmpegPostProcessArguments quiet_env "in.mp4" "out.mp4" 1500 0
            late_observation false 1920 1080).
Proof.
  pose proof (end_zero_means_no_end_trim quiet_env "in.mp4" "out.mp4" 1500
                late_observation false 1920 1080) as [_ [Hto Hnone]].
  split.
  - apply (Hto 60000%Q). reflexivity.
  - apply Hnone; vm_compute; intros H; discriminate H.
Defined.

(** ** Probing of the video dimensions *)

Lemma getVideoDimensions_run (env : Env) (path : string) (trace : list event) :
  getVideoDimensions env path trace =
  ( fst (Async.run (getVideoDimensions env path)),
    trace ++ snd (Async.run (getVideoDimensions env path)) ).
Proof.
  unfold Async.run, getVideoDimensions, Async.bind, Async.log, Async.execute.
  cbn [app].
  destruct (ffprobe env _) as [result|err]; [|rewrite <- app_assoc; reflexivity].
  set (stream := JS.nullish _ Probe.no_fields).
  destruct (Probe.width stream) as [w|], (Probe.coded_width stream) as [cw|],
           (Probe.height stream) as [h|], (Probe.coded_height stream) as [ch|];
    cbn [JS.of_field JS.truthy negb orb];
    repeat match goal with
           | |- context [?z =? 0] => destruct (z =? 0)
           end;
    cbn [negb orb]; unfold Async.ret, Async.throw;
    rewrite <- app_assoc; reflexivity.
Qed.

Lemma getStreamCount_run (env : Env) (path : string) (trace : list event) :
  getStreamCount env path trace =
  ( fst (Async.run (getStreamCount env path)),
    trace ++ snd (Async.run (getStreamCount env path)) ).
Proof.
  unfold Async.run, getStreamCount, Async.bind, Async.log, Async.execute.
  cbn [app].
  destruct (ffprobe env _) as [out|err]; [|rewrite <- app_assoc; reflexivity].
  destruct (Probe.format out); unfold Async.ret, Async.throw;
    rewrite <- app_assoc; reflexivity.
Qed.

Lemma getVideoDimensions_result (env : Env) (path : string)
    (out : Probe.Output) :
  ffprobe env (strings (getVideoDimensions_args path)) = Resolved out ->
  fst (Async.run (getVideoDimensions env path)) =
  let stream :=
    JS.nullish (JS.head (JS.nullish (Probe.streams out) [])) Probe.no_fields in
  let first_of (a b : option Z) :=
    match a with
    | Some x => Some x
    | None => b
    end in
  match first_of (Probe.width stream) (Probe.coded_width stream),
        first_of (Probe.height stream) (Probe.coded_height stream) with
  | Some w, Some h =>
      if (w =? 0) || (h =? 0)
      then Rejected "Unable to read video dimensions"
      else Resolved {| dim_width := w; dim_height := h |}
  | _, _ => Rejected "Unable to read video dimensions"
  end.
Proof.
  intros Hout.
  unfold Async.run, getVideoDimensions, Async.bind, Async.log, Async.execute.
  cbn [app]. rewrite Hout. cbv zeta.
  set (stream := JS.nullish _ Probe.no_fields).
  destruct (Probe.width stream) as [w|], (Probe.coded_width stream) as [cw|],
           (Probe.height stream) as [h|], (Probe.coded_height stream) as [ch|];
    cbn [JS.of_field JS.truthy negb orb];
    repeat match goal with
           | |- context [?z =? 0] => destruct (z =? 0)
           end;
    reflexivity.
Qed.

Lemma postProcessRecording_run (env : Env) (inputPath outputPath : string)
    (start end_ : Q) (cropParameters : list Crop.CropParameters)
    (count : JS.number) :
  fst (Async.run (getStreamCount env inputPath)) = Resolved count ->
  Async.run
    (postProcessRecording env inputPath outputPath start end_ cropParameters)
  = let probed := fst (Async.run (getVideoDimensions env inputPath)) in
    let probes :=
      snd (Async.run (getStreamCount env inputPath))
      ++ snd (Async.run (getVideoDimensions env inputPath))
      ++ match probed with
         | Resolved _ => []
         | Rejected _ =>
             [ Logged warn
                 ("Unable to determine video dimensions; falling back to "
                  ++ showZ env 1920 ++ "x" ++ showZ env 1080) ]
         end in
    let args :=
      getFfmpegPostProcessArguments env inputPath outputPath start end_
        cropParameters (JS.num_gtb count (Some 2))
        match probed with Resolved dims => dim_width dims | Rejected _ => 1920 end
        match probed with Resolved dims => dim_height dims | Rejected _ => 1080 end
    in
    match ffmpeg env (strings args) with
    | Resolved _ => (Resolved tt, probes ++ ffmpeg_run env probes args)
    | Rejected e =>
        ( Rejected e,
          probes
          ++ [ Logged debug ("Invoking ffmpeg with args: " ++ join " " args);
               Executed "ffmpeg" (strings args) ] )
    end.
Proof.
  intros Hcount. cbv zeta.
  unfold Async.run, postProcessRecording.
  unfold Async.bind at 1. rewrite getStreamCount_run, Hcount.
  unfold Async.bind at 1. unfold Async.try_catch.
  unfold Async.bind at 1. rewrite getVideoDimensions_run.
  unfold Async.run.
  destruct (getVideoDimensions env inputPath []) as [[dims|err] probe_events];
    cbn [fst snd];
    unfold Async.bind, Async.log, Async.execute, Async.ret, Async.read,
      ffmpeg_run, done_in, FULL_CROP_WIDTH;
    cbn [app fst snd dim_width dim_height];
    destruct (ffmpeg env _); rewrite <- ?app_assoc; cbn [app];
    rewrite <- ?app_assoc; reflexivity.
Qed.

(** C8 (as amended).  [getVideoDimensions] takes each dimension from the
    primary field when that field is present and from the coded field
    when it is absent, each dimension on its own; it returns the pair when
    both dimensions are then present and non-zero, and fails otherwise.
    In particular it returns the primary width and height when both are
    present and non-zero, the coded ones when the primary fields are
    absent, and fails when neither pair is present and when a primary
    field is present with value 0.  [postProcessRecording] catches a
    failure of [getVideoDimensions]: it then logs a warning, runs ffmpeg
    with the arguments for 1920x1080 and ends as that run ends. *)
Theorem getVideoDimensions_fallback (env : Env) (path : string) :
  (forall out stream,
      ffprobe env (strings (getVideoDimensions_args path)) = Resolved out ->
      JS.nullish (JS.head (JS.nullish (Probe.streams out) [])) Probe.no_fields
      = stream ->
      fst (Async.run (getVideoDimensions env path))
      = match
          match Probe.width stream with
          | Some w => Some w
          | None => Probe.coded_width stream
          end,
          match Probe.height stream with
          | Some h => Some h
          | None => Probe.coded_height stream
          end
        with
        | Some w, Some h =>
            if (w =? 0) || (h =? 0)
            then Rejected "Unable to read video dimensions"
            else Resolved {| dim_width := w; dim_height := h |}
        | _, _ => Rejected "Unable to read video dimensions"
        end
      /\ (forall w h,
            Probe.width stream = Some w -> Probe.height stream = Some h ->
            w <> 0 -> h <> 0 ->
            fst (Async.run (getVideoDimensions env path))
            = Resolved {| dim_width := w; dim_height := h |})
      /\ (forall w h,
            Probe.width stream = None -> Probe.height stream = None ->
            Probe.coded_width stream = Some w ->
            Probe.coded_height stream = Some h ->
            w <> 0 -> h <> 0 ->
            fst (Async.run (getVideoDimensions env path))
            = Resolved {| dim_width := w; dim_height := h |})
      /\ (forall w h,
            Probe.width stream = Some w -> Probe.height stream = None ->
            Probe.coded_height stream = Some h ->
            w <> 0 -> h <> 0 ->
            fst (Async.run (getVideoDimensions env path))
            = Resolved {| dim_width := w; dim_height := h |})
      /\ (forall w h,
            Probe.width stream = None -> Probe.height stream = Some h ->
            Probe.coded_width stream = Some w ->
            w <> 0 -> h <> 0 ->
            fst (Async.run (getVideoDimensions env path))
            = Resolved {| dim_width := w; dim_height := h |})
      /\ (Probe.width stream = None /\ Probe.coded_width stream = None
          \/ Probe.height stream = None /\ Probe.coded_height stream = None ->
          fst (Async.run (getVideoDimensions env path))
          = Rejected "Unable to read video dimensions")
      /\ (Probe.width stream = Some 0 \/ Probe.height stream = Some 0
          \/ Probe.width stream = None /\ Probe.coded_width stream = Some 0
          \/ Probe.height stream = None /\ Probe.coded_height stream = Some 0 ->
          fst (Async.run (getVideoDimensions env path))
          = Rejected "Unable to read video dimensions"))
  /\ (forall err,
        ffprobe env (strings (getVideoDimensions_args path)) = Rejected err ->
        fst (Async.run (getVideoDimensions env path)) = Rejected err)
  /\ (forall outputPath start end_ cropParameters count err,
        fst (Async.run (getStreamCount env path)) = Resolved count ->
        fst (Async.run (getVideoDimensions env path)) = Rejected err ->
        let args :=
          getFfmpegPostProcessArguments env path outputPath start end_
            cropParameters (JS.num_gtb count (Some 2)) 1920 1080 in
        fst (Async.run
               (postProcessRecording env path outputPath start end_
                  cropParameters))
        = match ffmpeg env (strings args) with
          | Resolved _ => Resolved tt
          | Rejected e => Rejected e
          end
        /\ In (Logged warn
                 ("Unable to determine video dimensions; falling back to "
                  ++ showZ env 1920 ++ "x" ++ showZ env 1080))
              (snd (Async.run
                      (postProcessRecording env path outputPath start end_
                         cropParameters)))
        /\ In (Executed "ffmpeg" (strings args))
              (snd (Async.run
                      (postProcessRecording env path outputPath start end_
                         cropParameters)))).
Proof.
  split; [|split].
  - intros out stream Hout Hstream.
    pose proof (getVideoDimensions_result env path out Hout) as H.
    cbv zeta in H. rewrite Hstream in H. rewrite H. clear H.
    split; [reflexivity|].
    split; [|split; [|split; [|split; [|split]]]].
    + intros w h Hw Hh Hw0 Hh0. rewrite Hw, Hh.
      apply Z.eqb_neq in Hw0, Hh0. rewrite Hw0, Hh0. reflexivity.
    + intros w h Hw Hh Hcw Hch Hw0 Hh0. rewrite Hw, Hh, Hcw, Hch.
      apply Z.eqb_neq in Hw0, Hh0. rewrite Hw0, Hh0. reflexivity.
    + intros w h Hw Hh Hch Hw0 Hh0. rewrite Hw, Hh, Hch.
      apply Z.eqb_neq in Hw0, Hh0. rewrite Hw0, Hh0. reflexivity.
    + intros w h Hw Hh Hcw Hw0 Hh0. rewrite Hw, Hh, Hcw.
      apply Z.eqb_neq in Hw0, Hh0. rewrite Hw0, Hh0. reflexivity.
    + intros [[Hw Hcw]|[Hh Hch]].
      * rewrite Hw, Hcw. reflexivity.
      * rewrite Hh, Hch.
        destruct (Probe.width stream), (Probe.coded_width stream);
          reflexivity.
    + intros [Hw|[Hh|[[Hw Hcw]|[Hh Hch]]]].
      * rewrite Hw.
        destruct (Probe.height stream), (Probe.coded_height stream);
          reflexivity.
      * rewrite Hh.
        destruct (Probe.width stream) as [w|],
                 (Probe.coded_width stream) as [cw|];
          try reflexivity; cbn [Z.eqb orb]; rewrite orb_true_r; reflexivity.
      * rewrite Hw, Hcw.
        destruct (Probe.height stream), (Probe.coded_height stream);
          reflexivity.
      * rewrite Hh, Hch.
        destruct (Probe.width stream) as [w|],
                 (Probe.coded_width stream) as [cw|];
          try reflexivity; cbn [Z.eqb orb]; rewrite orb_true_r; reflexivity.
  - intros err Herr.
    unfold Async.run, getVideoDimensions, Async.bind, Async.log, Async.execute.
    cbn [app]. rewrite Herr. reflexivity.
  - intros outputPath start end_ crop count err Hcount Hdims args.
    rewrite (postProcessRecording_run env path outputPath start end_ crop
               count Hcount).
    cbv zeta. rewrite Hdims. fold args. unfold ffmpeg_run.
    destruct (ffmpeg env (strings args)); cbn [fst snd];
      (split; [reflexivity|]);
      split; rewrite !in_app_iff; cbn [In]; auto 10.
Qed.

Lemma getVideoDimensions_fallback_witness :
  fst (Async.run (getVideoDimensions (probe_env full_hd_stream) "in.mp4"))
  = Resolved {| dim_width := 1920; dim_height := 1080 |}
  /\ fst (Async.run (getVideoDimensions (probe_env coded_only_stream) "in.mp4"))
     = Resolved {| dim_width := 1280; dim_height := 720 |}
  /\ fst (Async.run (getVideoDimensions (probe_env coded_height_stream) "in.mp4"))
     = Resolved {| dim_width := 1920; dim_height := 1088 |}
  /\ fst (Async.run (getVideoDimensions (probe_env Probe.no_fields) "in.mp4"))
     = Rejected "Unable to read video dimensions"
  /\ fst (Async.run
            (postProcessRecording (probe_env Probe.no_fields)
               "in.mp4" "out.mp4" 1500 0 [])) = Resolved tt.
Proof.
  split; [|split; [|split; [|split]]].
  - destruct (proj1 (getVideoDimensions_fallback (probe_env full_hd_stream) "in.mp4")
                (probe_answer full_hd_stream) full_hd_stream eq_refl eq_refl)
      as [_ [Hprimary _]].
    apply Hprimary; [reflexivity | reflexivity | lia | lia].
  - destruct (proj1 (getVideoDimensions_fallback (probe_env coded_only_stream) "in.mp4")
                (probe_answer coded_only_stream) coded_only_stream eq_refl eq_refl)
      as [_ [_ [Hcoded _]]].
    apply Hcoded; [reflexivity | reflexivity | reflexivity | reflexivity | lia | lia].
  - destruct (proj1 (getVideoDimensions_fallback (probe_env coded_height_stream) "in.mp4")
                (probe_answer coded_height_stream) coded_height_stream
                eq_refl eq_refl)
      as [_ [_ [_ [Hmixed _]]]].
    apply Hmixed; [reflexivity | reflexivity | reflexivity | lia | lia].
  - destruct (proj1 (getVideoDimensions_fallback (probe_env Probe.no_fields) "in.mp4")
                (probe_answer Probe.no_fields) Probe.no_fields eq_refl eq_refl)
      as [_ [_ [_ [_ [_ [Hnone _]]]]]].
    apply Hnone. left. split; reflexivity.
  - apply (proj2 (proj2 (getVideoDimensions_fallback (probe_env Probe.no_fields)
                           "in.mp4"))
             "out.mp4" 1500%Q 0%Q [] (Some 3)
             "Unable to read video dimensions" eq_refl eq_refl).
Defined.

(** C8, the claim as stated fails: a stream whose primary width is
    present with value 0 (and whose coded dimensions are present) makes
    [getVideoDimensions] fail; it neither returns the primary fields nor
    falls back to the coded ones. *)
Lemma getVideoDimensions_rejects_zero_width :
  Probe.width zero_width_stream = Some 0
  /\ Probe.height zero_width_stream = Some 1080
  /\ fst (Async.run (getVideoDimensions (probe_env zero_width_stream) "in.mp4"))
     = Rejected "Unable to read video dimensions".
Proof.
  repeat split.
Qed.

(* ================================================================== *)
(** * Part II, continued: further properties of the code              *)
(* ================================================================== *)

(** ** What the patterns capture *)

Lemma in_bind {A B} (p : Regex.Pattern A) (f : A -> Regex.Pattern B)
    (s : string) (x : B * string) :
  In x (Regex.bind p f s) ->
  exists a rest, In (a, rest) (p s) /\ In x (f a rest).
Proof.
  unfold Regex.bind. rewrite in_flat_map.
  intros [[a rest] [Hp Hf]]. exists a, rest. split; assumption.
Qed.

Lemma in_ret {A} (v : A) (s : string) (x : A * string) :
  In x (Regex.ret v s) -> fst x = v.
Proof. intros [<-|[]]. reflexivity. Qed.

Lemma plus_captures (cls : ascii -> bool) (s : string) :
  forall m rest,
    In (m, rest) (Regex.plus cls s) ->
    m <> EmptyString /\ all_chars cls m = true.
Proof.
  induction s as [|c s IH]; intros m rest H; [destruct H|].
  cbn [Regex.plus] in H. destruct (cls c) eqn:Hc; [|destruct H].
  apply in_app_or in H. destruct H as [H|H].
  - apply in_map_iff in H. destruct H as [[m' rest'] [Heq Hin]].
    injection Heq as <- <-. destruct (IH _ _ Hin) as [_ Hall].
    split; [discriminate|]. cbn [all_chars]. rewrite Hc, Hall. reflexivity.
  - destruct H as [H|[]]. injection H as <- <-.
    split; [discriminate|]. cbn [all_chars]. rewrite Hc. reflexivity.
Qed.

Lemma exec_some {A} (p : Regex.Pattern A) (s : string) (a : A) :
  Regex.exec p s = Some a -> exists s' rest, In (a, rest) (p s').
Proof.
  induction s as [|c s IH]; cbn [Regex.exec].
  - destruct (p EmptyString) as [|[a' rest] l] eqn:E; [discriminate|].
    intros H. injection H as <-. exists EmptyString, rest.
    rewrite E. left. reflexivity.
  - destruct (p (String c s)) as [|[a' rest] l] eqn:E; [exact IH|].
    intros H. injection H as <-. exists (String c s), rest.
    rewrite E. left. reflexivity.
Qed.

Lemma span_digits_all_digits (m : string) :
  all_chars JS.is_digit m = true -> JS.span_digits m = (m, EmptyString).
Proof.
  induction m as [|c m IH]; [reflexivity|].
  cbn [all_chars JS.span_digits]. intros H.
  apply andb_true_iff in H. destruct H as [Hc Hm].
  rewrite Hc, (IH Hm). reflexivity.
Qed.

Lemma parseInt_digits (m : string) :
  m <> EmptyString -> all_chars JS.is_digit m = true ->
  JS.parseInt m = Some (JS.digits_value 0 m).
Proof.
  intros Hne Hall. unfold JS.parseInt.
  rewrite (span_digits_all_digits m Hall).
  destruct m; [contradiction|reflexivity].
Qed.

Ltac open_pattern H :=
  repeat (let a := fresh "a" in
          let r := fresh "r" in
          let Hp := fresh "Hp" in
          apply in_bind in H; destruct H as (a & r & Hp & H));
  apply in_ret in H; cbn [fst] in H.

Lemma blackframe_groups_digits (line : string) (g : BlackframeGroups) :
  Regex.exec BLACKFRAME_FILTER_OUTPUT_PATTERN line = Some g ->
  (g_filterNum g <> EmptyString /\ all_chars JS.is_digit (g_filterNum g) = true)
  /\ (g_frame g <> EmptyString /\ all_chars JS.is_digit (g_frame g) = true).
Proof.
  intros H. apply exec_some in H. destruct H as (s' & rest & H).
  unfold BLACKFRAME_FILTER_OUTPUT_PATTERN in H.
  open_pattern H. subst g. cbn [g_filterNum g_frame].
  split; eapply plus_captures; eassumption.
Qed.

Lemma in_filter_truthy_map {A B} (f : A -> option B) (l : list A) (b : B) :
  In b (JS.filter_truthy (map f l)) <-> exists a, In a l /\ f a = Some b.
Proof.
  induction l as [|a l IH]; cbn [map JS.filter_truthy].
  - split; [intros []|intros [a [[] _]]].
  - destruct (f a) as [b'|] eqn:E.
    + cbn [In]. rewrite IH. split.
      * intros [Hb|[a' [Hin Hf]]].
        -- exists a. split; [left; reflexivity|congruence].
        -- exists a'. split; [right; exact Hin|exact Hf].
      * intros [a' [[Ha|Hin] Hf]].
        -- left. congruence.
        -- right. exists a'. split; assumption.
    + rewrite IH. split.
      * intros [a' [Hin Hf]]. exists a'. split; [right; exact Hin|exact Hf].
      * intros [a' [[Ha|Hin] Hf]]; [congruence|].
        exists a'. split; assumption.
Qed.

Lemma digits_value_nonneg (m : string) :
  all_chars JS.is_digit m = true ->
  forall acc, 0 <= acc -> 0 <= JS.digits_value acc m.
Proof.
  induction m as [|c m IH]; intros Hall acc Hacc; [exact Hacc|].
  cbn [all_chars] in Hall. apply andb_true_iff in Hall.
  destruct Hall as [Hc Hm]. cbn [JS.digits_value]. apply (IH Hm).
  unfold JS.is_digit in Hc. apply andb_true_iff in Hc.
  destruct Hc as [Hc _]. apply Nat.leb_le in Hc.
  unfold JS.digit_value. lia.
Qed.

Lemma parsed_events_numeric (lines : list string) (e : BlackframeOutput) :
  In e (parsed_events lines) ->
  exists f n, filterNum e = Some f /\ frameNum e = Some n /\ 0 <= f /\ 0 <= n.
Proof.
  unfold parsed_events. rewrite in_map_iff.
  intros [g [<- Hg]]. apply in_filter_truthy_map in Hg.
  destruct Hg as [line [_ Hexec]].
  destruct (blackframe_groups_digits line g Hexec) as [[Hf1 Hf2] [Hn1 Hn2]].
  exists (JS.digits_value 0 (g_filterNum g)), (JS.digits_value 0 (g_frame g)).
  unfold blackframe_of_groups. cbn [filterNum frameNum].
  rewrite (parseInt_digits _ Hf1 Hf2), (parseInt_digits _ Hn1 Hn2).
  repeat split; try reflexivity; apply digits_value_nonneg; assumption || lia.
Qed.

Lemma selected_events_sort (lines : list string) (s : FrameSearchStrategy)
    (w : IntervalTree.t) :
  selected_events lines s w
  = JS.sort (compareFunc ["filterNum"; "frame"]) (gated_events lines s w).
Proof. reflexivity. Qed.

Lemma in_selected_events (lines : list string) (s : FrameSearchStrategy)
    (w : IntervalTree.t) (e : BlackframeOutput) :
  In e (selected_events lines s w) <->
  In e (parsed_events lines)
  /\ JS.includes (filters s) (filterNum e) = true
  /\ silence_gate s w e = true.
Proof.
  rewrite selected_events_sort.
  split.
  - intros H. apply (Permutation_in _ (Permutation_sym (sort_permutation _ _))) in H.
    unfold gated_events in H. rewrite !filter_In in H. tauto.
  - intros H. apply (Permutation_in _ (sort_permutation _ _)).
    unfold gated_events. rewrite !filter_In. tauto.
Qed.

(** X1.  Every event that enters run-grouping was parsed from a line,
    carries a filter id of the strategy and a frame number that are
    numbers (never [NaN]) and not negative, and passed the silence gate;
    and every parsed event with these properties enters run-grouping. *)
Theorem selected_events_characterised (lines : list string)
    (s : FrameSearchStrategy) (w : IntervalTree.t) (e : BlackframeOutput) :
  (In e (selected_events lines s w) <->
   In e (parsed_events lines)
   /\ JS.includes (filters s) (filterNum e) = true
   /\ silence_gate s w e = true)
  /\ (In e (selected_events lines s w) ->
      exists f n,
        filterNum e = Some f /\ In f (filters s)
        /\ frameNum e = Some n /\ 0 <= f /\ 0 <= n).
Proof.
  split; [apply in_selected_events|].
  intros H. apply in_selected_events in H. destruct H as [Hp [Hi _]].
  destruct (parsed_events_numeric lines e Hp) as (f & n & Hf & Hn & Hf0 & Hn0).
  exists f, n. rewrite Hf in Hi. cbn [JS.includes] in Hi.
  apply existsb_exists in Hi. destruct Hi as [f' [Hin Heq]].
  apply Z.eqb_eq in Heq. subst f'. auto 6.
Qed.

Lemma selected_events_characterised_witness :
  exists f n,
    filterNum (frame_event 11 100 10100) = Some f /\ In f [11]
    /\ frameNum (frame_event 11 100 10100) = Some n /\ 0 <= f /\ 0 <= n.
Proof.
  apply (proj2 (selected_events_characterised short_silence_lines
                  (strategy "black-logo" [11] (15 # 10) 5)
                  [ {| IntervalTree.low := Some 10000;
                       IntervalTree.high := Some 10500;
                       IntervalTree.data := Some 500 |} ]
                  (frame_event 11 100 10100))).
  vm_compute. left. reflexivity.
Defined.

(** ** What the sort does *)

Lemma compareFunc_filter (a b : BlackframeOutput) (x y : Z) :
  filterNum a = Some x -> filterNum b = Some y ->
  (compareFunc ["filterNum"; "frame"] a b <=? 0) = (x <=? y).
Proof.
  intros Ha Hb. cbn [compareFunc]. unfold get_property.
  cbn [String.eqb Ascii.eqb Bool.eqb]. rewrite Ha, Hb.
  cbn [JS.strict_eq JS.num_eqb JS.lt JS.to_number JS.num_ltb].
  destruct (Z.eqb_spec x y) as [->|Hne].
  - symmetry. apply Z.leb_le. lia.
  - destruct (Z.ltb_spec x y).
    + symmetry. apply Z.leb_le. lia.
    + symmetry. apply Z.leb_gt. lia.
Qed.

Lemma compareFunc_passes_over (f : Z) (a b : BlackframeOutput) :
  has_filter f a = true ->
  (compareFunc ["filterNum"; "frame"] a b <=? 0) = false ->
  has_filter f b = false.
Proof.
  unfold has_filter. intros Ha Hcmp.
  destruct (filterNum a) as [x|] eqn:Ea; [|discriminate].
  cbn [JS.num_eqb] in Ha. apply Z.eqb_eq in Ha. subst x.
  destruct (filterNum b) as [y|] eqn:Eb; [|reflexivity].
  rewrite (compareFunc_filter a b f y Ea Eb) in Hcmp.
  cbn [JS.num_eqb]. apply Z.eqb_neq. apply Z.leb_gt in Hcmp. lia.
Qed.

Lemma sort_insert_stable (f : Z) (x : BlackframeOutput)
    (l : list BlackframeOutput) :
  filter (has_filter f) (JS.sort_insert (compareFunc ["filterNum"; "frame"]) x l)
  = filter (has_filter f) (x :: l).
Proof.
  induction l as [|y l IH]; [reflexivity|].
  cbn [JS.sort_insert].
  destruct (compareFunc ["filterNum"; "frame"] x y <=? 0) eqn:Hcmp;
    [reflexivity|].
  cbn [filter] in *. rewrite IH.
  destruct (has_filter f x) eqn:Hx; [|reflexivity].
  rewrite (compareFunc_passes_over f x y Hx Hcmp). reflexivity.
Qed.

Lemma sort_stable (f : Z) (l : list BlackframeOutput) :
  filter (has_filter f) (JS.sort (compareFunc ["filterNum"; "frame"]) l)
  = filter (has_filter f) l.
Proof.
  induction l as [|x l IH]; [reflexivity|].
  unfold JS.sort in *. cbn [fold_right].
  rewrite sort_insert_stable. cbn [filter]. rewrite IH. reflexivity.
Qed.

Lemma sort_insert_sorted (x : BlackframeOutput) (l : list BlackframeOutput) :
  filterNum x <> None ->
  Forall (fun e => filterNum e <> None) l ->
  StronglySorted filter_le l ->
  StronglySorted filter_le
    (JS.sort_insert (compareFunc ["filterNum"; "frame"]) x l).
Proof.
  intros Hx Hall Hs. induction Hs as [|y l Hs IH Hy].
  - repeat constructor.
  - inversion Hall as [|? ? Hy' Hall']; subst.
    destruct (filterNum x) as [fx|] eqn:Ex; [|contradiction].
    destruct (filterNum y) as [fy|] eqn:Ey; [|contradiction].
    cbn [JS.sort_insert]. rewrite (compareFunc_filter x y fx fy Ex Ey).
    destruct (Z.leb_spec fx fy) as [Hle|Hgt].
    + constructor; [constructor; assumption|].
      constructor.
      * unfold filter_le. rewrite Ex, Ey. exact Hle.
      * rewrite Forall_forall in Hy |- *. intros z Hz.
        specialize (Hy z Hz). unfold filter_le in *.
        rewrite Ex. rewrite Ey in Hy.
        destruct (filterNum z); [lia|contradiction].
    + constructor; [apply IH; assumption|].
      rewrite Forall_forall in Hy |- *. intros z Hz.
      apply (Permutation_in _ (Permutation_sym (sort_insert_permutation _ x l)))
        in Hz.
      destruct Hz as [<-|Hz]; [|exact (Hy z Hz)].
      unfold filter_le. rewrite Ex, Ey. lia.
Qed.

Lemma sort_sorted (l : list BlackframeOutput) :
  Forall (fun e => filterNum e <> None) l ->
  StronglySorted filter_le (JS.sort (compareFunc ["filterNum"; "frame"]) l).
Proof.
  induction 1 as [|x l Hx Hall IH]; [constructor|].
  unfold JS.sort in *. cbn [fold_right].
  apply sort_insert_sorted; [exact Hx| |exact IH].
  rewrite Forall_forall in Hall |- *. intros z Hz.
  apply Hall. exact (Permutation_in _ (Permutation_sym (sort_permutation _ l)) Hz).
Qed.

Lemma gated_events_numeric (lines : list string) (s : FrameSearchStrategy)
    (w : IntervalTree.t) :
  Forall (fun e => filterNum e <> None) (gated_events lines s w).
Proof.
  rewrite Forall_forall. intros e He. unfold gated_events in He.
  rewrite !filter_In in He. destruct He as [[Hp _] _].
  destruct (parsed_events_numeric lines e Hp) as (f & _ & Hf & _).
  rewrite Hf. discriminate.
Qed.

(** X2.  The sort before run-grouping orders the events by filter id and
    nothing else: the result is a rearrangement of its input in which
    filter ids never decrease, and the events of any one filter id stay
    in the order of the lines (the frame number plays no part). *)
Theorem selected_events_sorted_by_filter (lines : list string)
    (s : FrameSearchStrategy) (w : IntervalTree.t) :
  Permutation (gated_events lines s w) (selected_events lines s w)
  /\ StronglySorted filter_le (selected_events lines s w)
  /\ (forall f,
        filter (has_filter f) (selected_events lines s w)
        = filter (has_filter f) (gated_events lines s w)).
Proof.
  rewrite selected_events_sort. split; [apply sort_permutation|]. split.
  - apply sort_sorted. apply gated_events_numeric.
  - intros f. apply sort_stable.
Qed.

(** X3.  For a strategy with a single filter id the sort changes nothing:
    the events enter run-grouping in the order of the lines.  Every
    strategy of the module (the seven boundary strategies and the banner
    strategy) has a single filter id. *)
Theorem single_filter_keeps_line_order :
  Forall (fun s => exists f, filters s = [f])
    (NEWS_BANNER_STRATEGY :: BOUNDARY_STRATEGIES)
  /\ (forall lines s w f,
        filters s = [f] ->
        selected_events lines s w = gated_events lines s w).
Proof.
  split.
  - repeat constructor; eexists; reflexivity.
  - intros lines s w f Hf. rewrite selected_events_sort.
    apply (sort_same_filter f).
    rewrite Forall_forall. intros e He. unfold gated_events in He.
    rewrite !filter_In in He. destruct He as [[Hp Hi] _].
    destruct (parsed_events_numeric lines e Hp) as (f' & _ & Hf' & _).
    rewrite Hf' in Hi |- *. rewrite Hf in Hi. cbn [JS.includes existsb] in Hi.
    rewrite orb_false_r in Hi. apply Z.eqb_eq in Hi. congruence.
Qed.

Lemma single_filter_keeps_line_order_witness :
  selected_events descending_lines NEWS_BANNER_STRATEGY IntervalTree.empty
  = gated_events descending_lines NEWS_BANNER_STRATEGY IntervalTree.empty.
Proof.
  apply (proj2 single_filter_keeps_line_order descending_lines
           NEWS_BANNER_STRATEGY IntervalTree.empty 13).
  reflexivity.
Defined.

(** ** Invariants of run-grouping *)

Lemma extends_greedy (M : Z) (lastFrame e : BlackframeOutput) :
  extends M lastFrame e = Spec.extends_run M lastFrame e.
Proof. apply andb_comm. Qed.

Lemma chained_snoc (M : Z) (run : list BlackframeOutput)
    (lastFrame e : BlackframeOutput) :
  JS.last run = Some lastFrame ->
  chained M run = true ->
  extends M lastFrame e = true ->
  chained M (run ++ [e]) = true.
Proof.
  induction run as [|a run IH]; [discriminate|].
  destruct run as [|b run].
  - intros Hl _ He. injection Hl as ->. cbn. rewrite He. reflexivity.
  - intros Hl Hc He. cbn [chained app] in *.
    apply andb_true_iff in Hc. destruct Hc as [Hab Hc].
    rewrite Hab. exact (IH Hl Hc He).
Qed.

Lemma runs_from_shape (M : Z) (events : list BlackframeOutput) :
  forall run lastFrame,
    JS.last run = Some lastFrame ->
    chained M run = true ->
    (exists more rest,
        Spec.runs_from M run lastFrame events = (run ++ more) :: rest)
    /\ List.concat (Spec.runs_from M run lastFrame events) = run ++ events
    /\ Forall (fun r => chained M r = true)
         (Spec.runs_from M run lastFrame events)
    /\ breaks_between M (Spec.runs_from M run lastFrame events) = true.
Proof.
  induction events as [|e events IH]; intros run lastFrame Hl Hc.
  - cbn [Spec.runs_from List.concat]. rewrite !app_nil_r.
    split; [exists [], []; rewrite app_nil_r; reflexivity|].
    split; [reflexivity|]. split; [repeat constructor; exact Hc|reflexivity].
  - cbn [Spec.runs_from].
    destruct (Spec.extends_run M lastFrame e) eqn:He.
    + destruct (IH (run ++ [e]) e (last_snoc run e)
                  (chained_snoc M run lastFrame e Hl Hc
                     (eq_trans (extends_greedy M lastFrame e) He)))
        as [[more [rest Hshape]] [Hcat [Hall Hbr]]].
      split; [exists (e :: more), rest; rewrite Hshape, <- app_assoc; reflexivity|].
      split; [rewrite Hcat, <- app_assoc; reflexivity|].
      split; assumption.
    + destruct (IH [e] e eq_refl eq_refl)
        as [[more [rest Hshape]] [Hcat [Hall Hbr]]].
      split; [exists [], (Spec.runs_from M [e] e events);
              rewrite app_nil_r; reflexivity|].
      split; [cbn [List.concat]; rewrite Hcat; reflexivity|].
      split; [constructor; assumption|].
      rewrite Hshape in Hbr |- *. cbn [breaks_between] in *.
      rewrite Hl. cbn [app JS.head]. rewrite extends_greedy, He.
      cbn [negb andb].
      exact Hbr.
Qed.

Lemma chained_same_filter (M : Z) (run : list BlackframeOutput)
    (h : BlackframeOutput) :
  chained M (h :: run) = true ->
  Forall (fun e => JS.num_eqb (filterNum e) (filterNum h) = true) run.
Proof.
  revert h. induction run as [|b run IH]; intros h Hc; [constructor|].
  cbn [chained] in Hc. apply andb_true_iff in Hc. destruct Hc as [Hab Hc].
  unfold extends in Hab. apply andb_true_iff in Hab.
  destruct Hab as [_ Heq].
  constructor; [exact Heq|].
  specialize (IH b Hc). rewrite Forall_forall in IH |- *.
  intros e He. specialize (IH e He).
  destruct (filterNum e), (filterNum b), (filterNum h); try discriminate.
  cbn [JS.num_eqb] in *. apply Z.eqb_eq in IH, Heq. apply Z.eqb_eq. lia.
Qed.

(** X4.  Run-grouping loses nothing and invents nothing: the runs, put
    end to end, are the events in the order received, and no run is
    empty. *)
Theorem group_frames_partition (s : FrameSearchStrategy)
    (events : list BlackframeOutput) :
  List.concat (group_frames s events) = events
  /\ Forall (fun run => run <> []) (group_frames s events).
Proof.
  split; [|apply group_frames_nonempty].
  rewrite group_frames_greedy. destruct events as [|e events]; [reflexivity|].
  cbn [Spec.greedy_runs].
  exact (proj1 (proj2 (runs_from_shape _ events [e] e eq_refl eq_refl))).
Qed.

(** X5.  Inside a run every event extends its predecessor (same filter
    id, frame number above the predecessor's by at most [maxSkip], 1 when
    the strategy has none), so a run never mixes filter ids; and a run
    ends only where the next event does not extend it. *)
Theorem group_frames_runs (s : FrameSearchStrategy)
    (events : list BlackframeOutput) :
  Forall (fun run => chained (JS.nullish (maxSkip s) 1) run = true)
    (group_frames s events)
  /\ Forall (fun run =>
               match run with
               | [] => True
               | h :: rest =>
                   Forall (fun e =>
                             JS.num_eqb (filterNum e) (filterNum h) = true) rest
               end)
       (group_frames s events)
  /\ breaks_between (JS.nullish (maxSkip s) 1) (group_frames s events) = true.
Proof.
  rewrite group_frames_greedy.
  assert (H : Forall (fun run => chained (JS.nullish (maxSkip s) 1) run = true)
                (Spec.greedy_runs (JS.nullish (maxSkip s) 1) events)
              /\ breaks_between (JS.nullish (maxSkip s) 1)
                   (Spec.greedy_runs (JS.nullish (maxSkip s) 1) events) = true).
  { destruct events as [|e events]; [split; [constructor|reflexivity]|].
    cbn [Spec.greedy_runs].
    destruct (runs_from_shape (JS.nullish (maxSkip s) 1) events [e] e
                eq_refl eq_refl) as [_ [_ [Hall Hbr]]].
    split; assumption. }
  destruct H as [Hall Hbr]. split; [exact Hall|]. split; [|exact Hbr].
  rewrite Forall_forall in Hall |- *. intros run Hrun.
  destruct run as [|h rest]; [exact I|].
  exact (chained_same_filter _ rest h (Hall _ Hrun)).
Qed.

Lemma qualifying_bound (M : Z) (runs : list (list BlackframeOutput)) :
  M * Z.of_nat
        (List.length
           (filter (fun run => Z.of_nat (List.length run) >=? M) runs))
  <= Z.of_nat (List.length (List.concat runs)).
Proof.
  induction runs as [|run runs IH]; [cbn; lia|].
  cbn [filter List.concat]. rewrite length_app.
  destruct (Z.geb_spec (Z.of_nat (List.length run)) M) as [Hge|Hlt];
    cbn [List.length]; lia.
Qed.

Lemma length_filter_truthy_map {A B} (f : A -> option B) (l : list A) :
  (List.length (JS.filter_truthy (map f l)) <= List.length l)%nat.
Proof.
  induction l as [|a l IH]; [apply Nat.le_refl|].
  cbn [map JS.filter_truthy]. destruct (f a); cbn [List.length]; lia.
Qed.

Lemma selected_events_length (lines : list string) (s : FrameSearchStrategy)
    (w : IntervalTree.t) :
  (List.length (selected_events lines s w) <= List.length lines)%nat.
Proof.
  rewrite selected_events_sort.
  rewrite <- (Permutation_length (sort_permutation _ _)).
  unfold gated_events, parsed_events.
  etransitivity; [apply filter_length_le|].
  etransitivity; [apply filter_length_le|].
  rewrite length_map. apply length_filter_truthy_map.
Qed.

(** X6.  The features that [findBlackframeGroups] returns are one per
    qualifying run, so their number times [minFrames] is at most the
    number of lines, and there are never more features than lines. *)
Theorem findBlackframeGroups_count (lines : list string)
    (s : FrameSearchStrategy) (w : IntervalTree.t) :
  List.length (findBlackframeGroups lines s w)
  = List.length (qualifying_runs s (selected_events lines s w))
  /\ minFrames s * Z.of_nat (List.length (findBlackframeGroups lines s w))
     <= Z.of_nat (List.length lines)
  /\ (List.length (findBlackframeGroups lines s w) <= List.length lines)%nat.
Proof.
  assert (Hlen : List.length (findBlackframeGroups lines s w)
                 = List.length (qualifying_runs s (selected_events lines s w))).
  { rewrite <- (length_map Some), findBlackframeGroups_features.
    apply length_map. }
  pose proof (selected_events_length lines s w) as Hsel.
  pose proof (group_frames_partition s (selected_events lines s w))
    as [Hcat Hne].
  split; [exact Hlen|]. split.
  - rewrite Hlen. unfold qualifying_runs.
    pose proof (qualifying_bound (minFrames s)
                  (group_frames s (selected_events lines s w))) as H.
    rewrite Hcat in H. lia.
  - rewrite Hlen. unfold qualifying_runs.
    etransitivity; [apply filter_length_le|].
    etransitivity; [|exact Hsel].
    rewrite <- Hcat at 2.
    clear -Hne. induction Hne as [|run runs Hrun _ IH]; [apply Nat.le_refl|].
    cbn [List.concat List.length]. rewrite length_app.
    destruct run; [contradiction|]. cbn [List.length]. lia.
Qed.

(** ** The silence index *)

Lemma same_interval_eq (lo hi d : Z) (r : IntervalTree.Interval) :
  IntervalTree.same_interval
    {| IntervalTree.low := Some lo; IntervalTree.high := Some hi;
       IntervalTree.data := Some d |} r = true ->
  r = {| IntervalTree.low := Some lo; IntervalTree.high := Some hi;
         IntervalTree.data := Some d |}.
Proof.
  destruct r as [[l|] [h|] [x|]]; unfold IntervalTree.same_interval;
    cbn [IntervalTree.low IntervalTree.high IntervalTree.data JS.num_eqb andb];
    intros H; try discriminate;
    try (rewrite ?andb_false_r in H; discriminate).
  apply andb_true_iff in H. destruct H as [H Hd].
  apply andb_true_iff in H. destruct H as [Hl Hh].
  apply Z.eqb_eq in Hl, Hh, Hd. subst. reflexivity.
Qed.

Lemma index_silences_contents (silences : list Silence) :
  forall tree tree',
    index_silences tree silences = Some tree' ->
    (forall r, In r tree -> In r tree')
    /\ (forall s a b,
          In s silences -> startTime s = Some a -> endTime s = Some b ->
          In (silence_record s) tree')
    /\ (forall r, In r tree' ->
          In r tree \/ exists s, In s silences /\ r = silence_record s).
Proof.
  induction silences as [|s silences IH]; intros tree tree' H.
  - injection H as <-. split; [auto|]. split; [intros ? ? ? []|auto].
  - cbn [index_silences] in H.
    destruct (IntervalTree.insert tree (startTime s) (endTime s)
                (JS.num_sub (endTime s) (startTime s))) as [t1|] eqn:Hi;
      [|discriminate].
    destruct (IH t1 tree' H) as [Hkeep [Hfound Horigin]].
    unfold IntervalTree.insert in Hi.
    destruct (JS.num_gtb (startTime s) (endTime s)); [discriminate|].
    fold (silence_record s) in Hi.
    destruct (existsb (IntervalTree.same_interval (silence_record s)) tree)
      eqn:Hex; injection Hi as <-.
    + split; [auto|]. split.
      * intros s' a b [<-|Hin] Ha Hb; [|eauto].
        apply existsb_exists in Hex. destruct Hex as [r [Hr Hsame]].
        unfold silence_record in Hsame |- *. rewrite Ha, Hb in Hsame |- *.
        cbn [JS.num_sub] in Hsame |- *.
        apply same_interval_eq in Hsame. subst r. auto.
      * intros r Hr. destruct (Horigin r Hr) as [Ht|[s' [Hs' ->]]];
          [left; exact Ht|right; exists s'; split; [right|]; auto].
    + split; [intros r Hr; apply Hkeep, in_or_app; left; exact Hr|]. split.
      * intros s' a b [<-|Hin] Ha Hb; [|eauto].
        apply Hkeep, in_or_app. right. left. reflexivity.
      * intros r Hr. destruct (Horigin r Hr) as [Ht|[s' [Hs' ->]]].
        -- apply in_app_or in Ht. destruct Ht as [Ht|[<-|[]]];
             [left; exact Ht|right; exists s; split; [left|]; reflexivity].
        -- right. exists s'. split; [right|]; auto.
Qed.

Lemma in_in_order (tree : IntervalTree.t) (r : IntervalTree.Interval) :
  In r (IntervalTree.in_order tree) <-> In r tree.
Proof.
  unfold IntervalTree.in_order. split; intros H.
  - eapply Permutation_in; [symmetry; apply sort_permutation|exact H].
  - eapply Permutation_in; [apply sort_permutation|exact H].
Qed.

Lemma search_point (tree : IntervalTree.t) (p : Z) (d : JS.number) :
  In d (IntervalTree.search tree (Some p) (Some p)) <->
  exists r a b,
    In r tree /\ IntervalTree.low r = Some a /\ IntervalTree.high r = Some b
    /\ a <= p <= b /\ IntervalTree.data r = d.
Proof.
  unfold IntervalTree.search. rewrite in_map_iff. split.
  - intros [r [Hd Hr]]. apply filter_In in Hr. destruct Hr as [Hr Ho].
    apply (proj1 (in_in_order _ _)) in Hr.
    unfold IntervalTree.overlaps, JS.num_leb in Ho.
    destruct (IntervalTree.low r) as [a|] eqn:Ea; [|discriminate].
    destruct (IntervalTree.high r) as [b|] eqn:Eb;
      [|rewrite andb_false_r in Ho; discriminate].
    apply andb_true_iff in Ho. destruct Ho as [H1 H2].
    apply Z.leb_le in H1, H2. exists r, a, b.
    repeat split; assumption.
  - intros (r & a & b & Hr & Ha & Hb & [H1 H2] & Hd).
    exists r. split; [exact Hd|]. apply filter_In.
    split; [apply in_in_order; exact Hr|].
    unfold IntervalTree.overlaps, JS.num_leb. rewrite Ha, Hb.
    apply andb_true_iff. split; apply Z.leb_le; assumption.
Qed.

(** X7.  The silences parsed from the engine's output can always be
    indexed (no insertion is refused), and the index answers for exactly
    those silences: a query at a point returns the duration [b - a] of
    each parsed silence [[a, b]] that contains the point, bounds included,
    and nothing else. *)
Theorem silence_index_lookup (lines : list string) :
  exists windows,
    index_silences IntervalTree.empty (findSilences lines) = Some windows
    /\ forall p d,
         In d (IntervalTree.search windows (Some p) (Some p)) <->
         exists s a b,
           In s (findSilences lines)
           /\ startTime s = Some a /\ endTime s = Some b
           /\ a <= p <= b /\ d = Some (b - a).
Proof.
  destruct (index_silences_total _ (findSilences_ordered lines)
              IntervalTree.empty) as [windows Hw].
  exists windows. split; [exact Hw|].
  destruct (index_silences_contents _ _ _ Hw) as [_ [Hfound Horigin]].
  intros p d. rewrite search_point. split.
  - intros (r & a & b & Hr & Ha & Hb & Hp & Hd).
    destruct (Horigin r Hr) as [[]|[s [Hs ->]]].
    cbn [silence_record IntervalTree.low IntervalTree.high IntervalTree.data]
      in Ha, Hb, Hd.
    exists s, a, b. rewrite Ha, Hb in Hd. cbn [JS.num_sub] in Hd. auto 6.
  - intros (s & a & b & Hs & Ha & Hb & Hp & ->).
    exists (silence_record s), a, b.
    split; [exact (Hfound s a b Hs Ha Hb)|].
    cbn [silence_record IntervalTree.low IntervalTree.high IntervalTree.data].
    rewrite Ha, Hb. auto.
Qed.

(** X8.  Under a strategy that asks for a positive silence length, an
    event enters run-grouping only if its time lies inside a parsed
    silence of non-zero length (bounds included): no boundary candidate
    of such a strategy lies outside the silences. *)
Theorem selected_events_inside_silence (lines : list string)
    (s : FrameSearchStrategy) (windows : IntervalTree.t)
    (q : Q) (e : BlackframeOutput) :
  index_silences IntervalTree.empty (findSilences lines) = Some windows ->
  minSilenceSeconds s = Some q ->
  (0 < q)%Q ->
  In e (selected_events lines s windows) ->
  exists sil a b t,
    In sil (findSilences lines)
    /\ startTime sil = Some a /\ endTime sil = Some b
    /\ time e = Some t /\ a <= t <= b /\ a < b.
Proof.
  intros Hw Hq Hpos He.
  apply in_selected_events in He. destruct He as [_ [_ Hgate]].
  rewrite silence_gate_unfold in Hgate.
  destruct (JS.head (IntervalTree.search windows (time e) (time e)))
    as [[d|]|] eqn:Hhead; try discriminate.
  - assert (Hin : In (Some d) (IntervalTree.search windows (time e) (time e))).
    { destruct (IntervalTree.search windows (time e) (time e)) as [|x l];
        [discriminate|]. injection Hhead as ->. left. reflexivity. }
    destruct (time e) as [t|] eqn:Et.
    + apply search_point in Hin.
      destruct Hin as (r & a & b & Hr & Ha & Hb & Hp & Hd).
      destruct (index_silences_contents _ _ _ Hw) as [_ [_ Horigin]].
      destruct (Horigin r Hr) as [[]|[sil [Hs ->]]].
      cbn [silence_record IntervalTree.low IntervalTree.high IntervalTree.data]
        in Ha, Hb, Hd.
      rewrite Ha, Hb in Hd. cbn [JS.num_sub] in Hd. injection Hd as <-.
      exists sil, a, b, t. apply negb_true_iff, Z.eqb_neq in Hgate.
      repeat split; try assumption; lia.
    + exfalso. unfold IntervalTree.search in Hin. apply in_map_iff in Hin.
      destruct Hin as [r [_ Hr]]. apply filter_In in Hr.
      destruct Hr as [_ Ho]. unfold IntervalTree.overlaps, JS.num_leb in Ho.
      destruct (IntervalTree.low r); discriminate.
  - rewrite Hq in Hgate. cbn [JS.nullish] in Hgate.
    apply Qle_bool_iff in Hgate. lra.
Qed.

Lemma selected_events_inside_silence_witness :
  exists sil a b t,
    In sil (findSilences short_silence_lines)
    /\ startTime sil = Some a /\ endTime sil = Some b
    /\ time (frame_event 11 100 10100) = Some t /\ a <= t <= b /\ a < b.
Proof.
  apply (selected_events_inside_silence short_silence_lines
           (strategy "black-logo" [11] (15 # 10) 5)
           [ {| IntervalTree.low := Some 10000;
                IntervalTree.high := Some 10500;
                IntervalTree.data := Some 500 |} ]
           (15 # 10) (frame_event 11 100 10100)).
  - vm_compute. reflexivity.
  - reflexivity.
  - reflexivity.
  - vm_compute. left. reflexivity.
Defined.

(** ** Failures of the detectors *)

Lemma detectPotentialBoundaries_rejected (env : Env) (path : string)
    (from : Q) (limit : option Q) (e : string) :
  ffmpeg env (strings (getFfmpegBoundaryDetectionArguments env path from limit))
  = Rejected e ->
  Async.run (detectPotentialBoundaries env path from limit)
  = ( Rejected e,
      [ Logged debug
          ("Invoking ffmpeg with args: "
           ++ join " " (getFfmpegBoundaryDetectionArguments env path from limit));
        Executed "ffmpeg"
          (strings (getFfmpegBoundaryDetectionArguments env path from limit)) ] ).
Proof.
  intros H.
  unfold Async.run, detectPotentialBoundaries, Async.bind, Async.log,
    Async.execute, Async.read.
  cbn [app]. rewrite H. reflexivity.
Qed.

Lemma detectPotentialBoundaries_resolved (env : Env) (path : string)
    (from : Q) (limit : option Q) (lines : list string) :
  ffmpeg env (strings (getFfmpegBoundaryDetectionArguments env path from limit))
  = Resolved lines ->
  exists features,
    fst (Async.run (detectPotentialBoundaries env path from limit))
    = Resolved features.
Proof.
  intros Hrun.
  unfold Async.run, detectPotentialBoundaries.
  unfold Async.bind, Async.log, Async.execute, Async.read.
  cbn [app]. rewrite Hrun. cbn [app].
  pose proof (findSilences_ordered lines) as Hord.
  destruct (findSilences lines) as [|s silences] eqn:E.
  - eexists. reflexivity.
  - destruct (index_silences_total _ Hord IntervalTree.empty) as [windows Hw].
    cbn [List.length Nat.eqb]. rewrite Hw, search_strategies_run.
    eexists. reflexivity.
Qed.

(** X9.  [detectPotentialBoundaries] fails exactly when the ffmpeg run
    fails, and then with that run's error, after one execution and
    without searching any strategy; whenever ffmpeg delivers its output,
    whatever the lines are, the function returns a list of features. *)
Theorem detectPotentialBoundaries_failure (env : Env) (path : string)
    (from : Q) (limit : option Q) :
  match
    ffmpeg env (strings (getFfmpegBoundaryDetectionArguments env path from limit))
  with
  | Rejected e =>
      Async.run (detectPotentialBoundaries env path from limit)
      = ( Rejected e,
          [ Logged debug
              ("Invoking ffmpeg with args: "
               ++ join " "
                    (getFfmpegBoundaryDetectionArguments env path from limit));
            Executed "ffmpeg"
              (strings
                 (getFfmpegBoundaryDetectionArguments env path from limit)) ] )
  | Resolved lines =>
      exists features,
        fst (Async.run (detectPotentialBoundaries env path from limit))
        = Resolved features
  end.
Proof.
  destruct (ffmpeg env _) as [lines|e] eqn:H.
  - exact (detectPotentialBoundaries_resolved env path from limit lines H).
  - exact (detectPotentialBoundaries_rejected env path from limit e H).
Qed.

(** ** Banner and crop detection *)

Lemma silence_gate_no_gating (s : FrameSearchStrategy) (e : BlackframeOutput) :
  minSilenceSeconds s = None ->
  silence_gate s IntervalTree.empty e = true.
Proof.
  intros H. rewrite silence_gate_unfold.
  unfold IntervalTree.search, IntervalTree.in_order, IntervalTree.empty.
  cbn [JS.sort fold_right filter map JS.head].
  rewrite H. reflexivity.
Qed.

Lemma filter_all {A} (f : A -> bool) (l : list A) :
  (forall x, f x = true) -> filter f l = l.
Proof.
  intros H. induction l as [|x l IH]; [reflexivity|].
  cbn [filter]. rewrite H, IH. reflexivity.
Qed.

Lemma banner_events (lines : list string) :
  selected_events lines NEWS_BANNER_STRATEGY IntervalTree.empty
  = filter (fun e => JS.includes [13] (filterNum e)) (parsed_events lines).
Proof.
  rewrite selected_events_sort.
  assert (Hg : gated_events lines NEWS_BANNER_STRATEGY IntervalTree.empty
               = filter (fun e => JS.includes [13] (filterNum e))
                   (parsed_events lines)).
  { unfold gated_events. apply filter_all.
    intros e. apply silence_gate_no_gating. reflexivity. }
  rewrite Hg. apply (sort_same_filter 13).
  rewrite Forall_forall. intros e He. apply filter_In in He.
  destruct He as [_ Hi]. destruct (filterNum e) as [f|]; [|discriminate].
  cbn [JS.includes existsb] in Hi. rewrite orb_false_r in Hi.
  apply Z.eqb_eq in Hi. congruence.
Qed.

(** X10.  [detectNewsBanners] fails exactly when its ffmpeg run fails,
    with that error.  Otherwise its features are the qualifying runs of
    the banner strategy among the frame events of filter 13, taken in the
    order of the lines: no silence gates them and the sort does not move
    them. *)
Theorem detectNewsBanners_result (env : Env) (path : string) :
  fst (Async.run (detectNewsBanners env path)) =
  match
    ffmpeg env (strings (getFfmpegNewsBannerDetectionArguments env path))
  with
  | Rejected e => Rejected e
  | Resolved lines =>
      Resolved
        (JS.filter_truthy
           (map feature_of_group
              (qualifying_runs NEWS_BANNER_STRATEGY
                 (filter (fun e => JS.includes [13] (filterNum e))
                    (parsed_events lines)))))
  end.
Proof.
  unfold Async.run, detectNewsBanners, Async.bind, Async.log, Async.execute,
    Async.ret, Async.read.
  cbn [app]. destruct (ffmpeg env _) as [lines|e]; [|reflexivity].
  cbn [fst]. unfold findBlackframeGroups.
  rewrite banner_events. reflexivity.
Qed.

Lemma cropdetect_groups_digits (line : string) (g : CropdetectGroups) :
  Regex.exec CROPDETECT_FILTER_OUTPUT_PATTERN line = Some g ->
  c_width g <> EmptyString /\ all_chars JS.is_digit (c_width g) = true.
Proof.
  intros H. apply exec_some in H. destruct H as (s' & rest & H).
  unfold CROPDETECT_FILTER_OUTPUT_PATTERN in H.
  open_pattern H. subst g. cbn [c_width].
  eapply plus_captures; eassumption.
Qed.

(** X11.  Every crop observation that [detectCropArea] reads from the
    engine's output has a width that is a number (never [NaN]) and not
    negative, so it can be handed to the filter-graph builder as it is;
    its time, when it is a number, is not negative; and there is at most
    one observation per line. *)
Theorem findCropAreas_numeric (lines : list string) :
  Forall (fun c =>
            (exists w,
                CropArea.width c = Some w /\ 0 <= w
                /\ to_CropParameters c
                   = Some {| Crop.time := CropArea.time c; Crop.width := w |})
            /\ (forall t, CropArea.time c = Some t -> (0 <= t)%Q))
    (findCropAreas lines)
  /\ (List.length (findCropAreas lines) <= List.length lines)%nat
  /\ (forall env path from limit,
        ffmpeg env
          (strings (getFfmpegCropDetectionArguments env path from limit))
        = Resolved lines ->
        fst (Async.run (detectCropArea env path from limit))
        = Resolved (findCropAreas lines)).
Proof.
  split; [|split].
  3: { intros env path from limit H.
       unfold Async.run, detectCropArea, Async.bind, Async.log, Async.execute,
         Async.ret, Async.read.
       cbn [app]. rewrite H. reflexivity. }
  - rewrite Forall_forall. intros c Hc. unfold findCropAreas in Hc.
    apply in_map_iff in Hc. destruct Hc as [g [<- Hg]].
    apply in_filter_truthy_map in Hg. destruct Hg as [line [_ Hexec]].
    destruct (cropdetect_groups_digits line g Hexec) as [Hne Hall].
    split.
    + exists (JS.digits_value 0 (c_width g)).
      unfold to_CropParameters, crop_of_groups. cbn [CropArea.width CropArea.time].
      rewrite (parseInt_digits _ Hne Hall).
      repeat split. apply digits_value_nonneg; [exact Hall|lia].
    + intros t Ht. unfold crop_of_groups in Ht. cbn [CropArea.time] in Ht.
      destruct (JS.parseFloat (c_time g)) as [q|] eqn:Eq; [|discriminate].
      injection Ht as <-. apply parseFloat_nonneg in Eq.
      unfold Binary64.mul. apply round_nonneg. nra.
  - unfold findCropAreas. rewrite length_map. apply length_filter_truthy_map.
Qed.

Lemma findCropAreas_numeric_witness :
  fst (Async.run
         (detectCropArea
            (example_env (Rejected "unused") (Resolved crop_lines))
            "in.mp4" 0%Q 30000%Q))
  = Resolved (findCropAreas crop_lines)
  /\ map (fun c => (option_map Qred (CropArea.time c), CropArea.width c))
       (findCropAreas crop_lines)
     = [ (Some 1500%Q, Some 1920); (Some 31031%Q, Some 1840) ].
Proof.
  split.
  - apply (proj2 (proj2 (findCropAreas_numeric crop_lines))
             (example_env (Rejected "unused") (Resolved crop_lines))
             "in.mp4" 0%Q 30000%Q eq_refl).
  - vm_compute. reflexivity.
Defined.

(** ** More on the time-varying expressions *)

Lemma generateTimeSequence_after_zero (env : Env) (calcValue : Z -> Z)
    (before : list Crop.CropParameters) (p0 : Crop.CropParameters)
    (dw dw' : Z) :
  truthy_time (Crop.time p0) = None ->
  forall later,
    generateTimeSequence env calcValue (before ++ p0 :: later) dw
    = generateTimeSequence env calcValue (p0 :: later) dw'.
Proof.
  intros Hzero later. induction later as [|p later IH] using rev_ind.
  - rewrite (generateTimeSequence_snoc env calcValue before p0 dw), Hzero.
    pose proof (generateTimeSequence_snoc env calcValue [] p0 dw') as H.
    rewrite Hzero in H. symmetry. exact H.
  - pose proof (generateTimeSequence_snoc env calcValue
                  (before ++ p0 :: later) p dw) as H1.
    rewrite <- app_assoc in H1. cbn [app] in H1.
    pose proof (generateTimeSequence_snoc env calcValue (p0 :: later) p dw')
      as H2.
    cbn [app] in H2. rewrite H1, H2, IH. reflexivity.
Qed.

(** X12.  [generateTimeSequence] reads the observations from the most
    recent one back to the first one whose time is 0 (or not a number)
    and no further: the observations before that one, and the default
    width, have no influence on the expression. *)
Theorem generateTimeSequence_ignores_before_zero (env : Env)
    (calcValue : Z -> Z) (before later : list Crop.CropParameters)
    (p0 : Crop.CropParameters) (defaultWidth defaultWidth' : Z) :
  truthy_time (Crop.time p0) = None ->
  generateTimeSequence env calcValue (before ++ p0 :: later) defaultWidth
  = generateTimeSequence env calcValue (p0 :: later) defaultWidth'.
Proof.
  intros H. apply generateTimeSequence_after_zero. exact H.
Qed.

Lemma generateTimeSequence_ignores_before_zero_witness :
  generateTimeSequence quiet_env (makeCalculateScaleWidth 1920)
    ([ {| Crop.time := Some 500%Q; Crop.width := 1700 |} ]
     ++ {| Crop.time := Some 0%Q; Crop.width := 1920 |} :: late_observation)
    1920
  = generateTimeSequence quiet_env (makeCalculateScaleWidth 1920)
      ({| Crop.time := Some 0%Q; Crop.width := 1920 |} :: late_observation)
      1280.
Proof.
  apply (generateTimeSequence_ignores_before_zero quiet_env
           (makeCalculateScaleWidth 1920)
           [ {| Crop.time := Some 500%Q; Crop.width := 1700 |} ]
           late_observation
           {| Crop.time := Some 0%Q; Crop.width := 1920 |} 1920 1280).
  reflexivity.
Defined.

Lemma Math_round_bounds (x : Q) :
  (inject_Z (JS.Math_round x) <= x + (1 # 2))%Q
  /\ (x - (1 # 2) < inject_Z (JS.Math_round x))%Q.
Proof.
  unfold JS.Math_round.
  pose proof (Qfloor_le (x + (1 # 2))) as H1.
  pose proof (Qlt_floor (x + (1 # 2))) as H2.
  rewrite inject_Z_plus in H2. change (inject_Z 1) with 1%Q in H2.
  split; [exact H1|]. lra.
Qed.

Lemma scale_quotient (cropWidth targetWidth : Z) :
  0 < cropWidth ->
  (inject_Z (targetWidth * targetWidth) / inject_Z cropWidth * inject_Z cropWidth
   == inject_Z targetWidth * inject_Z targetWidth)%Q.
Proof.
  intros Hc. rewrite inject_Z_mult. field.
  intros H. apply (Qeq_bool_neq (inject_Z cropWidth) 0); [|exact H].
  unfold Qeq_bool, inject_Z. cbn [Qnum Qden].
  apply Z.eqb_neq. lia.
Qed.

Lemma scale_times_crop (cropWidth targetWidth : Z) :
  0 < cropWidth ->
  targetWidth * targetWidth - cropWidth
  < makeCalculateScaleWidth targetWidth cropWidth * cropWidth
  <= targetWidth * targetWidth + cropWidth.
Proof.
  intros Hc. unfold makeCalculateScaleWidth.
  pose proof (scale_quotient cropWidth targetWidth Hc) as Hq.
  remember (inject_Z (targetWidth * targetWidth) / inject_Z cropWidth)%Q
    as q eqn:Eq.
  assert (Hh : (2 * (q / 2) == q)%Q) by field.
  remember (q / 2)%Q as h eqn:Eh.
  destruct (Math_round_bounds h) as [Hup Hlow].
  remember (JS.Math_round h) as r eqn:Er. clear Eq Eh Er.
  assert (HC : (0 < inject_Z cropWidth)%Q)
    by (unfold Qlt, inject_Z; cbn [Qnum Qden]; lia).
  assert (H1 : (0 < (2 * inject_Z r - q + 1) * inject_Z cropWidth)%Q)
    by (apply Qmult_lt_0_compat; lra).
  assert (H2 : (0 <= (q + 1 - 2 * inject_Z r) * inject_Z cropWidth)%Q)
    by (apply Qmult_le_0_compat; lra).
  split.
  - rewrite Zlt_Qlt.
    unfold Z.sub.
    rewrite !inject_Z_mult, inject_Z_plus, inject_Z_opp, inject_Z_mult.
    change (inject_Z 2) with 2%Q. nra.
  - rewrite Zle_Qle.
    rewrite !inject_Z_mult, inject_Z_plus, inject_Z_mult.
    change (inject_Z 2) with 2%Q. nra.
Qed.

(** X13.  For a positive crop width the scaled width is the quotient
    [targetWidth^2 / cropWidth] to within one pixel.  When the crop is
    not wider than the (positive) target, the scaled width is at least
    the target width, so the final crop to the target width fits, and the
    overlay offset is not positive; when the crop width equals an even
    target width the scaled width is the target width itself. *)
Theorem scale_width_bounds (cropWidth targetWidth : Z) :
  0 < cropWidth ->
  0 < targetWidth ->
  (targetWidth * targetWidth - cropWidth
   < makeCalculateScaleWidth targetWidth cropWidth * cropWidth
   <= targetWidth * targetWidth + cropWidth)
  /\ (cropWidth <= targetWidth ->
      targetWidth <= makeCalculateScaleWidth targetWidth cropWidth
      /\ makeCalculateOverlayPosition targetWidth cropWidth <= 0)
  /\ (cropWidth = targetWidth -> Z.even targetWidth = true ->
      makeCalculateScaleWidth targetWidth cropWidth = targetWidth
      /\ makeCalculateOverlayPosition targetWidth cropWidth = 0).
Proof.
  intros Hc Ht.
  pose proof (scale_times_crop cropWidth targetWidth Hc) as Hs.
  split; [exact Hs|]. split.
  - intros Hle. split; [nia|].
    unfold makeCalculateOverlayPosition.
    assert (Hd : (inject_Z (cropWidth - targetWidth) <= 0)%Q)
      by (unfold Qle, inject_Z; cbn [Qnum Qden]; lia).
    assert (Hh : (2 * (inject_Z (cropWidth - targetWidth) / 2)
                  == inject_Z (cropWidth - targetWidth))%Q) by field.
    remember (inject_Z (cropWidth - targetWidth) / 2)%Q as h eqn:Eh.
    destruct (Math_round_bounds h) as [Hup _].
    assert (H1 : (inject_Z (JS.Math_round h) < inject_Z 1)%Q)
      by (change (inject_Z 1) with 1%Q; lra).
    rewrite <- Zlt_Qlt in H1. lia.
  - intros -> Heven. split.
    + assert (Hev : Z.even (makeCalculateScaleWidth targetWidth targetWidth)
                    = true)
        by (unfold makeCalculateScaleWidth; rewrite Z.mul_comm;
            apply Z.even_even).
      apply Z.even_spec in Heven, Hev.
      destruct Heven as [a Ha], Hev as [b Hb]. nia.
    + unfold makeCalculateOverlayPosition. rewrite Z.sub_diag. reflexivity.
Qed.

Lemma scale_width_bounds_witness :
  1920 <= makeCalculateScaleWidth 1920 1800
  /\ makeCalculateOverlayPosition 1920 1800 <= 0.
Proof.
  apply (proj1 (proj2 (scale_width_bounds 1800 1920 ltac:(lia) ltac:(lia)))).
  lia.
Defined.

(** ** Argument vectors are flat *)

Lemma flat_texts (depth : nat) :
  forall l,
    forallb (depth_le depth) l = true ->
    Forall (fun a => exists s, a = Str s) (flat depth l).
Proof.
  induction depth as [|d IH]; intros l H.
  - cbn [flat]. rewrite Forall_forall. intros a Ha.
    rewrite forallb_forall in H. specialize (H a Ha).
    destruct a as [s|xs]; [exists s; reflexivity|discriminate].
  - cbn [flat]. induction l as [|a l IHl]; [constructor|].
    cbn [forallb] in H. apply andb_true_iff in H. destruct H as [Ha Hl].
    cbn [flat_map]. apply Forall_app. split; [|exact (IHl Hl)].
    destruct a as [s|xs].
    + constructor; [exists s; reflexivity|constructor].
    + apply IH. exact Ha.
Qed.

Ltac check_depth :=
  cbn [forallb]; rewrite ?andb_true_iff; repeat split;
  unfold threads, metadata, pair_;
  repeat match goal with
         | |- context [if ?c then _ else _] => destruct c
         | |- context [match ?c with Some _ => _ | None => _ end] => destruct c
         end;
  reflexivity.

(** X14.  Every argument vector that the module builds for ffprobe and
    ffmpeg is flat: after the flattening of the source (one level, two
    levels for capture and post-processing) each element is a text, none
    is an array. *)
Theorem argument_vectors_are_flat (env : Env) (streamUrl : string)
    (toISOString : Z -> string) :
  let texts := Forall (fun a => exists s, a = Str s) in
  (forall path, texts (getFfprobeArguments path))
  /\ (forall path, texts (getVideoDimensions_args path))
  /\ (forall path from limit,
        texts (getFfmpegBoundaryDetectionArguments env path from limit))
  /\ (forall path, texts (getFfmpegNewsBannerDetectionArguments env path))
  /\ (forall path from limit,
        texts (getFfmpegCropDetectionArguments env path from limit))
  /\ (forall path programme thumbnail seconds,
        match getFfmpegCaptureArguments env streamUrl toISOString
                path programme thumbnail seconds with
        | Resolved args => texts args
        | Rejected _ => True
        end)
  /\ (forall inputPath outputPath start end_ crop hasThumbnail w h,
        texts (getFfmpegPostProcessArguments env inputPath outputPath
                 start end_ crop hasThumbnail w h)).
Proof.
  cbv zeta. repeat split; intros.
  - apply flat_texts. reflexivity.
  - apply flat_texts. reflexivity.
  - apply flat_texts. check_depth.
  - apply flat_texts. check_depth.
  - apply flat_texts. check_depth.
  - unfold getFfmpegCaptureArguments.
    destruct (date_metadata toISOString (startDate programme)) as [date|]
      eqn:Ed; [|exact I].
    apply flat_texts.
    assert (Hd : depth_le 2 date = true).
    { unfold date_metadata in Ed.
      destruct (startDate programme) as [[t|]|]; try discriminate;
        injection Ed as <-; reflexivity. }
    cbn [forallb]. rewrite Hd. check_depth.
  - apply flat_texts. cbn [forallb]. rewrite generateFilterChain_cases.
    destruct crop, hasThumbnail; check_depth.
Qed.

(** ** The post-processing orchestrator *)

Lemma getStreamCount_trace (env : Env) (path : string) :
  snd (Async.run (getStreamCount env path))
  = [ Logged debug
        ("Invoking ffprobe with args: " ++ join " " (getFfprobeArguments path));
      Executed "ffprobe" (strings (getFfprobeArguments path)) ].
Proof.
  unfold Async.run, getStreamCount, Async.bind, Async.log, Async.execute.
  cbn [app]. destruct (ffprobe env _) as [out|e]; [|reflexivity].
  destruct (Probe.format out); reflexivity.
Qed.

Lemma getVideoDimensions_trace (env : Env) (path : string) :
  snd (Async.run (getVideoDimensions env path))
  = [ Logged debug
        ("Invoking ffprobe with args: "
         ++ join " " (getVideoDimensions_args path));
      Executed "ffprobe" (strings (getVideoDimensions_args path)) ].
Proof.
  unfold Async.run, getVideoDimensions, Async.bind, Async.log, Async.execute.
  cbn [app]. destruct (ffprobe env _) as [out|e]; [|reflexivity].
  set (stream := JS.nullish _ Probe.no_fields).
  destruct (Probe.width stream) as [w|], (Probe.coded_width stream) as [cw|],
           (Probe.height stream) as [h|], (Probe.coded_height stream) as [ch|];
    cbn [JS.of_field JS.truthy negb orb];
    repeat match goal with
           | |- context [?z =? 0] => destruct (z =? 0)
           end;
    reflexivity.
Qed.

(** X15.  When the probe of the dimensions succeeds, [postProcessRecording]
    builds the ffmpeg arguments from the probed width and height (not from
    1920x1080), logs no warning, runs ffprobe twice and ffmpeg once, and
    ends as the ffmpeg run ends: a failure of that run is its failure, and
    after a successful run it logs how long the run took. *)
Theorem postProcessRecording_uses_probed_dimensions (env : Env)
    (inputPath outputPath : string) (start end_ : Q)
    (crop : list Crop.CropParameters) (count : JS.number) (dims : Dimensions) :
  fst (Async.run (getStreamCount env inputPath)) = Resolved count ->
  fst (Async.run (getVideoDimensions env inputPath)) = Resolved dims ->
  Async.run (postProcessRecording env inputPath outputPath start end_ crop) =
  let args :=
    getFfmpegPostProcessArguments env inputPath outputPath start end_ crop
      (JS.num_gtb count (Some 2)) (dim_width dims) (dim_height dims) in
  ( match ffmpeg env (strings args) with
    | Resolved _ => Resolved tt
    | Rejected e => Rejected e
    end,
    [ Logged debug
        ("Invoking ffprobe with args: "
         ++ join " " (getFfprobeArguments inputPath));
      Executed "ffprobe" (strings (getFfprobeArguments inputPath));
      Logged debug
        ("Invoking ffprobe with args: "
         ++ join " " (getVideoDimensions_args inputPath));
      Executed "ffprobe" (strings (getVideoDimensions_args inputPath));
      Logged debug ("Invoking ffmpeg with args: " ++ join " " args);
      Executed "ffmpeg" (strings args) ]
    ++ match ffmpeg env (strings args) with
       | Resolved _ =>
           let invoked :=
             [ Logged debug
                 ("Invoking ffprobe with args: "
                  ++ join " " (getFfprobeArguments inputPath));
               Executed "ffprobe" (strings (getFfprobeArguments inputPath));
               Logged debug
                 ("Invoking ffprobe with args: "
                  ++ join " " (getVideoDimensions_args inputPath));
               Executed "ffprobe" (strings (getVideoDimensions_args inputPath));
               Logged debug ("Invoking ffmpeg with args: " ++ join " " args) ]
           in
           [ done_in env invoked (invoked ++ [Executed "ffmpeg" (strings args)]) ]
       | Rejected _ => []
       end ).
Proof.
  intros Hcount Hdims.
  rewrite (postProcessRecording_run env inputPath outputPath start end_ crop
             count Hcount).
  cbv zeta. rewrite Hdims, getStreamCount_trace, getVideoDimensions_trace.
  unfold ffmpeg_run. cbn [app].
  destruct (ffmpeg env _); reflexivity.
Qed.

Lemma postProcessRecording_uses_probed_dimensions_witness :
  fst (Async.run
         (postProcessRecording (probe_env coded_only_stream)
            "in.mp4" "out.mp4" 1500 0 []))
  = Resolved tt
  /\ In (Executed "ffmpeg"
           (strings
              (getFfmpegPostProcessArguments (probe_env coded_only_stream)
                 "in.mp4" "out.mp4" 1500 0 [] true 1280 720)))
        (snd (Async.run
                (postProcessRecording (probe_env coded_only_stream)
                   "in.mp4" "out.mp4" 1500 0 []))).
Proof.
  rewrite (postProcessRecording_uses_probed_dimensions
             (probe_env coded_only_stream) "in.mp4" "out.mp4" 1500%Q 0%Q []
             (Some 3) {| dim_width := 1280; dim_height := 720 |}
             eq_refl eq_refl).
  split; [reflexivity|].
  cbv zeta. cbn [snd]. rewrite in_app_iff. cbn [In]. auto 10.
Defined.

(** X16.  A failure of the stream count is fatal to
    [postProcessRecording]: it fails with that error right after the
    first ffprobe run, before the dimensions are probed and without
    running ffmpeg.  The stream count itself fails when ffprobe fails and
    when its answer has no [format] object. *)
Theorem postProcessRecording_stream_count_failure (env : Env)
    (inputPath outputPath : string) (start end_ : Q)
    (crop : list Crop.CropParameters) :
  (forall e,
      fst (Async.run (getStreamCount env inputPath)) = Rejected e ->
      Async.run (postProcessRecording env inputPath outputPath start end_ crop)
      = ( Rejected e,
          [ Logged debug
              ("Invoking ffprobe with args: "
               ++ join " " (getFfprobeArguments inputPath));
            Executed "ffprobe" (strings (getFfprobeArguments inputPath)) ] ))
  /\ fst (Async.run (getStreamCount env inputPath)) =
     match ffprobe env (strings (getFfprobeArguments inputPath)) with
     | Rejected e => Rejected e
     | Resolved out =>
         match Probe.format out with
         | None => Rejected "TypeError"
         | Some f => Resolved (Probe.nb_streams f)
         end
     end.
Proof.
  split.
  - intros e He.
    unfold Async.run, postProcessRecording.
    unfold Async.bind at 1. rewrite getStreamCount_run, He.
    rewrite getStreamCount_trace. reflexivity.
  - unfold Async.run, getStreamCount, Async.bind, Async.log, Async.execute.
    cbn [app]. destruct (ffprobe env _) as [out|e]; [|reflexivity].
    destruct (Probe.format out); reflexivity.
Qed.

Lemma postProcessRecording_stream_count_failure_witness :
  fst (Async.run
         (postProcessRecording
            (example_env (Rejected "spawn ffprobe ENOENT") (Resolved []))
            "in.mp4" "out.mp4" 1500 0 []))
  = Rejected "spawn ffprobe ENOENT".
Proof.
  rewrite (proj1 (postProcessRecording_stream_count_failure
                    (example_env (Rejected "spawn ffprobe ENOENT") (Resolved []))
                    "in.mp4" "out.mp4" 1500%Q 0%Q [])
             "spawn ffprobe ENOENT" eq_refl).
  reflexivity.
Defined.

(** ** Capture *)

(** X17.  [captureStream] with a start date that is an invalid date fails
    while it builds its arguments ([toISOString] throws), before ffmpeg is
    started and before anything is logged.  In every other case it logs
    the invocation and runs ffmpeg exactly once, with the capture
    arguments; when the run fails it fails with the run's error, and when
    the run succeeds it logs how long the run took and returns the run's
    diagnostic lines. *)
Theorem captureStream_runs_once (env : Env) (streamUrl : string)
    (toISOString : Z -> string) (path : string) (seconds : Q)
    (programme : Programme) (thumbnailData : option string) :
  match startDate programme with
  | Some None =>
      Async.run
        (captureStream env streamUrl toISOString path seconds programme
           thumbnailData)
      = (Rejected "RangeError: Invalid time value", [])
  | _ =>
      exists args,
        getFfmpegCaptureArguments env streamUrl toISOString path programme
          (match thumbnailData with Some _ => true | None => false end)
          seconds
        = Resolved args
        /\ Async.run
             (captureStream env streamUrl toISOString path seconds programme
                thumbnailData)
           = ( ffmpeg env (strings args),
               match ffmpeg env (strings args) with
               | Resolved _ => ffmpeg_run env [] args
               | Rejected _ =>
                   [ Logged debug
                       ("Invoking ffmpeg with args: " ++ join " " args);
                     Executed "ffmpeg" (strings args) ]
               end )
  end.
Proof.
  unfold Async.run, captureStream, getFfmpegCaptureArguments.
  destruct (startDate programme) as [[t|]|]; cbn [date_metadata];
    try reflexivity;
    (eexists; split; [reflexivity|]);
    unfold Async.bind, Async.log, Async.execute, Async.ret, Async.read,
      ffmpeg_run, done_in;
    cbn [app];
    destruct (ffmpeg env _); reflexivity.
Qed.

(** ** The schedule module *)

Lemma getApiKey_resolves (host : Host) (st : State) :
  exists key st',
    getApiKey host st = (Resolved key, st')
    /\ key <> EmptyString
    /\ scheduleData st' = scheduleData st
    /\ scheduleDataTimestamp st' = scheduleDataTimestamp st
    /\ readings st' = readings st
    /\ requests st' = S (requests st).
Proof.
  unfold getApiKey, Task.bind, Task.try_catch, fetch_url, Task.lift,
    Task.log, Task.ret.
  destruct (fetch host (requests st) _) as [res|e].
  - destruct (text res) as [t|e].
    + destruct (Regex.exec API_KEY_PATTERN t) as [k|] eqn:Ek.
      * cbn [truthy_text]. destruct (String.eqb_spec k "") as [->|Hne].
        -- cbn [negb]. do 2 eexists. split; [reflexivity|].
           repeat split. discriminate.
        -- cbn [negb]. do 2 eexists. split; [reflexivity|].
           repeat split. cbn [JS.nullish]. exact Hne.
      * cbn [truthy_text]. do 2 eexists. split; [reflexivity|].
        repeat split. discriminate.
    + do 2 eexists. split; [reflexivity|]. repeat split. discriminate.
  - do 2 eexists. split; [reflexivity|]. repeat split. discriminate.
Qed.

Lemma api_key_nonempty (text : string) (apiKey : string) :
  Regex.exec API_KEY_PATTERN text = Some apiKey -> apiKey <> EmptyString.
Proof.
  intros H. apply exec_some in H. destruct H as (s' & rest & H).
  unfold API_KEY_PATTERN in H. open_pattern H. subst apiKey.
  eapply plus_captures; eassumption.
Qed.

(** X18.  [getApiKey] never fails and never returns an empty key: it
    returns the key found in the page when the request succeeds, the body
    can be read and the page holds a key, and the built-in key in every
    other case (the request fails, the body cannot be read, the page holds
    no key).  It makes exactly one request and leaves the schedule cache
    alone. *)
Theorem getApiKey_never_fails (host : Host) (st : State) :
  exists key st',
    getApiKey host st = (Resolved key, st')
    /\ key
       = match
           fetch host (requests st)
             (assetsUrl host ++ "/nhkworld/common/js/common.js")%string
         with
         | Resolved res =>
             match text res with
             | Resolved page =>
                 match Regex.exec API_KEY_PATTERN page with
                 | Some apiKey => apiKey
                 | None => FALLBACK_API_KEY
                 end
             | Rejected _ => FALLBACK_API_KEY
             end
         | Rejected _ => FALLBACK_API_KEY
         end
    /\ key <> EmptyString
    /\ scheduleData st' = scheduleData st
    /\ scheduleDataTimestamp st' = scheduleDataTimestamp st
    /\ readings st' = readings st
    /\ requests st' = S (requests st).
Proof.
  unfold getApiKey, Task.bind, Task.try_catch, fetch_url, Task.lift,
    Task.log, Task.ret.
  destruct (fetch host (requests st) _) as [res|e].
  - destruct (text res) as [t|e].
    + destruct (Regex.exec API_KEY_PATTERN t) as [k|] eqn:Ek.
      * pose proof (api_key_nonempty t k Ek) as Hne.
        cbn [truthy_text]. destruct (String.eqb_spec k "") as [->|_].
        -- contradiction.
        -- cbn [negb]. do 2 eexists. split; [reflexivity|].
           repeat split. exact Hne.
      * cbn [truthy_text]. do 2 eexists. split; [reflexivity|].
        repeat split. discriminate.
    + do 2 eexists. split; [reflexivity|]. repeat split. discriminate.
  - do 2 eexists. split; [reflexivity|]. repeat split. discriminate.
Qed.

Lemma getSchedule_run (host : Host) (st : State) :
  exists key st1,
    getApiKey host st = (Resolved key, st1)
    /\ exists st',
        getSchedule host st =
        ( match
            fetch host (S (requests st))
              (schedule_address host key
                 (clock host (readings st)) (clock host (S (readings st))))
          with
          | Rejected e => Rejected e
          | Resolved res =>
              match json res with
              | Rejected e => Rejected e
              | Resolved rawSchedule =>
                  match items_of rawSchedule with
                  | Some items => Resolved (map (programme_of_item host) items)
                  | None => Rejected "Failed to retrieve schedule $(items)"
                  end
              end
          end, st' )
        /\ scheduleData st' = scheduleData st
        /\ scheduleDataTimestamp st' = scheduleDataTimestamp st
        /\ readings st' = S (S (readings st))
        /\ requests st' = S (S (requests st)).
Proof.
  destruct (getApiKey_resolves host st)
    as (key & st1 & Hrun & Hne & Hd & Ht & Hr & Hq).
  exists key, st1. split; [exact Hrun|].
  unfold getSchedule. unfold Task.bind at 1. rewrite Hrun.
  apply String.eqb_neq in Hne. rewrite Hne.
  unfold getScheduleForPeriod, now, fetch_url, Task.lift,
    Task.ret, Task.throw, schedule_address.
  unfold Task.bind.
  cbn [readings requests scheduleData scheduleDataTimestamp notes].
  rewrite Hr, Hq.
  destruct (fetch host (S (requests st)) _) as [res|e].
  - destruct (json res) as [raw|e].
    + unfold items_of.
      destruct raw as [[[[[items|]]|]]|];
        cbn [Raw.channel Raw.item];
        (eexists; split; [reflexivity|]); cbn; auto.
    + eexists; split; [reflexivity|]; cbn; auto.
  - eexists; split; [reflexivity|]; cbn; auto.
Qed.

(** X19.  [getSchedule] makes two requests, the second for the window
    from two hours before the first clock reading to seven days after the
    second, with the key that [getApiKey] returned.  It fails exactly
    when that second request fails, when its body cannot be read, or when
    the answer has no [channel.item], and otherwise returns one programme
    per item, in order.  A failure of the key request, and the branch
    for an empty key, never make it fail; it does not touch the cache. *)
Theorem getSchedule_outcome (host : Host) (st : State) :
  exists key,
    fst (getApiKey host st) = Resolved key
    /\ fst (getSchedule host st) =
       match
         fetch host (S (requests st))
           (schedule_address host key
              (clock host (readings st)) (clock host (S (readings st))))
       with
       | Rejected e => Rejected e
       | Resolved res =>
           match json res with
           | Rejected e => Rejected e
           | Resolved rawSchedule =>
               match items_of rawSchedule with
               | Some items => Resolved (map (programme_of_item host) items)
               | None => Rejected "Failed to retrieve schedule $(items)"
               end
           end
       end
    /\ scheduleData (snd (getSchedule host st)) = scheduleData st
    /\ scheduleDataTimestamp (snd (getSchedule host st))
       = scheduleDataTimestamp st
    /\ readings (snd (getSchedule host st)) = S (S (readings st))
    /\ requests (snd (getSchedule host st)) = S (S (requests st)).
Proof.
  destruct (getSchedule_run host st)
    as (key & st1 & Hkey & st' & Hrun & Hd & Ht & Hr & Hq).
  exists key. rewrite Hkey, Hrun. cbn [fst snd]. auto 6.
Qed.

Lemma getScheduleMemoized_hit (host : Host) (st : State) :
  clock host (readings st) - scheduleDataTimestamp st < MAX_CACHE_AGE ->
  getScheduleMemoized host st =
  ( Resolved (scheduleData st),
    {| scheduleData := scheduleData st;
       scheduleDataTimestamp := scheduleDataTimestamp st;
       readings := S (readings st);
       requests := requests st;
       notes :=
         notes st
         ++ [ Note Debug
                ("Using cached schedule ("
                 ++ print host
                      (inject_Z
                         (clock host (readings st) - scheduleDataTimestamp st)
                       / 1000)
                 ++ " seconds old)") ] |} ).
Proof.
  intros H. apply Z.ltb_lt in H.
  unfold getScheduleMemoized, Task.bind, now, Task.get, Task.log, Task.ret.
  cbn [scheduleData scheduleDataTimestamp readings requests notes].
  rewrite H. reflexivity.
Qed.

(** X20.  While the cache is younger than one hour, [getScheduleMemoized]
    answers from the cache: it returns the cached schedule as it is (also
    when nothing was cached yet), makes no request, and changes neither
    the cached schedule nor its time stamp. *)
Theorem getScheduleMemoized_cache_hit (host : Host) (st : State) :
  clock host (readings st) - scheduleDataTimestamp st < MAX_CACHE_AGE ->
  fst (getScheduleMemoized host st) = Resolved (scheduleData st)
  /\ scheduleData (snd (getScheduleMemoized host st)) = scheduleData st
  /\ scheduleDataTimestamp (snd (getScheduleMemoized host st))
     = scheduleDataTimestamp st
  /\ requests (snd (getScheduleMemoized host st)) = requests st
  /\ Forall (fun n => match n with Fetched _ => False | _ => True end)
       (skipn (List.length (notes st))
          (notes (snd (getScheduleMemoized host st)))).
Proof.
  intros H. rewrite (getScheduleMemoized_hit host st H). cbn [fst snd].
  repeat split.
  cbn [notes]. rewrite skipn_app, Nat.sub_diag, skipn_all. cbn [app skipn].
  repeat constructor.
Qed.

Lemma getScheduleMemoized_cache_hit_witness :
  fst (getScheduleMemoized (example_host 1000) initial_state) = Resolved None.
Proof.
  apply (proj1 (getScheduleMemoized_cache_hit (example_host 1000)
                  initial_state ltac:(vm_compute; reflexivity))).
Defined.

Lemma getScheduleMemoized_refresh (host : Host) (st : State) :
  MAX_CACHE_AGE <= clock host (readings st) - scheduleDataTimestamp st ->
  getScheduleMemoized host st =
  match getSchedule host (refreshing st) with
  | (Resolved fresh, st2) =>
      ( Resolved (Some fresh),
        {| scheduleData := Some fresh;
           scheduleDataTimestamp := clock host (readings st2);
           readings := S (readings st2);
           requests := requests st2;
           notes := notes st2 |} )
  | (Rejected err, st2) =>
      match scheduleData st2 with
      | Some old =>
          ( Resolved (Some old),
            {| scheduleData := scheduleData st2;
               scheduleDataTimestamp := scheduleDataTimestamp st2;
               readings := readings st2;
               requests := requests st2;
               notes :=
                 notes st2
                 ++ [ Note Error "Failed to get schedule data";
                      Note Error err;
                      Note Info
                        ("Falling back to old cached version ("
                         ++ print host
                              (inject_Z
                                 (clock host (readings st)
                                  - scheduleDataTimestamp st) / 1000)
                         ++ " seconds old)") ] |} )
      | None =>
          ( Rejected err,
            {| scheduleData := scheduleData st2;
               scheduleDataTimestamp := scheduleDataTimestamp st2;
               readings := readings st2;
               requests := requests st2;
               notes :=
                 notes st2
                 ++ [ Note Error "Failed to get schedule data";
                      Note Error err ] |} )
      end
  end.
Proof.
  intros H. apply Z.ltb_ge in H.
  unfold getScheduleMemoized.
  unfold Task.bind at 1. unfold now at 1.
  unfold Task.bind at 1. unfold Task.get at 1.
  cbn [scheduleData scheduleDataTimestamp readings requests notes].
  rewrite H. unfold Task.try_catch.
  unfold Task.bind at 1. unfold Task.log at 1.
  cbn [scheduleData scheduleDataTimestamp readings requests notes].
  unfold Task.bind at 1. fold (refreshing st).
  destruct (getSchedule host (refreshing st)) as [[fresh|err] st2].
  - unfold Task.bind, Task.set_cache, now, Task.set_timestamp, Task.get,
      Task.ret.
    cbn [scheduleData scheduleDataTimestamp readings requests notes].
    reflexivity.
  - unfold Task.bind, Task.log, Task.get, Task.ret, Task.throw.
    cbn [scheduleData scheduleDataTimestamp readings requests notes].
    destruct (scheduleData st2);
      cbn [scheduleData scheduleDataTimestamp readings requests notes];
      rewrite <- ?app_assoc; reflexivity.
Qed.

Lemma getSchedule_keeps_cache (host : Host) (st : State) (o : outcome (list Programme))
    (st2 : State) :
  getSchedule host st = (o, st2) ->
  scheduleData st2 = scheduleData st
  /\ scheduleDataTimestamp st2 = scheduleDataTimestamp st
  /\ requests st2 = S (S (requests st)).
Proof.
  intros H.
  destruct (getSchedule_run host st)
    as (key & st1 & Hkey & st' & Hrun & Hd & Ht & Hr & Hq).
  rewrite Hrun in H. injection H as _ <-. auto.
Qed.

(** X21.  When the cache is an hour old or older and the retrieval of the
    schedule fails, [getScheduleMemoized] falls back to the schedule it
    has, if it has one, and only otherwise fails, with the error of the
    retrieval.  In both cases the cached schedule and its time stamp are
    left as they were, so the next call tries again. *)
Theorem getScheduleMemoized_fallback (host : Host) (st st2 : State)
    (err : string) :
  MAX_CACHE_AGE <= clock host (readings st) - scheduleDataTimestamp st ->
  getSchedule host (refreshing st) = (Rejected err, st2) ->
  fst (getScheduleMemoized host st)
  = match scheduleData st with
    | Some old => Resolved (Some old)
    | None => Rejected err
    end
  /\ scheduleData (snd (getScheduleMemoized host st)) = scheduleData st
  /\ scheduleDataTimestamp (snd (getScheduleMemoized host st))
     = scheduleDataTimestamp st.
Proof.
  intros Hage Hfail.
  rewrite (getScheduleMemoized_refresh host st Hage), Hfail.
  destruct (getSchedule_keeps_cache host _ _ _ Hfail) as [Hd [Ht _]].
  cbn [refreshing scheduleData scheduleDataTimestamp] in Hd, Ht.
  rewrite Hd. destruct (scheduleData st); cbn [fst snd scheduleData
    scheduleDataTimestamp]; auto.
Qed.

Lemma getScheduleMemoized_fallback_witness :
  fst (getScheduleMemoized (example_host 1700000000000) stale_state)
  = Resolved (Some [example_programme (Some 0) (Some 1800000)]).
Proof.
  apply (proj1 (getScheduleMemoized_fallback (example_host 1700000000000)
                  stale_state
                  (snd (getSchedule (example_host 1700000000000)
                          (refreshing stale_state)))
                  "SyntaxError"
                  ltac:(vm_compute; discriminate)
                  ltac:(vm_compute; reflexivity))).
Defined.

(** X22.  After [getScheduleMemoized] has retrieved a schedule, the cache
    holds that schedule with the clock reading taken after the retrieval
    as its time stamp, and a second call made less than an hour (of that
    clock) later returns the same schedule without any request. *)
Theorem getScheduleMemoized_refresh_then_hit (host : Host) (st st2 : State)
    (fresh : list Programme) :
  MAX_CACHE_AGE <= clock host (readings st) - scheduleDataTimestamp st ->
  getSchedule host (refreshing st) = (Resolved fresh, st2) ->
  clock host (S (readings st2)) - clock host (readings st2) < MAX_CACHE_AGE ->
  let first := getScheduleMemoized host st in
  let second := getScheduleMemoized host (snd first) in
  fst first = Resolved (Some fresh)
  /\ scheduleData (snd first) = Some fresh
  /\ scheduleDataTimestamp (snd first) = clock host (readings st2)
  /\ fst second = Resolved (Some fresh)
  /\ requests (snd second) = requests (snd first)
  /\ scheduleDataTimestamp (snd second) = clock host (readings st2).
Proof.
  intros Hage Hok Hsoon. cbv zeta.
  rewrite (getScheduleMemoized_refresh host st Hage), Hok. cbn [fst snd].
  rewrite getScheduleMemoized_hit;
    cbn [scheduleData scheduleDataTimestamp readings requests notes fst snd];
    [auto 7|exact Hsoon].
Qed.

Lemma getScheduleMemoized_refresh_then_hit_witness :
  fst (getScheduleMemoized (example_host 1700000000000)
         (snd (getScheduleMemoized (example_host 1700000000000) initial_state)))
  = Resolved (Some [programme_of_item (example_host 1700000000000) example_item]).
Proof.
  apply (getScheduleMemoized_refresh_then_hit (example_host 1700000000000)
           initial_state
           (snd (getSchedule (example_host 1700000000000)
                   (refreshing initial_state)))
           [programme_of_item (example_host 1700000000000) example_item]
           ltac:(vm_compute; discriminate)
           ltac:(vm_compute; reflexivity)
           ltac:(vm_compute; reflexivity)).
Defined.

Lemma is_current_true (currTime : Z) (p : Programme) :
  is_current currTime p = Resolved true ->
  exists s e,
    startDate p = Some (Some s) /\ endDate p = Some (Some e)
    /\ s < currTime < e.
Proof.
  unfold is_current, JS.num_gtb, JS.num_ltb.
  destruct (startDate p) as [[s|]|]; try discriminate.
  destruct (s <? currTime) eqn:Hs; try discriminate.
  destruct (endDate p) as [[e|]|]; try discriminate.
  intros H. injection H as H. apply Z.ltb_lt in Hs, H.
  exists s, e. auto.
Qed.

Lemma find_current_first (currTime : Z) (programmes : list Programme)
    (p : Programme) :
  find_current currTime programmes = Resolved (Some p) ->
  exists before rest,
    programmes = before ++ p :: rest
    /\ Forall (fun q => is_current currTime q = Resolved false) before
    /\ is_current currTime p = Resolved true.
Proof.
  induction programmes as [|q qs IH]; cbn [find_current]; [discriminate|].
  destruct (is_current currTime q) as [[|]|] eqn:Hq; try discriminate.
  - intros H. injection H as <-. exists [], qs. auto.
  - intros H. destruct (IH H) as (before & rest & -> & Hb & Hp).
    exists (q :: before), rest. auto.
Qed.

Lemma is_current_encloses (currTime : Z) (p : Programme) :
  startDate p <> None -> endDate p <> None ->
  is_current currTime p = Resolved (encloses currTime p).
Proof.
  unfold is_current, encloses, JS.num_gtb, JS.num_ltb.
  destruct (startDate p) as [[s|]|], (endDate p) as [[e|]|];
    try contradiction; intros _ _; try reflexivity;
    destruct (s <? currTime); reflexivity.
Qed.

Lemma is_current_true_iff (currTime : Z) (p : Programme) :
  is_current currTime p = Resolved true <-> encloses currTime p = true.
Proof.
  unfold is_current, encloses, JS.num_gtb, JS.num_ltb.
  destruct (startDate p) as [[s|]|], (endDate p) as [[e|]|];
    try destruct (s <? currTime); cbn [andb];
    split; intros H; try discriminate; try reflexivity;
    try (injection H as H; exact H); rewrite H; reflexivity.
Qed.

(** X23.  The search of [getCurrentProgramme] returns the first programme
    of the schedule that the time lies strictly inside of, and nothing
    when there is none: on a schedule whose programmes all have their two
    dates it is [find] with the test "start < time < end", which is false
    for an invalid date.  In general it returns a programme exactly when
    that programme encloses the time and every programme before it was
    examined and rejected.  A programme that starts or ends exactly at
    the time is never the one returned. *)
Theorem find_current_strictly_inside (currTime : Z)
    (programmes : list Programme) :
  (Forall (fun p => startDate p <> None /\ endDate p <> None) programmes ->
   find_current currTime programmes
   = Resolved (find (encloses currTime) programmes))
  /\ (forall p,
        find_current currTime programmes = Resolved (Some p) <->
        exists before rest,
          programmes = before ++ p :: rest
          /\ Forall (fun q => is_current currTime q = Resolved false) before
          /\ encloses currTime p = true)
  /\ (forall p,
        find_current currTime programmes = Resolved (Some p) ->
        exists s e,
          startDate p = Some (Some s) /\ endDate p = Some (Some e)
          /\ s < currTime < e)
  /\ (forall p,
        startDate p = Some (Some currTime) \/ endDate p = Some (Some currTime) ->
        find_current currTime programmes <> Resolved (Some p)).
Proof.
  split; [|split; [|split]].
  - induction 1 as [|p ps [Hs He] _ IH]; [reflexivity|].
    cbn [find_current find]. rewrite (is_current_encloses _ _ Hs He).
    destruct (encloses currTime p); [reflexivity|exact IH].
  - intros p. split.
    + intros H.
      destruct (find_current_first _ _ _ H) as (before & rest & Hps & Hb & Hp).
      exists before, rest. rewrite <- is_current_true_iff. auto.
    + intros (before & rest & -> & Hb & Hp).
      apply is_current_true_iff in Hp.
      induction Hb as [|q before Hq _ IH]; cbn [app find_current].
      * rewrite Hp. reflexivity.
      * rewrite Hq. exact IH.
  - intros p H.
    destruct (find_current_first _ _ _ H) as (before & rest & _ & _ & Hp).
    exact (is_current_true _ _ Hp).
  - intros p Hedge H.
    destruct (find_current_first _ _ _ H) as (before & rest & _ & _ & Hp).
    destruct (is_current_true _ _ Hp) as (s & e & Hs & He & Hlt).
    rewrite Hs, He in Hedge.
    destruct Hedge as [Heq|Heq]; injection Heq as Heq; lia.
Qed.

Lemma find_current_strictly_inside_witness :
  find_current 500
    [ example_programme (Some 500) (Some 900);
      example_programme (Some 0) (Some 1800000) ]
  = Resolved (Some (example_programme (Some 0) (Some 1800000))).
Proof.
  apply (proj1 (find_current_strictly_inside 500
                  [ example_programme (Some 500) (Some 900);
                    example_programme (Some 0) (Some 1800000) ])).
  repeat constructor; discriminate.
Defined.

(** X24.  With a cache younger than one hour, [getCurrentProgramme]
    makes no request and reads the clock twice; the time it looks up is
    the second reading plus the safety buffer.  It fails with a type
    error when nothing was cached, and a programme it returns is one of
    the cached schedule whose start lies before and whose end lies after
    that time. *)
Theorem getCurrentProgramme_cached (host : Host) (st : State) :
  clock host (readings st) - scheduleDataTimestamp st < MAX_CACHE_AGE ->
  let currTime := clock host (S (readings st)) + safetyBuffer host in
  fst (getCurrentProgramme host st)
  = match scheduleData st with
    | Some programmes => find_current currTime programmes
    | None => Rejected "TypeError"
    end
  /\ requests (snd (getCurrentProgramme host st)) = requests st
  /\ readings (snd (getCurrentProgramme host st)) = S (S (readings st))
  /\ forall p,
       fst (getCurrentProgramme host st) = Resolved (Some p) ->
       exists programmes s e,
         scheduleData st = Some programmes /\ In p programmes
         /\ startDate p = Some (Some s) /\ endDate p = Some (Some e)
         /\ s < currTime < e.
Proof.
  intros Hage. cbv zeta.
  assert (Hrun :
    fst (getCurrentProgramme host st)
    = match scheduleData st with
      | Some programmes =>
          find_current (clock host (S (readings st)) + safetyBuffer host)
            programmes
      | None => Rejected "TypeError"
      end
    /\ requests (snd (getCurrentProgramme host st)) = requests st
    /\ readings (snd (getCurrentProgramme host st)) = S (S (readings st))).
  { unfold getCurrentProgramme, Task.bind.
    rewrite (getScheduleMemoized_hit host st Hage).
    unfold now, Task.throw, Task.lift.
    cbn [scheduleData scheduleDataTimestamp readings requests notes].
    destruct (scheduleData st); cbn [fst snd readings requests]; auto. }
  destruct Hrun as (Hfst & Hq & Hr).
  repeat split; try assumption.
  intros p Hp. rewrite Hfst in Hp.
  destruct (scheduleData st) as [programmes|]; [|discriminate].
  destruct (find_current_first _ _ _ Hp) as (before & rest & Hps & Hb & Hc).
  destruct (is_current_true _ _ Hc) as (s & e & Hs & He & Hlt).
  exists programmes, s, e. repeat split; try tauto.
  rewrite Hps. apply in_or_app. right. left. reflexivity.
Qed.

Lemma getCurrentProgramme_cached_witness :
  fst (getCurrentProgramme (example_host 1000) stale_state)
  = Resolved (Some (example_programme (Some 0) (Some 1800000))).
Proof.
  apply (proj1 (getCurrentProgramme_cached (example_host 1000) stale_state
                  ltac:(vm_compute; reflexivity))).
Defined.

(** X25.  Neither version of [getThumbnail] ever fails.  The version on
    the global [fetch] returns the body only when the request succeeds
    with an [ok] status and the body can be read, and null otherwise; the
    version on node-fetch does not look at the status and returns the
    body of any answer whose body can be read.  Each makes exactly one
    request, to the assets address followed by the given path. *)
Theorem getThumbnail_never_fails (host : Host) (thumbnailUri : string)
    (st : State) :
  let answer := fetch host (requests st) (assetsUrl host ++ thumbnailUri) in
  fst (getThumbnail host thumbnailUri st)
  = Resolved
      match answer with
      | Resolved res =>
          if ok res
          then match arrayBuffer res with
               | Resolved body => Some body
               | Rejected _ => None
               end
          else None
      | Rejected _ => None
      end
  /\ fst (getThumbnail_buffer host thumbnailUri st)
     = Resolved
         match answer with
         | Resolved res =>
             match arrayBuffer res with
             | Resolved body => Some body
             | Rejected _ => None
             end
         | Rejected _ => None
         end
  /\ requests (snd (getThumbnail host thumbnailUri st)) = S (requests st)
  /\ requests (snd (getThumbnail_buffer host thumbnailUri st))
     = S (requests st)
  /\ In (Fetched (assetsUrl host ++ thumbnailUri))
       (notes (snd (getThumbnail host thumbnailUri st)))
  /\ In (Fetched (assetsUrl host ++ thumbnailUri))
       (notes (snd (getThumbnail_buffer host thumbnailUri st))).
Proof.
  cbv zeta.
  unfold getThumbnail, getThumbnail_buffer, Task.try_catch, Task.bind,
    Task.log, fetch_url, Task.lift, Task.ret, Task.throw.
  cbn [scheduleData scheduleDataTimestamp readings requests notes].
  destruct (fetch host (requests st) _) as [res|e];
    [destruct (ok res); cbn [negb]; destruct (arrayBuffer res)|];
    cbn [fst snd scheduleData scheduleDataTimestamp readings requests notes];
    repeat split;
    rewrite ?in_app_iff; cbn [In]; auto 10.
Qed.

Lemma isDesiredProgramme_true (recorder : Recorder) (programme : Programme) :
  isDesiredProgramme recorder programme = Resolved true ->
  exists s e,
    startDate programme = Some (Some s) /\ endDate programme = Some (Some e)
    /\ minimumDuration recorder < e - s
    /\ isMatch recorder (title programme) = Resolved true.
Proof.
  unfold isDesiredProgramme, time_of, JS.num_sub, JS.num_gtb, JS.num_ltb.
  destruct (endDate programme) as [[e|]|]; try discriminate;
    destruct (startDate programme) as [[s|]|]; try discriminate;
    destruct (isMatch recorder (title programme)) as [[|]|];
    try discriminate; cbn [andb]; intros H; try discriminate.
  injection H as H. apply Z.ltb_lt in H. exists s, e. auto.
Qed.

(** X26.  [recordIfDesired] starts a recording in one case only: the
    title matches, both dates of the programme are valid, the programme
    is strictly longer than the minimum duration, and no recording of it
    exists.  A programme found not desired ends the call successfully
    with one log line, and a failure of the title match or a missing date
    fails the call before anything is logged. *)
Theorem recordIfDesired_records_only_desired (recorder : Recorder)
    (programme : Programme) (st : State) :
  let after := snd (recordIfDesired recorder programme st) in
  (In (Recording (title programme)) (skipn (List.length (notes st)) (notes after))
   <-> isDesiredProgramme recorder programme = Resolved true
       /\ recordingExists recorder programme = Resolved false)
  /\ (In (Recording (title programme))
        (skipn (List.length (notes st)) (notes after)) ->
      exists s e,
        startDate programme = Some (Some s)
        /\ endDate programme = Some (Some e)
        /\ minimumDuration recorder < e - s
        /\ isMatch recorder (title programme) = Resolved true)
  /\ (isDesiredProgramme recorder programme = Resolved false ->
      recordIfDesired recorder programme st
      = ( Resolved tt,
          {| scheduleData := scheduleData st;
             scheduleDataTimestamp := scheduleDataTimestamp st;
             readings := readings st; requests := requests st;
             notes :=
               notes st
               ++ [ Note Info
                      (JS.nullish (title programme) "undefined"
                       ++ " is not desired") ] |} ))
  /\ (forall err,
        isDesiredProgramme recorder programme = Rejected err ->
        recordIfDesired recorder programme st = (Rejected err, st)).
Proof.
  cbv zeta.
  assert (Hiff :
    In (Recording (title programme))
      (skipn (List.length (notes st))
         (notes (snd (recordIfDesired recorder programme st))))
    <-> isDesiredProgramme recorder programme = Resolved true
        /\ recordingExists recorder programme = Resolved false).
  { unfold recordIfDesired, Task.bind, Task.lift, Task.log, Task.ret.
    destruct (isDesiredProgramme recorder programme) as [[|]|err];
      cbn [negb snd scheduleData scheduleDataTimestamp readings requests notes].
    - destruct (recordingExists recorder programme) as [[|]|err];
        cbn [negb snd scheduleData scheduleDataTimestamp readings requests
             notes];
        rewrite <- ?app_assoc, skipn_app, Nat.sub_diag, skipn_all;
        cbn [app skipn In];
        (split;
         [ intros H; repeat (destruct H as [H|H]; try discriminate);
           try contradiction; auto
         | intros [_ H]; try discriminate; auto ]).
    - rewrite skipn_app, Nat.sub_diag, skipn_all. cbn [app skipn In].
      split; [intros [H|[]]; discriminate|intros [H _]; discriminate].
    - rewrite skipn_all. cbn [In].
      split; [intros []|intros [H _]; discriminate]. }
  split; [exact Hiff|].
  split.
  { intros H. apply Hiff in H. destruct H as [H _].
    exact (isDesiredProgramme_true _ _ H). }
  split.
  - intros H. unfold recordIfDesired, Task.bind, Task.lift, Task.log, Task.ret.
    rewrite H.
    cbn [negb scheduleData scheduleDataTimestamp readings requests notes].
    reflexivity.
  - intros err H.
    unfold recordIfDesired, Task.bind, Task.lift. rewrite H. reflexivity.
Qed.

Lemma recordIfDesired_records_only_desired_witness :
  recordIfDesired example_recorder
    (example_programme (Some 0) (Some 600000)) initial_state
  = ( Resolved tt,
      {| scheduleData := None; scheduleDataTimestamp := 0;
         readings := 0; requests := 0;
         notes := [Note Info "Newsline is not desired"] |} ).
Proof.
  apply (proj1 (proj2 (proj2 (recordIfDesired_records_only_desired
                  example_recorder
                  (example_programme (Some 0) (Some 600000)) initial_state)))
           ltac:(vm_compute; reflexivity)).
Defined.
